(** * Date estimation service: heuristic rules, oracle fallback, date capping

    Shallow embedding of [src/pages/DealSearch.tsx] (the part after the
    document separator, which the receipt scanner imports as
    [@/services/dateEstimation]): [HEURISTIC_RULES], [getHeuristicEstimate],
    [getLLMEstimate] and [estimateDates].

    The service is written against the JavaScript [Date] built-in, so the
    first module embeds the ECMA-262 time-value algorithms that the code
    calls: [getDate], [setDate], the relational comparison of two dates,
    [getTime]/[Math.min] and [toISOString].

    Scope of the embedding.
    - A time value is an integer number of milliseconds since the epoch, or
      NaN; [option Z] with [None] for NaN.  All integers involved stay far
      below 2^53 whenever the result is not clipped to NaN, so exact integer
      arithmetic agrees with the double arithmetic of the engine.
    - The host time zone is a parameter [LocalTZA]: a constant offset in
      milliseconds (a zone without offset transitions).
    - [Date.parse] is implementation-defined outside the ISO format, so the
      service takes the parser as a parameter; [Date_parse_iso] is the
      date-only ISO reading that ECMA-262 fixes (UTC midnight), and is what
      the receipt scanner feeds the service.
    - Names are ASCII strings; [toLowerCase] maps A-Z to a-z.

    The service is embedded three times, each embedding refining the one
    before it: as a function of its input in a zone of fixed offset
    ([estimateDates]); as a function of its input in a zone whose offset
    changes with the instant, as ECMA-262 has it ([Zoned.estimateDates]);
    and as a program on a heap of [Date] objects and rule-table pairs that
    it reads by reference and mutates in place ([Stateful.estimateDates]).
    [constant_zone] and [estimateDates_run] relate them.

    Further modules embed the code around the service: the deal search
    page ([processResults], [handleSearch]), the home page ([filteredItems],
    [groupedItems], the expiring-soon mark), the receipt scanning page
    ([processReceiptImage], [toggleItemConfirmation], [updateItemName],
    [handleConfirmItems]) and the receipt scanning function ([serve]).
    What the environment decides (the answers of remote calls, the clock,
    whether a module loads, whether a callback throws) is an argument of
    the handler it reaches; a handler returns the state it leaves and the
    calls or toasts it made. *)

From Stdlib Require Import ZArith String Ascii List Bool Lia.
From Stdlib Require Import DecimalString DecimalNat Sorted.
Import ListNotations.

Local Open Scope string_scope.
Local Open Scope Z_scope.

(** ** JavaScript values that reach the arithmetic *)

(** What a day-count field of the oracle's JSON answer can hold, as far as
    this development follows it: a missing field reads as [undefined], a
    JSON [null], or an integer-valued number. *)
Inductive jsval : Type :=
| JUndefined
| JNull
| JNum (n : Z).

(** A Number restricted to the integers, [None] standing for NaN. *)
Definition jsnum : Type := option Z.

Definition ToNumber (v : jsval) : jsnum :=
  match v with
  | JUndefined => None
  | JNull => Some 0
  | JNum n => Some n
  end.

(** [a + v] where [a] is already a Number. *)
Definition js_add (a : jsnum) (v : jsval) : jsnum :=
  match a, ToNumber v with
  | Some x, Some y => Some (x + y)
  | _, _ => None
  end.

(** [a > b] on Numbers: false as soon as one side is NaN. *)
Definition js_gt (a b : jsnum) : bool :=
  match a, b with
  | Some x, Some y => y <? x
  | _, _ => false
  end.

(** [Math.min(a, b)]. *)
Definition Math_min (a b : jsnum) : jsnum :=
  match a, b with
  | Some x, Some y => Some (Z.min x y)
  | _, _ => None
  end.

(** [a === b] on Numbers: NaN is not equal to itself. *)
Definition js_strict_eq (a b : jsnum) : bool :=
  match a, b with
  | Some x, Some y => x =? y
  | _, _ => false
  end.

Inductive JsError : Type :=
| TypeError
| RangeError
| SyntaxError
| Error (msg : string).

(** Settled state of the promise an [async] function returns. *)
Inductive Promise (A : Type) : Type :=
| Fulfilled (a : A)
| Rejected (e : JsError).
Arguments Fulfilled {A} a.
Arguments Rejected {A} e.

Definition bindP {A B : Type} (p : Promise A) (k : A -> Promise B) : Promise B :=
  match p with
  | Fulfilled a => k a
  | Rejected e => Rejected e
  end.

Notation "x <- p ;; k" := (bindP p (fun x => k))
  (at level 61, p at next level, right associativity).

(** ** ECMA-262 time values *)

Module JsDate.

Definition msPerDay : Z := 86400000.
Definition maxTime : Z := 8640000000000000.

Definition Day (t : Z) : Z := t / msPerDay.
Definition TimeWithinDay (t : Z) : Z := t mod msPerDay.

Definition DaysInYear (y : Z) : Z :=
  if negb (y mod 4 =? 0) then 365
  else if negb (y mod 100 =? 0) then 366
  else if negb (y mod 400 =? 0) then 365
  else 366.

Definition DayFromYear (y : Z) : Z :=
  365 * (y - 1970) + (y - 1969) / 4 - (y - 1901) / 100 + (y - 1601) / 400.

(** The largest [y] with [DayFromYear y <= d]: a first guess from the mean
    length of a Gregorian year, corrected by at most one. *)
Definition YearFromDay (d : Z) : Z :=
  let y0 := 1970 + (400 * d) / 146097 in
  if d <? DayFromYear y0 then y0 - 1
  else if DayFromYear (y0 + 1) <=? d then y0 + 1
  else y0.

Definition YearFromTime (t : Z) : Z := YearFromDay (Day t).

Definition InLeapYear (t : Z) : Z :=
  if DaysInYear (YearFromTime t) =? 366 then 1 else 0.

Definition DayWithinYear (t : Z) : Z := Day t - DayFromYear (YearFromTime t).

Definition MonthFromTime (t : Z) : Z :=
  let d := DayWithinYear t in
  let l := InLeapYear t in
  if d <? 31 then 0
  else if d <? 59 + l then 1
  else if d <? 90 + l then 2
  else if d <? 120 + l then 3
  else if d <? 151 + l then 4
  else if d <? 181 + l then 5
  else if d <? 212 + l then 6
  else if d <? 243 + l then 7
  else if d <? 273 + l then 8
  else if d <? 304 + l then 9
  else if d <? 334 + l then 10
  else 11.

Definition DateFromTime (t : Z) : Z :=
  let d := DayWithinYear t in
  let l := InLeapYear t in
  match MonthFromTime t with
  | 0 => d + 1
  | 1 => d - 30
  | 2 => d - 58 - l
  | 3 => d - 89 - l
  | 4 => d - 119 - l
  | 5 => d - 150 - l
  | 6 => d - 180 - l
  | 7 => d - 211 - l
  | 8 => d - 242 - l
  | 9 => d - 272 - l
  | 10 => d - 303 - l
  | _ => d - 333 - l
  end.

Definition HourFromTime (t : Z) : Z := (t / 3600000) mod 24.
Definition MinFromTime (t : Z) : Z := (t / 60000) mod 60.
Definition SecFromTime (t : Z) : Z := (t / 1000) mod 60.
Definition msFromTime (t : Z) : Z := t mod 1000.

(** Day number of the first day of month [mn] (0-11) in a year that is leap
    ([l = 1]) or not ([l = 0]). *)
Definition monthStart (mn l : Z) : Z :=
  match mn with
  | 0 => 0
  | 1 => 31
  | 2 => 59 + l
  | 3 => 90 + l
  | 4 => 120 + l
  | 5 => 151 + l
  | 6 => 181 + l
  | 7 => 212 + l
  | 8 => 243 + l
  | 9 => 273 + l
  | 10 => 304 + l
  | _ => 334 + l
  end.

(** The calendar date of a time value, as [toISOString] prints it: year,
    month (1-12) and day of the month. *)
Definition civil (t : Z) : Z * Z * Z :=
  (YearFromTime t, MonthFromTime t + 1, DateFromTime t).

(** Calendar order on such triples. *)
Definition civil_le (a b : Z * Z * Z) : Prop :=
  let '(y1, m1, d1) := a in
  let '(y2, m2, d2) := b in
  y1 < y2 \/ (y1 = y2 /\ (m1 < m2 \/ (m1 = m2 /\ d1 <= d2))).

(** [MakeDay(year, month, date)]: the day number of the first of the month,
    plus [date - 1]. *)
Definition MakeDay (year month date : Z) : Z :=
  let ym := year + month / 12 in
  let mn := month mod 12 in
  let l := if DaysInYear ym =? 366 then 1 else 0 in
  DayFromYear ym + monthStart mn l + date - 1.

Definition MakeDate (day time : Z) : Z := day * msPerDay + time.

Definition TimeClip (t : Z) : jsnum :=
  if maxTime <? Z.abs t then None else Some t.

Section HostZone.

(** Offset of local time from UTC, in milliseconds. *)
Variable LocalTZA : Z.

Definition LocalTime (t : Z) : Z := t + LocalTZA.
Definition UTC (t : Z) : Z := t - LocalTZA.

(** [d.getDate()] *)
Definition getDate (d : jsnum) : jsnum :=
  match d with
  | None => None
  | Some t => Some (DateFromTime (LocalTime t))
  end.

(** [d.setDate(date)]: the new time value of [d]. *)
Definition setDate (d : jsnum) (date : jsnum) : jsnum :=
  match d with
  | None => None
  | Some t0 =>
      match date with
      | None => None
      | Some dt =>
          let t := LocalTime t0 in
          let newDate :=
            MakeDate (MakeDay (YearFromTime t) (MonthFromTime t) dt)
                     (TimeWithinDay t) in
          TimeClip (UTC newDate)
      end
  end.

End HostZone.

(** *** [toISOString] *)

Definition digitChar (d : Z) : ascii :=
  match d with
  | 0 => "0" | 1 => "1" | 2 => "2" | 3 => "3" | 4 => "4"
  | 5 => "5" | 6 => "6" | 7 => "7" | 8 => "8" | _ => "9"
  end%char.

(** The [w] low decimal digits of [n], in front of [acc]. *)
Fixpoint padDigits (w : nat) (n : Z) (acc : string) : string :=
  match w with
  | O => acc
  | S w' => padDigits w' (n / 10) (String (digitChar (n mod 10)) acc)
  end.

Definition pad (w : nat) (n : Z) : string := padDigits w n "".

Definition yearString (y : Z) : string :=
  if (0 <=? y) && (y <=? 9999) then pad 4 y
  else if y <? 0 then "-" ++ pad 6 (- y)
  else "+" ++ pad 6 y.

Definition dateString (t : Z) : string :=
  let '(y, m, d) := civil t in
  yearString y ++ "-" ++ pad 2 m ++ "-" ++ pad 2 d.

Definition timeString (t : Z) : string :=
  pad 2 (HourFromTime t) ++ ":" ++ pad 2 (MinFromTime t) ++ ":"
    ++ pad 2 (SecFromTime t) ++ "." ++ pad 3 (msFromTime t) ++ "Z".

(** [d.toISOString()] throws a RangeError on an invalid date. *)
Definition toISOString (d : jsnum) : Promise string :=
  match d with
  | None => Rejected RangeError
  | Some t => Fulfilled (dateString t ++ "T" ++ timeString t)
  end.

(** [s.split(sep)[0]]: the characters in front of the first [sep]. *)
Fixpoint split_head (sep : ascii) (s : string) : string :=
  match s with
  | EmptyString => EmptyString
  | String c s' =>
      if Ascii.eqb c sep then EmptyString else String c (split_head sep s')
  end.

(** Whether the character [c] occurs in [s]. *)
Fixpoint mentions (c : ascii) (s : string) : bool :=
  match s with
  | EmptyString => false
  | String c' s' => Ascii.eqb c' c || mentions c s'
  end.

(** *** The date-only ISO form of [Date.parse] *)

Definition digitValue (c : ascii) : option Z :=
  let n := Z.of_nat (nat_of_ascii c) in
  if (48 <=? n) && (n <=? 57) then Some (n - 48) else None.

Fixpoint digitsValue (cs : list ascii) (acc : Z) : option Z :=
  match cs with
  | [] => Some acc
  | c :: cs' =>
      match digitValue c with
      | Some v => digitsValue cs' (10 * acc + v)
      | None => None
      end
  end.

(** ["YYYY-MM-DD"] read as UTC midnight; anything else is an invalid date
    for this parser. *)
Definition Date_parse_iso (s : string) : jsnum :=
  match list_ascii_of_string s with
  | [y1; y2; y3; y4; d1; m1; m2; d2; a1; a2] =>
      if Ascii.eqb d1 "-" && Ascii.eqb d2 "-" then
        match digitsValue [y1; y2; y3; y4] 0, digitsValue [m1; m2] 0,
              digitsValue [a1; a2] 0 with
        | Some y, Some m, Some a =>
            if (1 <=? m) && (m <=? 12) && (1 <=? a) && (a <=? 31)
            then TimeClip (MakeDate (MakeDay y (m - 1) a) 0)
            else None
        | _, _, _ => None
        end
      else None
  | _ => None
  end.

End JsDate.

Import JsDate.

(** ** The estimation service *)

(** [{ name, category, purchasedAt }] *)
Record EstimateDatesInput : Type := {
  name : string;
  category : string;
  purchasedAt : string
}.

(** [{ estimatedExpirationAt, estimatedRestockAt, source }]; [source] is the
    string the object carries at run time. *)
Record EstimateDatesOutput : Type := {
  estimatedExpirationAt : string;
  estimatedRestockAt : string;
  source : string
}.

(** [{ shelf_life, restock }], as the rule table authors it and as the
    oracle's answer is mapped into it. *)
Record Estimate : Type := {
  shelf_life : jsval;
  restock : jsval
}.

Definition days (s r : Z) : Estimate :=
  {| shelf_life := JNum s; restock := JNum r |}.

(** One entry of [HEURISTIC_RULES]: the default pair and the keyword
    overrides in the order the object literal lists them, which is the order
    [Object.entries] yields for keys that are not array indices. *)
Record CategoryRules : Type := {
  default : Estimate;
  keywords : list (string * Estimate)
}.

Definition HEURISTIC_RULES : list (string * CategoryRules) :=
  [ ("Produce",
     {| default := days 5 7;
        keywords :=
          [ ("apple", days 14 14);
            ("banana", days 7 7);
            ("lettuce", days 5 7);
            ("spinach", days 3 7);
            ("tomato", days 7 10);
            ("avocado", days 5 7);
            ("carrot", days 21 14);
            ("onion", days 30 21);
            ("potato", days 30 21) ] |});
    ("Dairy",
     {| default := days 7 10;
        keywords :=
          [ ("milk", days 7 7);
            ("cheese", days 14 14);
            ("yogurt", days 14 10);
            ("butter", days 30 30);
            ("eggs", days 25 14);
            ("cream", days 5 10) ] |});
    ("Meat",
     {| default := days 2 7;
        keywords :=
          [ ("chicken", days 2 7);
            ("beef", days 3 10);
            ("pork", days 3 10);
            ("fish", days 1 7);
            ("ground", days 1 7);
            ("frozen", days 90 30) ] |});
    ("Pantry",
     {| default := days 180 60;
        keywords :=
          [ ("bread", days 7 7);
            ("pasta", days 365 90);
            ("rice", days 365 90);
            ("cereal", days 60 30);
            ("flour", days 180 90);
            ("oil", days 365 180);
            ("canned", days 730 90) ] |});
    ("Frozen",
     {| default := days 90 30;
        keywords :=
          [ ("ice cream", days 60 30);
            ("vegetables", days 180 60);
            ("fruit", days 180 60);
            ("pizza", days 90 30) ] |});
    ("Beverages",
     {| default := days 90 30;
        keywords :=
          [ ("juice", days 7 14);
            ("soda", days 90 30);
            ("water", days 365 30);
            ("coffee", days 180 60);
            ("tea", days 365 90) ] |});
    ("Household",
     {| default := days 365 90;
        keywords :=
          [ ("paper", days 365 60);
            ("detergent", days 365 90);
            ("soap", days 365 60) ] |});
    ("Personal Care",
     {| default := days 365 90;
        keywords :=
          [ ("toothpaste", days 730 90);
            ("shampoo", days 365 90);
            ("deodorant", days 365 90) ] |});
    ("Baby",
     {| default := days 30 14;
        keywords :=
          [ ("formula", days 30 14);
            ("diapers", days 365 30);
            ("food", days 14 14) ] |});
    ("Pet",
     {| default := days 90 30;
        keywords :=
          [ ("food", days 90 30);
            ("treats", days 180 60);
            ("litter", days 365 30) ] |}) ].

(** Own property of the table with the given key. *)
Fixpoint ownRule (table : list (string * CategoryRules)) (key : string)
  : option CategoryRules :=
  match table with
  | [] => None
  | (k, r) :: rest => if String.eqb k key then Some r else ownRule rest key
  end.

(** Property names every object literal inherits from [Object.prototype];
    each of them is a function or an object, hence truthy, and none of them
    has a [keywords] or a [default] property. *)
Definition objectPrototypeKeys : list string :=
  [ "constructor"; "__defineGetter__"; "__defineSetter__"; "hasOwnProperty";
    "__lookupGetter__"; "__lookupSetter__"; "isPrototypeOf";
    "propertyIsEnumerable"; "toString"; "valueOf"; "__proto__";
    "toLocaleString" ].

Definition inheritedKey (key : string) : bool :=
  existsb (String.eqb key) objectPrototypeKeys.

(** What [HEURISTIC_RULES[category]] evaluates to. *)
Inductive RulesLookup : Type :=
| OwnRules (r : CategoryRules)
| InheritedValue
| Undefined.

Definition lookupRules (category : string) : RulesLookup :=
  match ownRule HEURISTIC_RULES category with
  | Some r => OwnRules r
  | None => if inheritedKey category then InheritedValue else Undefined
  end.

(** [s.toLowerCase()] on ASCII. *)
Definition lowerChar (c : ascii) : ascii :=
  let n := nat_of_ascii c in
  if (65 <=? n)%nat && (n <=? 90)%nat then ascii_of_nat (n + 32) else c.

Fixpoint toLowerCase (s : string) : string :=
  match s with
  | EmptyString => EmptyString
  | String c s' => String (lowerChar c) (toLowerCase s')
  end.

(** [s.includes(kw)] *)
Fixpoint includes (s kw : string) : bool :=
  String.prefix kw s
  || match s with
     | EmptyString => false
     | String _ s' => includes s' kw
     end.

(** The [for ... of Object.entries(keywords)] loop with its early return. *)
Fixpoint firstKeyword (nameLower : string) (entries : list (string * Estimate))
  : option Estimate :=
  match entries with
  | [] => None
  | (keyword, rule) :: rest =>
      if includes nameLower keyword then Some rule
      else firstKeyword nameLower rest
  end.

(** [getHeuristicEstimate(name, category)]; [None] is the value
    [undefined]. *)
Definition getHeuristicEstimate (name category : string) : option Estimate :=
  match lookupRules category with
  | Undefined => Some (days 30 30)
  | InheritedValue => None
  | OwnRules categoryRules =>
      let nameLower := toLowerCase name in
      match firstKeyword nameLower (keywords categoryRules) with
      | Some rule => Some rule
      | None => Some (default categoryRules)
      end
  end.

(** The bounds every pair authored in the rule table stays within: a shelf
    life of 1 to 730 days and a restock horizon of 7 to 180 days. *)
Definition authored (e : Estimate) : bool :=
  match shelf_life e, restock e with
  | JNum s, JNum r => (1 <=? s) && (s <=? 730) && (7 <=? r) && (r <=? 180)
  | _, _ => false
  end.

Definition rulesAuthored (r : CategoryRules) : bool :=
  authored (default r) && forallb (fun kv => authored (snd kv)) (keywords r).

(** What the parsed body of the oracle's answer is. *)
Inductive JsonBody : Type :=
| NotJson
| JsonNullValue
| JsonValue (shelfLifeDays restockDays : jsval).

(** How the one [fetch] of a call ends: the promise is rejected (network
    error, aborted request), or it resolves to a response with its [ok] flag
    and body.  The request only carries [JSON.stringify(input)]; what comes
    back is the environment's, so the outcome is an argument of the call. *)
Inductive FetchOutcome : Type :=
| FetchRejected
| FetchResponse (ok : bool) (body : JsonBody).

(** The [try] block of [getLLMEstimate]. *)
Definition getLLMEstimate_try (net : FetchOutcome) : Promise Estimate :=
  match net with
  | FetchRejected => Rejected TypeError
  | FetchResponse ok body =>
      if negb ok then Rejected (Error "LLM estimation failed")
      else
        match body with
        | NotJson => Rejected SyntaxError
        | JsonNullValue => Rejected TypeError
        | JsonValue shelfLifeDays restockDays =>
            Fulfilled {| shelf_life := shelfLifeDays; restock := restockDays |}
        end
  end.

(** [getLLMEstimate(input)]: the [catch] turns every throw into [null]. *)
Definition getLLMEstimate (net : FetchOutcome) : option Estimate :=
  match getLLMEstimate_try net with
  | Fulfilled estimate => Some estimate
  | Rejected _ => None
  end.

Section Service.

Variable LocalTZA : Z.
Variable Date_parse : string -> jsnum.

(** [new Date(s)]: the parsed time value, which is NaN outside the range of
    time values. *)
Definition Date_of_string (s : string) : jsnum :=
  match Date_parse s with
  | Some t => TimeClip t
  | None => None
  end.

(** [const d = new Date(purchaseDate); d.setDate(d.getDate() + n)] *)
Definition plusDays (purchaseDate : jsnum) (n : jsval) : jsnum :=
  setDate LocalTZA purchaseDate (js_add (getDate LocalTZA purchaseDate) n).

(** The estimate the orchestrator goes on with, and its provenance. *)
Definition acceptedEstimate (net : FetchOutcome) (input : EstimateDatesInput)
  : option Estimate * string :=
  match getLLMEstimate net with
  | Some estimate => (Some estimate, "llm")
  | None => (getHeuristicEstimate (name input) (category input), "heuristic")
  end.

(** [expirationDate] after the 365-day cap. *)
Definition cappedExpiration (purchaseDate : jsnum) (estimate : Estimate) : jsnum :=
  let expirationDate := plusDays purchaseDate (shelf_life estimate) in
  let maxExpirationDate := plusDays purchaseDate (JNum 365) in
  if js_gt expirationDate maxExpirationDate then maxExpirationDate
  else expirationDate.

(** The date whose ISO string becomes [estimatedRestockAt]. *)
Definition reportedRestock (expirationDate restockDate : jsnum) : jsnum :=
  if js_strict_eq (Math_min expirationDate restockDate) restockDate
  then restockDate
  else expirationDate.

Definition isoDate (d : jsnum) : Promise string :=
  iso <- toISOString d ;; Fulfilled (split_head "T" iso).

Definition estimateDates (net : FetchOutcome) (input : EstimateDatesInput)
  : Promise EstimateDatesOutput :=
  let purchaseDate := Date_of_string (purchasedAt input) in
  let '(estimate, source) := acceptedEstimate net input in
  match estimate with
  | None => Rejected TypeError
  | Some estimate =>
      let expirationDate := cappedExpiration purchaseDate estimate in
      let restockDate := plusDays purchaseDate (restock estimate) in
      expirationAt <- isoDate expirationDate ;;
      restockAt <- isoDate (reportedRestock expirationDate restockDate) ;;
      Fulfilled {| estimatedExpirationAt := expirationAt;
                   estimatedRestockAt := restockAt;
                   source := source |}
  end.

End Service.

(** ** The service in a zone with offset transitions *)

(** The definitions above read the host zone as one fixed offset.  The
    module below follows ECMA-262 in full: the offset is a function
    [LocalTZA(t, isUTC)] of the instant (or of the local time) it is asked
    for, so that daylight-saving transitions are covered.  For a function
    that is constant, the two embeddings are the same function
    ([constant_zone] below). *)

Module Zoned.

Section Zone.

(** [LocalTZA t true] is the offset in effect at the instant [t];
    [LocalTZA t false] is the offset the host uses to read the local time
    [t], also where a transition skips or repeats that local time. *)
Variable LocalTZA : Z -> bool -> Z.

Definition LocalTime (t : Z) : Z := t + LocalTZA t true.
Definition UTC (t : Z) : Z := t - LocalTZA t false.

(** [d.getDate()] *)
Definition getDate (d : jsnum) : jsnum :=
  match d with
  | None => None
  | Some t => Some (DateFromTime (LocalTime t))
  end.

(** [d.setDate(date)]: the new time value of [d]. *)
Definition setDate (d : jsnum) (date : jsnum) : jsnum :=
  match d with
  | None => None
  | Some t0 =>
      match date with
      | None => None
      | Some dt =>
          let t := LocalTime t0 in
          let newDate :=
            MakeDate (MakeDay (YearFromTime t) (MonthFromTime t) dt)
                     (TimeWithinDay t) in
          TimeClip (UTC newDate)
      end
  end.

Variable Date_parse : string -> jsnum.

(** [const d = new Date(purchaseDate); d.setDate(d.getDate() + n)] *)
Definition plusDays (purchaseDate : jsnum) (n : jsval) : jsnum :=
  setDate purchaseDate (js_add (getDate purchaseDate) n).

(** [expirationDate] after the 365-day cap. *)
Definition cappedExpiration (purchaseDate : jsnum) (estimate : Estimate) : jsnum :=
  let expirationDate := plusDays purchaseDate (shelf_life estimate) in
  let maxExpirationDate := plusDays purchaseDate (JNum 365) in
  if js_gt expirationDate maxExpirationDate then maxExpirationDate
  else expirationDate.

Definition estimateDates (net : FetchOutcome) (input : EstimateDatesInput)
  : Promise EstimateDatesOutput :=
  let purchaseDate := Date_of_string Date_parse (purchasedAt input) in
  let '(estimate, source) := acceptedEstimate net input in
  match estimate with
  | None => Rejected TypeError
  | Some estimate =>
      let expirationDate := cappedExpiration purchaseDate estimate in
      let restockDate := plusDays purchaseDate (restock estimate) in
      expirationAt <- isoDate expirationDate ;;
      restockAt <- isoDate (reportedRestock expirationDate restockDate) ;;
      Fulfilled {| estimatedExpirationAt := expirationAt;
                   estimatedRestockAt := restockAt;
                   source := source |}
  end.

(** The instant at which the local clock shows, [n] calendar days after the
    local day of [t], the time of day it shows at [t]. *)
Definition daysLater (t n : Z) : Z := UTC (LocalTime t + n * msPerDay).

(** Any two offsets of the zone differ by less than a day: the zone never
    moved across the date line. *)
Definition steady : Prop :=
  forall t u a b, Z.abs (LocalTZA t a - LocalTZA u b) < msPerDay.

End Zone.

(** Sample zone: the offsets of America/New_York in 2024 and 2025, UTC-4
    from the second Sunday of March at 2:00 local time to the first Sunday
    of November at 2:00 local time and UTC-5 otherwise.  A local time that
    a transition skips or repeats is read with the offset in effect before
    the transition. *)
Definition usEastern (t : Z) (isUTC : bool) : Z :=
  let summer :=
    if isUTC
    then ((1710054000000 <=? t) && (t <? 1730613600000))
         || ((1741503600000 <=? t) && (t <? 1762063200000))
    else ((1710039600000 <=? t) && (t <? 1730599200000))
         || ((1741489200000 <=? t) && (t <? 1762048800000)) in
  if summer then -14400000 else -18000000.

(** Sample parser: the date-only ISO form and, from the date-time ISO form
    with a zone designator, the one string the examples use. *)
Definition sampleParse (s : string) : jsnum :=
  if String.eqb s "2024-11-02T23:30:00.000Z" then Some 1730590200000
  else Date_parse_iso s.

End Zoned.


(** ** Synchronous code that may throw *)

Inductive Completion (A : Type) : Type :=
| Normal (a : A)
| Throw (e : JsError).
Arguments Normal {A} a.
Arguments Throw {A} e.

(** The promise of an [async] function whose body completes this way. *)
Definition async {A : Type} (c : Completion A) : Promise A :=
  match c with
  | Normal a => Fulfilled a
  | Throw e => Rejected e
  end.

(** ** The service as it runs: objects, references and mutation *)

(** The service works on objects: [Date] objects, whose time value
    [setDate] and [setTime] overwrite in place, and the
    [{ shelf_life, restock }] pairs of the rule table, which
    [getHeuristicEstimate] hands out by reference, not by copy.  This module
    embeds the same functions over a heap, so that what a call does to the
    objects that existed before it is part of its outcome. *)

Module Stateful.

Inductive Obj : Type :=
| DateObj (tv : jsnum)
| PairObj (estimate : Estimate).

Definition Ref : Type := nat.

(** The heap: the objects in order of creation, addressed by position. *)
Definition Heap : Type := list Obj.

(** A computation: how it completes, and the heap it leaves. *)
Definition Js (A : Type) : Type := Heap -> Completion A * Heap.

Definition ret {A : Type} (a : A) : Js A := fun h => (Normal a, h).

Definition raise {A : Type} (e : JsError) : Js A := fun h => (Throw e, h).

Definition bind {A B : Type} (m : Js A) (k : A -> Js B) : Js B :=
  fun h =>
    match m h with
    | (Normal a, h') => k a h'
    | (Throw e, h') => (Throw e, h')
    end.

Notation "x <-- m ;; k" := (bind m (fun x => k))
  (at level 61, m at next level, right associativity).

(** Creating an object. *)
Definition alloc (o : Obj) : Js Ref :=
  fun h => (Normal (List.length h), (h ++ [o])%list).

(** The heap with the object at address [a] replaced. *)
Fixpoint overwrite (a : Ref) (o : Obj) (h : Heap) : Heap :=
  match h, a with
  | [], _ => []
  | _ :: rest, O => o :: rest
  | x :: rest, S a' => x :: overwrite a' o rest
  end.

(** The time value of the Date object [d]; a method of [Date.prototype]
    called on anything else throws a TypeError. *)
Definition thisTimeValue (d : Ref) : Js jsnum :=
  fun h =>
    match nth_error h d with
    | Some (DateObj tv) => (Normal tv, h)
    | _ => (Throw TypeError, h)
    end.

Definition setDateValue (d : Ref) (tv : jsnum) : Js unit :=
  fun h => (Normal tt, overwrite d (DateObj tv) h).

(** Reading the properties of [estimate]; of [undefined] there is nothing
    to read, and the attempt throws a TypeError. *)
Definition readPair (estimate : option Ref) : Js Estimate :=
  match estimate with
  | None => raise TypeError
  | Some a =>
      fun h =>
        match nth_error h a with
        | Some (PairObj estimate) => (Normal estimate, h)
        | _ => (Throw TypeError, h)
        end
  end.

(** *** The rule table as an object graph *)

Record CategoryRefs : Type := {
  defaultRef : Ref;
  keywordRefs : list (string * Ref)
}.

Definition RuleTable : Type := list (string * CategoryRefs).

(** Evaluating the object literal of [HEURISTIC_RULES] when the module is
    loaded creates every pair once, in the order of the source text. *)
Fixpoint newKeywords (entries : list (string * Estimate))
  : Js (list (string * Ref)) :=
  match entries with
  | [] => ret []
  | (keyword, rule) :: rest =>
      a <-- alloc (PairObj rule) ;;
      refs <-- newKeywords rest ;;
      ret ((keyword, a) :: refs)
  end.

Fixpoint newRules (table : list (string * CategoryRules)) : Js RuleTable :=
  match table with
  | [] => ret []
  | (category, rules) :: rest =>
      d <-- alloc (PairObj (default rules)) ;;
      kws <-- newKeywords (keywords rules) ;;
      more <-- newRules rest ;;
      ret ((category, {| defaultRef := d; keywordRefs := kws |}) :: more)
  end.

(** The heap and the table once the module is loaded. *)
Definition moduleHeap : Heap := snd (newRules HEURISTIC_RULES []).

Definition moduleRules : RuleTable :=
  match fst (newRules HEURISTIC_RULES []) with
  | Normal table => table
  | Throw _ => []
  end.

(** Reading the table back from a heap: the pair at an address, and the
    rules whose pairs stand at the addresses of [refs]. *)
Definition pairAt (h : Heap) (a : Ref) : option Estimate :=
  match nth_error h a with
  | Some (PairObj estimate) => Some estimate
  | _ => None
  end.

Fixpoint keywordsAt (h : Heap) (entries : list (string * Ref))
  : option (list (string * Estimate)) :=
  match entries with
  | [] => Some []
  | (keyword, a) :: rest =>
      match pairAt h a, keywordsAt h rest with
      | Some rule, Some rules => Some ((keyword, rule) :: rules)
      | _, _ => None
      end
  end.

Definition rulesAt (h : Heap) (refs : CategoryRefs) : option CategoryRules :=
  match pairAt h (defaultRef refs), keywordsAt h (keywordRefs refs) with
  | Some d, Some kws => Some {| default := d; keywords := kws |}
  | _, _ => None
  end.

Fixpoint ownRefs (table : RuleTable) (key : string) : option CategoryRefs :=
  match table with
  | [] => None
  | (k, r) :: rest => if String.eqb k key then Some r else ownRefs rest key
  end.

(** The loop over [Object.entries(categoryRules.keywords)], returning the
    rule object itself. *)
Fixpoint firstKeywordRef (nameLower : string) (entries : list (string * Ref))
  : option Ref :=
  match entries with
  | [] => None
  | (keyword, rule) :: rest =>
      if includes nameLower keyword then Some rule
      else firstKeywordRef nameLower rest
  end.

(** [getHeuristicEstimate(name, category)]: a reference to a pair of the
    table, a reference to a new pair for the fallback, or [undefined]. *)
Definition getHeuristicEstimate (rules : RuleTable) (name category : string)
  : Js (option Ref) :=
  match ownRefs rules category with
  | None =>
      if inheritedKey category then ret None
      else a <-- alloc (PairObj (days 30 30)) ;; ret (Some a)
  | Some categoryRules =>
      let nameLower := toLowerCase name in
      match firstKeywordRef nameLower (keywordRefs categoryRules) with
      | Some rule => ret (Some rule)
      | None => ret (Some (defaultRef categoryRules))
      end
  end.

(** [getLLMEstimate(input)]: a new pair built from the answer, or [null]. *)
Definition getLLMEstimate (net : FetchOutcome) : Js (option Ref) :=
  match getLLMEstimate_try net with
  | Fulfilled estimate => a <-- alloc (PairObj estimate) ;; ret (Some a)
  | Rejected _ => ret None
  end.

Section Service.

Variable LocalTZA : Z -> bool -> Z.
Variable Date_parse : string -> jsnum.

(** [new Date(s)] for a string and [new Date(d)] for a Date object. *)
Definition Date_of (s : string) : Js Ref :=
  alloc (DateObj (Date_of_string Date_parse s)).

Definition Date_copy (d : Ref) : Js Ref :=
  tv <-- thisTimeValue d ;; alloc (DateObj tv).

Definition getDate (d : Ref) : Js jsnum :=
  tv <-- thisTimeValue d ;; ret (Zoned.getDate LocalTZA tv).

Definition setDate (d : Ref) (date : jsnum) : Js unit :=
  tv <-- thisTimeValue d ;; setDateValue d (Zoned.setDate LocalTZA tv date).

Definition getTime (d : Ref) : Js jsnum := thisTimeValue d.

Definition setTime (d : Ref) (time : jsnum) : Js unit :=
  _ <-- thisTimeValue d ;;
  setDateValue d (match time with
                  | Some t => TimeClip t
                  | None => None
                  end).

Definition toISOString (d : Ref) : Js string :=
  tv <-- thisTimeValue d ;;
  match JsDate.toISOString tv with
  | Fulfilled iso => ret iso
  | Rejected e => raise e
  end.

(** The body of [estimateDates] from "Calculate dates" on. *)
Definition calculateDates (purchaseDate : Ref) (estimate : option Ref)
           (source : string) : Js EstimateDatesOutput :=
  expirationDate <-- Date_copy purchaseDate ;;
  d <-- getDate expirationDate ;;
  rule <-- readPair estimate ;;
  _ <-- setDate expirationDate (js_add d (shelf_life rule)) ;;
  restockDate <-- Date_copy purchaseDate ;;
  d <-- getDate restockDate ;;
  rule <-- readPair estimate ;;
  _ <-- setDate restockDate (js_add d (restock rule)) ;;
  maxExpirationDate <-- Date_copy purchaseDate ;;
  d <-- getDate maxExpirationDate ;;
  _ <-- setDate maxExpirationDate (js_add d (JNum 365)) ;;
  e <-- thisTimeValue expirationDate ;;
  m <-- thisTimeValue maxExpirationDate ;;
  _ <-- (if js_gt e m
         then v <-- getTime maxExpirationDate ;; setTime expirationDate v
         else ret tt) ;;
  iso <-- toISOString expirationDate ;;
  e <-- getTime expirationDate ;;
  r <-- getTime restockDate ;;
  r' <-- getTime restockDate ;;
  iso' <-- (if js_strict_eq (Math_min e r) r'
            then toISOString restockDate
            else toISOString expirationDate) ;;
  ret {| estimatedExpirationAt := split_head "T" iso;
         estimatedRestockAt := split_head "T" iso';
         source := source |}.

Definition estimateDates (rules : RuleTable) (net : FetchOutcome)
           (input : EstimateDatesInput) : Js EstimateDatesOutput :=
  purchaseDate <-- Date_of (purchasedAt input) ;;
  llm <-- getLLMEstimate net ;;
  match llm with
  | Some estimate => calculateDates purchaseDate (Some estimate) "llm"
  | None =>
      estimate <-- getHeuristicEstimate rules (name input) (category input) ;;
      calculateDates purchaseDate estimate "heuristic"
  end.

End Service.

End Stateful.

(** ** The deal search page ([src/pages/DealSearch.tsx], first part) *)

(** An error value as the handlers read it: only [err.message] is looked
    at, and it may be missing. *)
Record JsThrown : Type := { message : option string }.

(** [err.message || fallback] *)
Definition messageOr (err : JsThrown) (fallback : string) : string :=
  match message err with
  | Some m => if String.eqb m "" then fallback else m
  | None => fallback
  end.

(** The form fields are followed as far as they hold ASCII characters.
    [String.prototype.trim] and [parseInt] also skip the white space outside
    ASCII (U+00A0, U+FEFF and others), which [isWhiteSpace] below does not
    cover; what is stated about [trim] and [parseInt10] is stated for
    strings that satisfy [isAscii]. *)
Definition isAscii (s : string) : bool :=
  forallb (fun c => (nat_of_ascii c <? 128)%nat) (list_ascii_of_string s).

(** White space within ASCII: TAB, LF, VT, FF, CR and SP. *)
Definition isWhiteSpace (c : ascii) : bool :=
  let n := nat_of_ascii c in
  ((9 <=? n)%nat && (n <=? 13)%nat) || (n =? 32)%nat.

Definition isDigit (c : ascii) : bool :=
  let n := nat_of_ascii c in
  (48 <=? n)%nat && (n <=? 57)%nat.

Fixpoint trimStart (s : string) : string :=
  match s with
  | EmptyString => EmptyString
  | String c s' => if isWhiteSpace c then trimStart s' else s
  end.

Fixpoint trimEnd (s : string) : string :=
  match s with
  | EmptyString => EmptyString
  | String c s' =>
      match trimEnd s' with
      | EmptyString => if isWhiteSpace c then EmptyString else String c EmptyString
      | r => String c r
      end
  end.

(** [s.trim()] *)
Definition trim (s : string) : string := trimEnd (trimStart s).

(** The leading decimal digits of [s], read as a number in front of which
    [acc] already stands; [None] when [s] does not start with a digit and
    nothing was read before ([seen = false]). *)
Fixpoint leadingDigits (s : string) (seen : bool) (acc : Z) : option Z :=
  match s with
  | EmptyString => if seen then Some acc else None
  | String c s' =>
      if isDigit c
      then leadingDigits s' true (10 * acc + (Z.of_nat (nat_of_ascii c) - 48))
      else if seen then Some acc else None
  end.

(** 2^53: up to it, every integer is a double. *)
Definition maxExactInteger : Z := 9007199254740992.

(** [parseInt(s, 10)]: leading white space, an optional sign, then the
    longest run of digits; NaN when there is no digit.  The result is the
    integer the digits denote; the engine returns the nearest double, which
    is that integer up to [maxExactInteger]. *)
Definition parseInt10 (s : string) : jsnum :=
  match trimStart s with
  | String "-" rest =>
      match leadingDigits rest false 0 with
      | Some n => Some (- n)
      | None => None
      end
  | String "+" rest => leadingDigits rest false 0
  | rest => leadingDigits rest false 0
  end.

(** [s] is empty or starts with a character that is not a digit. *)
Definition startsWithoutDigit (s : string) : Prop :=
  match s with
  | EmptyString => True
  | String c _ => isDigit c = false
  end.

(** [/^\d{5}$/.test(s)] *)
Definition isFiveDigitZip (s : string) : bool :=
  match list_ascii_of_string s with
  | [a; b; c; d; e] => isDigit a && isDigit b && isDigit c && isDigit d && isDigit e
  | _ => false
  end.

Module DealSearchPage.

Section Page.

(** JavaScript numbers that the page carries along without computing on
    them on the paths followed here ([id], [product_price], [distance_m]). *)
Variable JsNumber : Type.

(** [Math.round(radiusNum * 1609.34)], computed in double arithmetic by the
    engine; the page only passes the value on. *)
Variable milesToMeters : Z -> Z.

Record DealResult : Type := {
  id : JsNumber;
  product_name : string;
  product_price : JsNumber;
  retailer : string;
  zip_code : string;
  distance_m : option JsNumber
}.

(** A [Map<string, DealResult>]: the entries in insertion order. *)
Definition RetailerMap : Type := list (string * DealResult).

Definition Map_has (m : RetailerMap) (key : string) : bool :=
  existsb (fun kv => String.eqb (fst kv) key) m.

(** [m.set(key, value)]: a present key keeps its place, a new one goes to
    the end. *)
Fixpoint Map_set (m : RetailerMap) (key : string) (value : DealResult)
  : RetailerMap :=
  match m with
  | [] => [(key, value)]
  | (k, v) :: rest =>
      if String.eqb k key then (k, value) :: rest
      else (k, v) :: Map_set rest key value
  end.

(** [Array.from(m.values())] *)
Definition Map_values (m : RetailerMap) : list DealResult := map snd m.

(** The [for ... of data] loop of [processResults]. *)
Definition closestByRetailer (data : list DealResult) : RetailerMap :=
  fold_left
    (fun m deal =>
       if negb (Map_has m (retailer deal)) then Map_set m (retailer deal) deal
       else m)
    data [].

(** The React state of the page. *)
Record PageState : Type := {
  searchTerm : string;
  zipcode : string;
  radius : string;
  results : list DealResult;
  loading : bool;
  error : option string
}.

Definition setResults (v : list DealResult) (st : PageState) : PageState :=
  {| searchTerm := searchTerm st; zipcode := zipcode st; radius := radius st;
     results := v; loading := loading st; error := error st |}.

Definition setLoading (v : bool) (st : PageState) : PageState :=
  {| searchTerm := searchTerm st; zipcode := zipcode st; radius := radius st;
     results := results st; loading := v; error := error st |}.

Definition setError (v : option string) (st : PageState) : PageState :=
  {| searchTerm := searchTerm st; zipcode := zipcode st; radius := radius st;
     results := results st; loading := loading st; error := v |}.

Definition processResults (data : list DealResult) (st : PageState) : PageState :=
  setResults (Map_values (closestByRetailer data)) st.

(** Whether [key] is among the retailers seen so far. *)
Definition seenRetailer (seen : list string) (key : string) : bool :=
  existsb (fun k => String.eqb k key) seen.

(** The deals of [data] whose retailer is neither in [seen] nor the
    retailer of an earlier deal of [data]: what the loop of
    [processResults] adds to a map whose keys are [seen]. *)
Fixpoint firstPerRetailer (seen : list string) (data : list DealResult)
  : list DealResult :=
  match data with
  | [] => []
  | deal :: rest =>
      if seenRetailer seen (retailer deal) then firstPerRetailer seen rest
      else deal :: firstPerRetailer (seen ++ [retailer deal]) rest
  end.

(** The two remote procedures and their arguments. *)
Inductive RpcCall : Type :=
| find_deals_in_zip (user_zip q : string) (max_rows : Z)
| find_deals_near_zip (user_zip q : string) (radius_meters max_rows : Z).

(** How an [await supabase.rpc(...)] ends: it throws, or it yields
    [{ data, error }]. *)
Inductive RpcOutcome : Type :=
| RpcThrows (err : JsThrown)
| RpcReturns (data : option (list DealResult)) (error : option JsThrown).

(** The [catch] and [finally] blocks of [handleSearch]. *)
Definition searchFailed (err : JsThrown) (st : PageState) : PageState :=
  setLoading false (setError (Some (messageOr err "Failed to fetch deals.")) st).

(** [handleSearch]: the state after the handler has run to its end, and the
    remote calls it made, in order. *)
Definition handleSearch (rpc : RpcCall -> RpcOutcome) (st0 : PageState)
  : PageState * list RpcCall :=
  let st := setResults [] (setError None (setLoading true st0)) in
  let radiusNum := parseInt10 (radius st0) in
  if String.eqb (trim (searchTerm st0)) "" then
    (setLoading false (setError (Some "Please enter an item name.") st), [])
  else if negb (isFiveDigitZip (zipcode st0)) then
    (setLoading false
       (setError (Some "Please enter a valid 5-digit zip code.") st), [])
  else
    match radiusNum with
    | None =>
        (setLoading false
           (setError (Some "Please enter a search radius greater than 0.") st),
         [])
    | Some radiusNum =>
        if radiusNum <=? 0 then
          (setLoading false
             (setError (Some "Please enter a search radius greater than 0.") st),
           [])
        else
          let call1 := find_deals_in_zip (zipcode st0) (searchTerm st0) 100 in
          match rpc call1 with
          | RpcThrows err => (searchFailed err st, [call1])
          | RpcReturns _ (Some e1) => (searchFailed e1 st, [call1])
          | RpcReturns exact None =>
              match exact with
              | Some (deal :: more) =>
                  (setLoading false
                     (setLoading false (processResults (deal :: more) st)),
                   [call1])
              | _ =>
                  let meters := milesToMeters radiusNum in
                  let call2 :=
                    find_deals_near_zip (zipcode st0) (searchTerm st0)
                                        meters 100 in
                  match rpc call2 with
                  | RpcThrows err => (searchFailed err st, [call1; call2])
                  | RpcReturns _ (Some e2) =>
                      (searchFailed e2 st, [call1; call2])
                  | RpcReturns near None =>
                      match near with
                      | Some (deal :: more) =>
                          (setLoading false (processResults (deal :: more) st),
                           [call1; call2])
                      | _ => (setLoading false (setResults [] st),
                              [call1; call2])
                      end
                  end
              end
          end
    end.

End Page.

Arguments id {JsNumber} _.
Arguments product_name {JsNumber} _.
Arguments product_price {JsNumber} _.
Arguments retailer {JsNumber} _.
Arguments zip_code {JsNumber} _.
Arguments distance_m {JsNumber} _.
Arguments Map_has {JsNumber} m key.
Arguments Map_set {JsNumber} m key value.
Arguments Map_values {JsNumber} m.
Arguments closestByRetailer {JsNumber} data.
Arguments firstPerRetailer {JsNumber} seen data.
Arguments searchTerm {JsNumber} _.
Arguments zipcode {JsNumber} _.
Arguments radius {JsNumber} _.
Arguments results {JsNumber} _.
Arguments loading {JsNumber} _.
Arguments error {JsNumber} _.
Arguments setResults {JsNumber} v st.
Arguments setLoading {JsNumber} v st.
Arguments setError {JsNumber} v st.
Arguments processResults {JsNumber} data st.
Arguments RpcThrows {JsNumber} err.
Arguments RpcReturns {JsNumber} data error.
Arguments searchFailed {JsNumber} err st.
Arguments handleSearch {JsNumber} milesToMeters rpc st0.

(** Sample data for the examples below. *)
Definition sampleMeters (miles : Z) : Z := (miles * 160934 + 50) / 100.

Definition sampleRpc (call : RpcCall) : RpcOutcome Z :=
  match call with
  | find_deals_in_zip _ _ _ => RpcReturns (Some []) None
  | find_deals_near_zip _ _ _ _ =>
      RpcReturns
        (Some [ {| id := 1; product_name := "milk"; product_price := 1;
                   retailer := "Kroger"; zip_code := "22902";
                   distance_m := Some 3200 |};
                {| id := 2; product_name := "milk"; product_price := 2;
                   retailer := "Kroger"; zip_code := "22911";
                   distance_m := Some 6100 |} ])
        None
  end.

Definition sampleDeal (n : Z) (store : string) : DealResult Z :=
  {| id := n; product_name := "milk"; product_price := n;
     retailer := store; zip_code := "22903"; distance_m := None |}.

Definition sampleState : PageState Z :=
  {| searchTerm := "milk"; zipcode := "22903"; radius := "10";
     results := []; loading := false; error := None |}.

End DealSearchPage.

(** [a <= b] on Numbers: false as soon as one side is NaN. *)
Definition js_le (a b : jsnum) : bool :=
  match a, b with
  | Some x, Some y => x <=? y
  | _, _ => false
  end.

(** ** The home page ([src/pages/Home.tsx]) *)

Module HomePage.

Record Item : Type := {
  id : string;
  name : string;
  category : string;
  purchased_at : string;
  estimated_expiration_at : option string;
  estimated_restock_at : option string;
  store_name : option string
}.

Definition CATEGORIES : list string :=
  [ "All"; "Produce"; "Dairy"; "Meat"; "Pantry"; "Frozen"; "Beverages";
    "Household"; "Personal Care"; "Baby"; "Pet" ].

(** [items.filter(item => matchesSearch && matchesCategory)] *)
Definition filteredItems (items : list Item) (searchTerm selectedCategory : string)
  : list Item :=
  filter
    (fun item =>
       let matchesSearch :=
         includes (toLowerCase (name item)) (toLowerCase searchTerm) in
       let matchesCategory :=
         String.eqb selectedCategory "All"
         || String.eqb (category item) selectedCategory in
       matchesSearch && matchesCategory)
    items.

(** The accumulator of the [reduce]: the own properties of the object that
    started as [{}], in the order they were created. *)
Definition Groups : Type := list (string * list Item).

Fixpoint ownGroup (groups : Groups) (key : string) : option (list Item) :=
  match groups with
  | [] => None
  | (k, g) :: rest => if String.eqb k key then Some g else ownGroup rest key
  end.

(** [groups[key].push(item)] for an own property [key]. *)
Fixpoint pushGroup (groups : Groups) (key : string) (item : Item) : Groups :=
  match groups with
  | [] => []
  | (k, g) :: rest =>
      if String.eqb k key then (k, (g ++ [item])%list) :: rest
      else (k, g) :: pushGroup rest key item
  end.

(** One step of the [reduce].  A category that names a property inherited
    from [Object.prototype] reads as a truthy value without a [push]
    method, so the call [groups[category].push(item)] throws. *)
Definition groupInto (groups : Groups) (item : Item) : Completion Groups :=
  let category := category item in
  match ownGroup groups category with
  | Some _ => Normal (pushGroup groups category item)
  | None =>
      if inheritedKey category then Throw TypeError
      else Normal (groups ++ [(category, [item])])%list
  end.

Fixpoint reduceGroups (items : list Item) (groups : Groups) : Completion Groups :=
  match items with
  | [] => Normal groups
  | item :: rest =>
      match groupInto groups item with
      | Normal groups' => reduceGroups rest groups'
      | Throw e => Throw e
      end
  end.

(** A group after more items went in: [before] is the group as it was
    (if any) and [added] the new items of its category. *)
Definition joined (before : option (list Item)) (added : list Item)
  : option (list Item) :=
  match before, added with
  | None, [] => None
  | None, _ => Some added
  | Some g, _ => Some (g ++ added)%list
  end.

(** [filteredItems.reduce(..., {})] *)
Definition groupedItems (filtered : list Item) : Completion Groups :=
  reduceGroups filtered [].

(** The red dot of an item: [item.estimated_expiration_at &&
    new Date(item.estimated_expiration_at) <= new Date(Date.now() + 3 days)]. *)
Definition expiringSoon (Date_parse : string -> jsnum) (now : Z) (item : Item)
  : bool :=
  match estimated_expiration_at item with
  | None => false
  | Some s =>
      if String.eqb s "" then false
      else js_le (Date_of_string Date_parse s)
                 (TimeClip (now + 3 * 24 * 60 * 60 * 1000))
  end.

(** Sample data for the examples below. *)
Definition sampleItem (key name category : string) (expires : option string)
  : Item :=
  {| id := key; name := name; category := category;
     purchased_at := "2024-06-18"; estimated_expiration_at := expires;
     estimated_restock_at := expires; store_name := None |}.

Definition samplePantry : list Item :=
  [ sampleItem "1" "Whole Milk" "Dairy" (Some "2024-06-21");
    sampleItem "2" "Brown Rice" "Pantry" (Some "2025-06-18");
    sampleItem "3" "Greek Yogurt" "Dairy" (Some "2024-07-02") ].

End HomePage.

(** ** The receipt scanning function ([supabase/functions/scan-receipt]) *)

Module ScanReceiptFunction.

Record ReceiptItem : Type := {
  name : string;
  category : string;
  price : option string;
  quantity : option string
}.

Definition corsHeaders : list (string * string) :=
  [ ("Access-Control-Allow-Origin", "*");
    ("Access-Control-Allow-Headers",
     "authorization, x-client-info, apikey, content-type");
    ("Access-Control-Allow-Methods", "POST, OPTIONS") ].

(** The value handed to [JSON.stringify] for the body, or no body. *)
Inductive ResponseBody : Type :=
| NoBody
| ErrorBody (error : string)
| ItemsBody (items : list ReceiptItem).

Record Response : Type := {
  body : ResponseBody;
  status : Z;
  headers : list (string * string)
}.

(** What [const { image } = await req.json()] does: it throws (the body is
    not JSON, or it is JSON [null]), with an [Error] carrying a message or
    with some other value, or it binds [image], which is [undefined] when
    the field is missing. *)
Inductive RequestBody : Type :=
| BodyThrows (thrown : option string)
| BodyImage (image : option string).

Definition jsonHeaders : list (string * string) :=
  (corsHeaders ++ [("Content-Type", "application/json")])%list.

Definition mockItems : list ReceiptItem :=
  [ {| name := "Organic Bananas"; category := "Produce";
       price := Some "2.99"; quantity := Some "1 lb" |};
    {| name := "Whole Milk"; category := "Dairy";
       price := Some "3.49"; quantity := Some "1 gal" |};
    {| name := "Chicken Breast"; category := "Meat";
       price := Some "8.99"; quantity := Some "2 lb" |};
    {| name := "Brown Rice"; category := "Pantry";
       price := Some "4.49"; quantity := Some "2 lb" |} ].

Definition simpleMock : list ReceiptItem :=
  [ {| name := "Apples"; category := "Produce";
       price := Some "3.29"; quantity := Some "3 lb" |};
    {| name := "Greek Yogurt"; category := "Dairy";
       price := Some "5.49"; quantity := Some "32 oz" |};
    {| name := "Ground Turkey"; category := "Meat";
       price := Some "6.99"; quantity := Some "1 lb" |} ].

(** [!s] for a string that may be [undefined]. *)
Definition falsy (s : option string) : bool :=
  match s with
  | None => true
  | Some v => String.eqb v ""
  end.

(** The request handler given to [serve]. *)
Definition serve (method : string) (request : RequestBody)
           (OPENAI_API_KEY : option string) : Response :=
  if String.eqb method "OPTIONS" then
    {| body := NoBody; status := 200; headers := corsHeaders |}
  else if negb (String.eqb method "POST") then
    {| body := ErrorBody "Method not allowed"; status := 405;
       headers := jsonHeaders |}
  else
    match request with
    | BodyThrows thrown =>
        {| body := ErrorBody (match thrown with
                              | Some m => m
                              | None => "Unknown error"
                              end);
           status := 500; headers := jsonHeaders |}
    | BodyImage image =>
        if falsy image then
          {| body := ErrorBody "Missing image"; status := 400;
             headers := jsonHeaders |}
        else if falsy OPENAI_API_KEY then
          {| body := ItemsBody mockItems; status := 200;
             headers := jsonHeaders |}
        else
          {| body := ItemsBody simpleMock; status := 200;
             headers := jsonHeaders |}
    end.

End ScanReceiptFunction.

(** ** The receipt scanning page ([ScanReceipt]) *)

Module ScanReceiptPage.

Record ReceiptItem : Type := {
  name : string;
  category : string;
  price : option string;
  quantity : option string;
  confirmed : bool
}.

Record Toast : Type := {
  title : string;
  description : string;
  variant : option string
}.

Record ScanState : Type := {
  image : option string;
  isProcessing : bool;
  extractedItems : list ReceiptItem;
  isConfirming : bool
}.

Definition setIsProcessing (v : bool) (st : ScanState) : ScanState :=
  {| image := image st; isProcessing := v;
     extractedItems := extractedItems st; isConfirming := isConfirming st |}.

Definition setExtractedItems (v : list ReceiptItem) (st : ScanState) : ScanState :=
  {| image := image st; isProcessing := isProcessing st;
     extractedItems := v; isConfirming := isConfirming st |}.

Definition setIsConfirming (v : bool) (st : ScanState) : ScanState :=
  {| image := image st; isProcessing := isProcessing st;
     extractedItems := extractedItems st; isConfirming := v |}.

Definition setImage (v : option string) (st : ScanState) : ScanState :=
  {| image := v; isProcessing := isProcessing st;
     extractedItems := extractedItems st; isConfirming := isConfirming st |}.

(** [String(n)] for a length. *)
Definition lengthString (n : nat) : string :=
  NilZero.string_of_uint (Nat.to_uint n).

(** How [await supabase.functions.invoke('scan-receipt', ...)] ends: it
    throws an [Error] with a message or some other value, or it yields
    [{ data, error }], where [data] may be null and [data.items] missing. *)
Inductive InvokeOutcome : Type :=
| InvokeThrows (thrown : option string)
| InvokeReturns (data : option (option (list ScanReceiptFunction.ReceiptItem)))
                (error : option JsThrown).

(** The [catch] and [finally] blocks of [processReceiptImage]; [thrown] is
    the message of the caught [Error], or [None] for another value. *)
Definition scanFailed (thrown : option string) (st : ScanState)
  : ScanState * list Toast :=
  (setIsProcessing false st,
   [ {| title := "Scanning failed";
        description :=
          match thrown with
          | Some m => m
          | None => "Could not process the receipt. Please try again."
          end;
        variant := Some "destructive" |} ]).

Definition processReceiptImage (invoke : InvokeOutcome) (st0 : ScanState)
  : ScanState * list Toast :=
  let st := setIsProcessing true st0 in
  match invoke with
  | InvokeThrows thrown => scanFailed thrown st
  | InvokeReturns _ (Some error) =>
      scanFailed (Some (messageOr error "Failed to scan receipt")) st
  | InvokeReturns None None => scanFailed (Some "No items found in the receipt") st
  | InvokeReturns (Some None) None =>
      scanFailed (Some "No items found in the receipt") st
  | InvokeReturns (Some (Some dataItems)) None =>
      let items :=
        map (fun item =>
               {| name := ScanReceiptFunction.name item;
                  category := ScanReceiptFunction.category item;
                  price := ScanReceiptFunction.price item;
                  quantity := ScanReceiptFunction.quantity item;
                  confirmed := true |})
            dataItems in
      (setIsProcessing false (setIsConfirming true (setExtractedItems items st)),
       [ {| title := "Receipt scanned!";
            description :=
              "Found " ++ lengthString (length items)
                ++ " items. Review and confirm below.";
            variant := None |} ])
  end.

(** [prev.map((item, i) => f(item, i))], counting from [i]. *)
Fixpoint mapIndexed {A B : Type} (f : A -> nat -> B) (l : list A) (i : nat)
  : list B :=
  match l with
  | [] => []
  | x :: rest => f x i :: mapIndexed f rest (S i)
  end.

Definition toggleItemConfirmation (index : nat) (st : ScanState) : ScanState :=
  setExtractedItems
    (mapIndexed
       (fun item i =>
          if Nat.eqb i index
          then {| name := name item; category := category item;
                  price := price item; quantity := quantity item;
                  confirmed := negb (confirmed item) |}
          else item)
       (extractedItems st) 0)
    st.

Definition updateItemName (index : nat) (newName : string) (st : ScanState)
  : ScanState :=
  setExtractedItems
    (mapIndexed
       (fun item i =>
          if Nat.eqb i index
          then {| name := newName; category := category item;
                  price := price item; quantity := quantity item;
                  confirmed := confirmed item |}
          else item)
       (extractedItems st) 0)
    st.

Definition resetUpload (st : ScanState) : ScanState :=
  setIsConfirming false (setExtractedItems [] (setImage None st)).

(** An item with its check mark flipped, and an item under a new name. *)
Definition flipped (item : ReceiptItem) : ReceiptItem :=
  {| name := name item; category := category item; price := price item;
     quantity := quantity item; confirmed := negb (confirmed item) |}.

Definition renamed (newName : string) (item : ReceiptItem) : ReceiptItem :=
  {| name := newName; category := category item; price := price item;
     quantity := quantity item; confirmed := confirmed item |}.

(** What [onSuccess] receives for one item. *)
Record ItemWithEstimates : Type := {
  item_name : string;
  item_category : string;
  purchased_at : string;
  estimated_expiration_at : string;
  estimated_restock_at : string;
  estimate_source : string
}.

(** [Promise.all]: fulfilled with all the values in order, rejected as soon
    as one promise is; the handler below does not look at the reason. *)
Fixpoint Promise_all {A : Type} (ps : list (Promise A)) : Promise (list A) :=
  match ps with
  | [] => Fulfilled []
  | p :: rest =>
      match p with
      | Rejected e => Rejected e
      | Fulfilled a =>
          match Promise_all rest with
          | Fulfilled l => Fulfilled (a :: l)
          | Rejected e => Rejected e
          end
      end
  end.

Section Confirm.

(** The [estimateDates] that the dynamic import provides, as it settles
    when it is called for the [i]-th confirmed item. *)
Variable estimateDatesFor : nat -> EstimateDatesInput -> Promise EstimateDatesOutput.

(** Whether the dynamic [import('@/services/dateEstimation')] resolves. *)
Variable moduleLoads : bool.

(** [Date.now()] when the handler runs. *)
Variable now : Z.

(** Whether [onSuccess], the callback the parent component passes in,
    throws when it is handed the records.  The call stands inside the
    [try] block. *)
Variable onSuccessThrows : list ItemWithEstimates -> bool.

(** The [async (item) => ...] callback of [confirmedItems.map]. *)
Definition withEstimates (today : string) (item : ReceiptItem) (i : nat)
  : Promise ItemWithEstimates :=
  estimates <- estimateDatesFor i
                 (Build_EstimateDatesInput (name item) (category item) today) ;;
  Fulfilled {| item_name := name item;
               item_category := category item;
               purchased_at := today;
               estimated_expiration_at := estimatedExpirationAt estimates;
               estimated_restock_at := estimatedRestockAt estimates;
               estimate_source := source estimates |}.

(** The toast of the [catch] block. *)
Definition failureToast : Toast :=
  {| title := "Error";
     description := "Failed to add items. Please try again.";
     variant := Some "destructive" |}.

Definition addedToast (count : nat) : Toast :=
  {| title := "Items added!";
     description := lengthString count ++ " items added from receipt.";
     variant := None |}.

Definition confirmFailed : list Toast * list (list ItemWithEstimates) :=
  ([failureToast], []).

(** The handler, for whatever [estimateDates] the import provides: the
    toasts shown, in order, and the calls of [onSuccess]. *)
Definition confirmItemsWith (st : ScanState)
  : list Toast * list (list ItemWithEstimates) :=
  let confirmedItems := filter confirmed (extractedItems st) in
  if (length confirmedItems =? 0)%nat then
    ([ {| title := "No items selected";
          description := "Please confirm at least one item to add.";
          variant := Some "destructive" |} ],
     [])
  else if negb moduleLoads then confirmFailed
  else
    match isoDate (TimeClip now) with
    | Rejected _ => confirmFailed
    | Fulfilled today =>
        match Promise_all (mapIndexed (withEstimates today) confirmedItems 0) with
        | Rejected _ => confirmFailed
        | Fulfilled itemsWithEstimates =>
            if onSuccessThrows itemsWithEstimates
            then ([addedToast (length confirmedItems); failureToast],
                  [itemsWithEstimates])
            else ([addedToast (length confirmedItems)], [itemsWithEstimates])
        end
    end.

End Confirm.

(** [handleConfirmItems] with the service as it runs in a zone of fixed
    offset; [net i] is how the oracle call for the [i]-th confirmed item
    ends. *)
Definition handleConfirmItems (LocalTZA : Z) (Date_parse : string -> jsnum)
           (moduleLoads : bool) (now : Z) (net : nat -> FetchOutcome)
           (onSuccessThrows : list ItemWithEstimates -> bool) (st : ScanState)
  : list Toast * list (list ItemWithEstimates) :=
  confirmItemsWith (fun i => estimateDates LocalTZA Date_parse (net i))
                   moduleLoads now onSuccessThrows st.

(** [handleConfirmItems] with the service as it runs in a zone with offset
    transitions. *)
Definition handleConfirmItemsZoned (LocalTZA : Z -> bool -> Z)
           (Date_parse : string -> jsnum)
           (moduleLoads : bool) (now : Z) (net : nat -> FetchOutcome)
           (onSuccessThrows : list ItemWithEstimates -> bool) (st : ScanState)
  : list Toast * list (list ItemWithEstimates) :=
  confirmItemsWith (fun i => Zoned.estimateDates LocalTZA Date_parse (net i))
                   moduleLoads now onSuccessThrows st.

(** Sample data for the examples below. *)
Definition sampleScan : ScanState :=
  {| image := Some "data:image/png;base64,AAAA";
     isProcessing := false;
     extractedItems :=
       [ {| name := "Whole Milk"; category := "Dairy"; price := Some "3.49";
            quantity := Some "1 gal"; confirmed := true |};
         {| name := "Candles"; category := "Gifts"; price := None;
            quantity := None; confirmed := false |};
         {| name := "Chicken Breast"; category := "Meat"; price := Some "8.99";
            quantity := Some "2 lb"; confirmed := true |} ];
     isConfirming := true |}.

Definition sampleNow : Z := 1718712345678.

Definition samplePayload : list ItemWithEstimates :=
  [ {| item_name := "Whole Milk"; item_category := "Dairy";
       purchased_at := "2024-06-18";
       estimated_expiration_at := "2024-06-25";
       estimated_restock_at := "2024-06-25";
       estimate_source := "heuristic" |};
    {| item_name := "Chicken Breast"; item_category := "Meat";
       purchased_at := "2024-06-18";
       estimated_expiration_at := "2024-06-20";
       estimated_restock_at := "2024-06-20";
       estimate_source := "heuristic" |} ].

End ScanReceiptPage.

(** * Facts about the time-value algorithms *)

Section DateFacts.

Lemma MonthFromTime_range (t : Z) : 0 <= MonthFromTime t <= 11.
Proof.
  unfold MonthFromTime.
  repeat match goal with
         | |- context [if ?b then _ else _] => destruct b
         end; lia.
Qed.

Lemma DateFromTime_monthStart (t : Z) :
  DateFromTime t
  = DayWithinYear t - monthStart (MonthFromTime t) (InLeapYear t) + 1.
Proof.
  unfold DateFromTime.
  pose proof (MonthFromTime_range t) as Hm.
  assert (MonthFromTime t = 0 \/ MonthFromTime t = 1 \/ MonthFromTime t = 2
          \/ MonthFromTime t = 3 \/ MonthFromTime t = 4 \/ MonthFromTime t = 5
          \/ MonthFromTime t = 6 \/ MonthFromTime t = 7 \/ MonthFromTime t = 8
          \/ MonthFromTime t = 9 \/ MonthFromTime t = 10
          \/ MonthFromTime t = 11) as Hc by lia.
  unfold monthStart.
  repeat destruct Hc as [Hc | Hc]; rewrite Hc; cbv iota; lia.
Qed.

(** Setting the day of the month to "today plus n" moves the day number by
    exactly [n], whatever month or year boundary is crossed. *)
Lemma MakeDay_shift (t n : Z) :
  MakeDay (YearFromTime t) (MonthFromTime t) (DateFromTime t + n) = Day t + n.
Proof.
  unfold MakeDay.
  pose proof (MonthFromTime_range t) as Hm.
  rewrite (Z.div_small (MonthFromTime t) 12) by lia.
  rewrite (Z.mod_small (MonthFromTime t) 12) by lia.
  rewrite Z.add_0_r, DateFromTime_monthStart.
  fold (InLeapYear t). unfold DayWithinYear. lia.
Qed.

Lemma MakeDate_Day (t n : Z) :
  MakeDate (Day t + n) (TimeWithinDay t) = t + n * msPerDay.
Proof.
  unfold MakeDate, Day, TimeWithinDay.
  pose proof (Z.div_mod t msPerDay) as H.
  assert (msPerDay <> 0) by (unfold msPerDay; lia).
  specialize (H ltac:(assumption)). lia.
Qed.

Lemma DayFromYear_succ (y : Z) :
  DayFromYear (y + 1) = DayFromYear y + DaysInYear y.
Proof.
  unfold DayFromYear, DaysInYear.
  repeat match goal with
         | |- context [?a =? ?b] => destruct (Z.eqb_spec a b)
         end; simpl negb; cbv iota; Z.to_euclidean_division_equations; lia.
Qed.

Lemma DayFromYear_mono (y y' : Z) : y <= y' -> DayFromYear y <= DayFromYear y'.
Proof.
  unfold DayFromYear. intro H. Z.to_euclidean_division_equations. lia.
Qed.

(** [YearFromDay d] is the year whose days contain [d]. *)
Lemma YearFromDay_spec (d : Z) :
  DayFromYear (YearFromDay d) <= d < DayFromYear (YearFromDay d + 1).
Proof.
  unfold YearFromDay.
  set (y0 := 1970 + 400 * d / 146097).
  assert (DayFromYear (y0 - 1) <= d < DayFromYear (y0 + 2)) as Hb.
  { unfold DayFromYear, y0. Z.to_euclidean_division_equations. lia. }
  destruct (Z.ltb_spec d (DayFromYear y0)).
  - replace (y0 - 1 + 1) with y0 by lia. lia.
  - destruct (Z.leb_spec (DayFromYear (y0 + 1)) d).
    + replace (y0 + 1 + 1) with (y0 + 2) by lia. lia.
    + lia.
Qed.

Lemma YearFromDay_unique (d y : Z) :
  DayFromYear y <= d < DayFromYear (y + 1) -> YearFromDay d = y.
Proof.
  intro H. pose proof (YearFromDay_spec d) as Hd.
  destruct (Z.lt_trichotomy (YearFromDay d) y) as [Hlt | [Heq | Hgt]];
    [|exact Heq|].
  - pose proof (DayFromYear_mono (YearFromDay d + 1) y). lia.
  - pose proof (DayFromYear_mono (y + 1) (YearFromDay d)). lia.
Qed.

(** [MakeDay] returns the day number of a day that the calendar functions
    read back as the first of the requested month, plus [date - 1]. *)
Lemma MakeDay_first_of_month (y mn date : Z) :
  0 <= mn <= 11 ->
  exists t,
    YearFromTime t = y /\ MonthFromTime t = mn /\ DateFromTime t = 1
    /\ MakeDay y mn date = Day t + date - 1.
Proof.
  intro Hmn.
  set (l := if DaysInYear y =? 366 then 1 else 0).
  set (d := DayFromYear y + monthStart mn l).
  assert (DaysInYear y = 365 + l /\ (l = 0 \/ l = 1)) as [Hdays Hl].
  { unfold l, DaysInYear.
    destruct (negb (y mod 4 =? 0)), (negb (y mod 100 =? 0)),
      (negb (y mod 400 =? 0)); simpl; lia. }
  assert (0 <= monthStart mn l < 365 + l) as Hstart.
  { assert (mn = 0 \/ mn = 1 \/ mn = 2 \/ mn = 3 \/ mn = 4 \/ mn = 5
            \/ mn = 6 \/ mn = 7 \/ mn = 8 \/ mn = 9 \/ mn = 10 \/ mn = 11)
      as Hc by lia.
    unfold monthStart.
    repeat destruct Hc as [Hc | Hc]; rewrite Hc; cbv iota; lia. }
  assert (Day (d * msPerDay) = d) as HDay.
  { unfold Day. apply Z.div_mul. unfold msPerDay. lia. }
  assert (YearFromTime (d * msPerDay) = y) as HY.
  { unfold YearFromTime. rewrite HDay. apply YearFromDay_unique.
    rewrite DayFromYear_succ. unfold d. lia. }
  assert (InLeapYear (d * msPerDay) = l) as HL.
  { unfold InLeapYear. rewrite HY. reflexivity. }
  assert (DayWithinYear (d * msPerDay) = monthStart mn l) as HW.
  { unfold DayWithinYear. rewrite HDay, HY. unfold d. lia. }
  assert (MonthFromTime (d * msPerDay) = mn) as HM.
  { unfold MonthFromTime. rewrite HW, HL.
    assert (mn = 0 \/ mn = 1 \/ mn = 2 \/ mn = 3 \/ mn = 4 \/ mn = 5
            \/ mn = 6 \/ mn = 7 \/ mn = 8 \/ mn = 9 \/ mn = 10 \/ mn = 11)
      as Hc by lia.
    unfold monthStart.
    repeat destruct Hc as [Hc | Hc]; rewrite Hc; cbv iota;
      repeat match goal with
             | |- context [?a <? ?b] => destruct (Z.ltb_spec a b)
             end; lia. }
  exists (d * msPerDay). repeat split.
  - exact HY.
  - exact HM.
  - rewrite DateFromTime_monthStart, HW, HM, HL. lia.
  - unfold MakeDay. rewrite Z.div_small, Z.mod_small by lia.
    rewrite Z.add_0_r, HDay. fold l. unfold d. lia.
Qed.

Lemma YearFromDay_mono (d d' : Z) : d <= d' -> YearFromDay d <= YearFromDay d'.
Proof.
  intro H.
  destruct (Z.le_gt_cases (YearFromDay d) (YearFromDay d')) as [|Hgt]; [assumption|].
  pose proof (YearFromDay_spec d) as Hd.
  pose proof (YearFromDay_spec d') as Hd'.
  pose proof (DayFromYear_mono (YearFromDay d' + 1) (YearFromDay d)) as Hm.
  lia.
Qed.

Lemma Day_mono (t t' : Z) : t <= t' -> Day t <= Day t'.
Proof.
  intro H. unfold Day. apply Z.div_le_mono; [unfold msPerDay; lia | exact H].
Qed.

(** Later instants print as later (or equal) calendar dates. *)
Lemma civil_mono (t t' : Z) : t <= t' -> civil_le (civil t) (civil t').
Proof.
  intro H. unfold civil, civil_le.
  pose proof (YearFromDay_mono _ _ (Day_mono _ _ H)) as Hy.
  fold (YearFromTime t) (YearFromTime t') in Hy.
  destruct (Z.eq_dec (YearFromTime t) (YearFromTime t')) as [Heq|Hne];
    [right; split; [exact Heq|] | left; lia].
  assert (DayWithinYear t <= DayWithinYear t') as Hd.
  { unfold DayWithinYear. rewrite Heq. pose proof (Day_mono _ _ H). lia. }
  assert (InLeapYear t = InLeapYear t') as Hl.
  { unfold InLeapYear. rewrite Heq. reflexivity. }
  assert (InLeapYear t' = 0 \/ InLeapYear t' = 1) as Hl01.
  { unfold InLeapYear. destruct (_ =? _); auto. }
  unfold DateFromTime, MonthFromTime. rewrite Hl.
  generalize dependent (DayWithinYear t). generalize dependent (DayWithinYear t').
  generalize dependent (InLeapYear t'). clear.
  intros l _ Hl d' d Hd.
  repeat match goal with
         | |- context [?a <? ?b] => destruct (Z.ltb_spec a b)
         end; cbv iota; lia.
Qed.

Variable LocalTZA : Z.

Lemma setDate_getDate (t n : Z) :
  setDate LocalTZA (Some t) (js_add (getDate LocalTZA (Some t)) (JNum n))
  = TimeClip (t + n * msPerDay).
Proof.
  unfold setDate, getDate, js_add, ToNumber.
  rewrite MakeDay_shift, MakeDate_Day.
  unfold UTC, LocalTime. f_equal. lia.
Qed.

End DateFacts.

(** * Facts about strings *)

Section StringFacts.

Lemma mentions_app (c : ascii) (a b : string) :
  mentions c (a ++ b) = mentions c a || mentions c b.
Proof.
  induction a as [|x a IH]; simpl; [reflexivity|].
  rewrite IH. apply orb_assoc.
Qed.

Lemma split_head_app (sep : ascii) (a b : string) :
  mentions sep a = false -> split_head sep (a ++ String sep b) = a.
Proof.
  induction a as [|x a IH]; simpl; intro H.
  - rewrite Ascii.eqb_refl. reflexivity.
  - apply orb_false_elim in H. destruct H as [Hx Ha].
    rewrite Hx, IH by assumption. reflexivity.
Qed.

Lemma digitChar_not_T (d : Z) : Ascii.eqb (digitChar d) "T" = false.
Proof.
  unfold digitChar.
  repeat match goal with
         | |- context [match ?x with _ => _ end] => destruct x
         end; reflexivity.
Qed.

Lemma mentions_padDigits (w : nat) (n : Z) (acc : string) :
  mentions "T" acc = false -> mentions "T" (padDigits w n acc) = false.
Proof.
  revert n acc. induction w as [|w IH]; intros n acc H; simpl; [exact H|].
  apply IH. simpl. rewrite digitChar_not_T. exact H.
Qed.

Lemma mentions_pad (w : nat) (n : Z) : mentions "T" (pad w n) = false.
Proof. apply mentions_padDigits. reflexivity. Qed.

Lemma mentions_yearString (y : Z) : mentions "T" (yearString y) = false.
Proof.
  unfold yearString.
  destruct ((0 <=? y) && (y <=? 9999)); [apply mentions_pad|].
  destruct (y <? 0); rewrite mentions_app, mentions_pad; reflexivity.
Qed.

Lemma mentions_dateString (t : Z) : mentions "T" (dateString t) = false.
Proof.
  unfold dateString, civil.
  repeat rewrite mentions_app.
  rewrite mentions_yearString, !mentions_pad. reflexivity.
Qed.

Lemma prefix_true_iff (kw s : string) :
  String.prefix kw s = true <-> exists b, s = kw ++ b.
Proof.
  revert s. induction kw as [|c kw IH]; intro s.
  - split; [intros _; exists s; reflexivity | destruct s; reflexivity].
  - destruct s as [|c' s]; simpl.
    + split; [discriminate | intros [b Hb]; discriminate].
    + destruct (ascii_dec c c') as [->|Hne].
      * rewrite IH. split; intros [b Hb]; exists b; congruence.
      * split; [discriminate | intros [b Hb]; congruence].
Qed.

(** [includes] is the substring test. *)
Lemma includes_true_iff (s kw : string) :
  includes s kw = true <-> exists a b, s = a ++ kw ++ b.
Proof.
  induction s as [|c s IH]; cbn [includes].
  - rewrite orb_false_r, prefix_true_iff. split.
    + intros [b Hb]. exists "", b. exact Hb.
    + intros [a [b Hab]]. destruct a; [exists b; exact Hab | discriminate].
  - rewrite orb_true_iff, prefix_true_iff, IH. split.
    + intros [[b Hb] | [a [b Hab]]].
      * exists "", b. exact Hb.
      * exists (String c a), b. simpl. congruence.
    + intros [a [b Hab]]. destruct a as [|x a].
      * left. exists b. exact Hab.
      * right. exists a, b. simpl in Hab. congruence.
Qed.

End StringFacts.

(** * Facts about the service *)

Section ServiceFacts.

Variable LocalTZA : Z.
Variable Date_parse : string -> jsnum.

Lemma TimeClip_Some (t u : Z) :
  TimeClip t = Some u -> u = t /\ - maxTime <= t <= maxTime.
Proof.
  unfold TimeClip. destruct (Z.ltb_spec maxTime (Z.abs t)); [discriminate|].
  intro E. injection E as <-. lia.
Qed.

Lemma TimeClip_in_range (t : Z) :
  - maxTime <= t <= maxTime -> TimeClip t = Some t.
Proof.
  intro H. unfold TimeClip.
  destruct (Z.ltb_spec maxTime (Z.abs t)); [lia | reflexivity].
Qed.

Lemma Date_of_string_valid (s : string) (t : Z) :
  Date_of_string Date_parse s = Some t -> - maxTime <= t <= maxTime.
Proof.
  unfold Date_of_string. destruct (Date_parse s) as [u|]; [|discriminate].
  intro E. apply TimeClip_Some in E. lia.
Qed.

Lemma plusDays_num (t n : Z) :
  plusDays LocalTZA (Some t) (JNum n) = TimeClip (t + n * msPerDay).
Proof. apply setDate_getDate. Qed.

Lemma plusDays_null (t : Z) : plusDays LocalTZA (Some t) JNull = TimeClip t.
Proof.
  unfold plusDays.
  change (js_add (getDate LocalTZA (Some t)) JNull)
    with (js_add (getDate LocalTZA (Some t)) (JNum 0)).
  rewrite setDate_getDate. f_equal. lia.
Qed.

Lemma plusDays_undefined (d : jsnum) : plusDays LocalTZA d JUndefined = None.
Proof. destruct d; reflexivity. Qed.

Lemma plusDays_invalid (v : jsval) : plusDays LocalTZA None v = None.
Proof. reflexivity. Qed.

(** Adding the day count [v] to a valid date: the count as a number, and
    the clipped sum. *)
Lemma plusDays_Some (t : Z) (v : jsval) (u : Z) :
  plusDays LocalTZA (Some t) v = Some u ->
  exists n, ToNumber v = Some n /\ u = t + n * msPerDay
            /\ - maxTime <= u <= maxTime.
Proof.
  destruct v as [| |n].
  - rewrite plusDays_undefined. discriminate.
  - rewrite plusDays_null. intro E. apply TimeClip_Some in E.
    exists 0. split; [reflexivity | lia].
  - rewrite plusDays_num. intro E. apply TimeClip_Some in E.
    exists n. split; [reflexivity | lia].
Qed.

Lemma isoDate_valid (t : Z) : isoDate (Some t) = Fulfilled (dateString t).
Proof.
  unfold isoDate, toISOString, bindP.
  change (dateString t ++ "T" ++ timeString t)
    with (dateString t ++ String "T" (timeString t)).
  rewrite split_head_app by apply mentions_dateString. reflexivity.
Qed.

Lemma isoDate_invalid : isoDate None = Rejected RangeError.
Proof. reflexivity. Qed.

Lemma cappedExpiration_invalid (estimate : Estimate) :
  cappedExpiration LocalTZA None estimate = None.
Proof. reflexivity. Qed.

(** The capped expiration is the raw one or the 365-day one, and never
    later than 365 days after a valid purchase date. *)
Lemma cappedExpiration_Some (t : Z) (estimate : Estimate) (te : Z) :
  - maxTime <= t <= maxTime ->
  cappedExpiration LocalTZA (Some t) estimate = Some te ->
  exists n, ToNumber (shelf_life estimate) = Some n
            /\ te = t + Z.min n 365 * msPerDay
            /\ - maxTime <= te <= maxTime.
Proof.
  intros Ht. unfold cappedExpiration. rewrite plusDays_num.
  destruct (plusDays LocalTZA (Some t) (shelf_life estimate)) as [e|] eqn:Ee.
  - apply plusDays_Some in Ee. destruct Ee as [n [Hn [He Hr]]].
    unfold TimeClip, js_gt.
    destruct (Z.ltb_spec maxTime (Z.abs (t + 365 * msPerDay))).
    + intro E. injection E as <-. exists n. split; [exact Hn|].
      unfold msPerDay in *. lia.
    + destruct (Z.ltb_spec (t + 365 * msPerDay) e); intro E; injection E as <-;
        exists n; (split; [exact Hn|]); unfold msPerDay in *; lia.
  - unfold js_gt. discriminate.
Qed.

(** The reported restock date is the raw restock date when that is a valid
    date not after the expiration date, and the expiration date otherwise. *)
Lemma reportedRestock_Some (te : Z) (restockDate : jsnum) :
  reportedRestock (Some te) restockDate
  = Some (match restockDate with
          | Some raw => Z.min te raw
          | None => te
          end).
Proof.
  unfold reportedRestock, Math_min, js_strict_eq.
  destruct restockDate as [raw|]; [|reflexivity].
  destruct (Z.eqb_spec (Z.min te raw) raw) as [E|E]; f_equal; lia.
Qed.

(** What a fulfilled call went through. *)
Lemma estimateDates_Fulfilled (net : FetchOutcome) (input : EstimateDatesInput)
      (r : EstimateDatesOutput) :
  estimateDates LocalTZA Date_parse net input = Fulfilled r ->
  exists estimate t te,
    fst (acceptedEstimate net input) = Some estimate
    /\ Date_of_string Date_parse (purchasedAt input) = Some t
    /\ cappedExpiration LocalTZA (Some t) estimate = Some te
    /\ r = {| estimatedExpirationAt := dateString te;
              estimatedRestockAt :=
                dateString
                  (match plusDays LocalTZA (Some t) (restock estimate) with
                   | Some raw => Z.min te raw
                   | None => te
                   end);
              source := snd (acceptedEstimate net input) |}.
Proof.
  unfold estimateDates.
  destruct (acceptedEstimate net input) as [[estimate|] src]; [|discriminate].
  destruct (Date_of_string Date_parse (purchasedAt input)) as [t|].
  - destruct (cappedExpiration LocalTZA (Some t) estimate) as [te|] eqn:Ec.
    + rewrite reportedRestock_Some, !isoDate_valid. simpl.
      intro E. injection E as <-. exists estimate, t, te. auto.
    + rewrite isoDate_invalid. discriminate.
  - rewrite cappedExpiration_invalid, isoDate_invalid. discriminate.
Qed.

(** Conversely, a valid capped expiration is all a call needs. *)
Lemma estimateDates_complete (net : FetchOutcome) (input : EstimateDatesInput)
      (estimate : Estimate) (t te : Z) :
  fst (acceptedEstimate net input) = Some estimate ->
  Date_of_string Date_parse (purchasedAt input) = Some t ->
  cappedExpiration LocalTZA (Some t) estimate = Some te ->
  estimateDates LocalTZA Date_parse net input
  = Fulfilled {| estimatedExpirationAt := dateString te;
                 estimatedRestockAt :=
                   dateString
                     (match plusDays LocalTZA (Some t) (restock estimate) with
                      | Some raw => Z.min te raw
                      | None => te
                      end);
                 source := snd (acceptedEstimate net input) |}.
Proof.
  unfold estimateDates.
  destruct (acceptedEstimate net input) as [e src]. simpl.
  intros -> -> Hc. rewrite Hc, reportedRestock_Some, !isoDate_valid.
  reflexivity.
Qed.

End ServiceFacts.

(** * Facts about the heuristic resolver *)

Section HeuristicFacts.

Lemma ownRule_In (table : list (string * CategoryRules)) (key : string)
      (r : CategoryRules) :
  ownRule table key = Some r -> In (key, r) table.
Proof.
  induction table as [|[k r'] rest IH]; simpl; [discriminate|].
  destruct (String.eqb_spec k key) as [->|Hne].
  - intro E. injection E as ->. left. reflexivity.
  - intro E. right. apply IH. exact E.
Qed.

Lemma firstKeyword_In (nameLower : string) (entries : list (string * Estimate))
      (rule : Estimate) :
  firstKeyword nameLower entries = Some rule ->
  exists keyword, In (keyword, rule) entries /\ includes nameLower keyword = true.
Proof.
  induction entries as [|[kw e] rest IH]; simpl; [discriminate|].
  destruct (includes nameLower kw) eqn:Hi.
  - intro E. injection E as ->. exists kw. split; [left; reflexivity | exact Hi].
  - intro E. destruct (IH E) as [k [Hin Hk]]. exists k. split; [right|]; assumption.
Qed.

(** The loop returns at the first entry whose keyword occurs in the name. *)
Lemma firstKeyword_first (nameLower : string) (pre post : list (string * Estimate))
      (keyword : string) (rule : Estimate) :
  (forall kw' rule', In (kw', rule') pre -> includes nameLower kw' = false) ->
  includes nameLower keyword = true ->
  firstKeyword nameLower (pre ++ (keyword, rule) :: post) = Some rule.
Proof.
  induction pre as [|[kw e] pre IH]; simpl; intros Hpre Hk.
  - rewrite Hk. reflexivity.
  - rewrite (Hpre kw e) by (left; reflexivity).
    apply IH; [|exact Hk]. intros kw' rule' Hin. apply (Hpre kw' rule').
    right. exact Hin.
Qed.

Lemma firstKeyword_none (nameLower : string) (entries : list (string * Estimate)) :
  (forall kw rule, In (kw, rule) entries -> includes nameLower kw = false) ->
  firstKeyword nameLower entries = None.
Proof.
  induction entries as [|[kw e] rest IH]; simpl; intro H; [reflexivity|].
  rewrite (H kw e) by (left; reflexivity).
  apply IH. intros kw' rule' Hin. apply (H kw' rule'). right. exact Hin.
Qed.

Lemma HEURISTIC_RULES_authored :
  forallb (fun kv => rulesAuthored (snd kv)) HEURISTIC_RULES = true.
Proof. vm_compute. reflexivity. Qed.

(** Whatever pair the resolver returns is within the authored bounds. *)
Lemma getHeuristicEstimate_authored (name category : string) (e : Estimate) :
  getHeuristicEstimate name category = Some e -> authored e = true.
Proof.
  unfold getHeuristicEstimate, lookupRules.
  destruct (ownRule HEURISTIC_RULES category) as [rules|] eqn:Hown.
  - apply ownRule_In in Hown.
    pose proof HEURISTIC_RULES_authored as Hall.
    rewrite forallb_forall in Hall. specialize (Hall _ Hown).
    unfold rulesAuthored in Hall. simpl in Hall.
    apply andb_true_iff in Hall. destruct Hall as [Hdef Hkw].
    destruct (firstKeyword (toLowerCase name) (keywords rules)) as [rule|] eqn:Hf.
    + intro E. injection E as <-.
      apply firstKeyword_In in Hf. destruct Hf as [kw [Hin _]].
      rewrite forallb_forall in Hkw. apply (Hkw _ Hin).
    + intro E. injection E as <-. exact Hdef.
  - destruct (inheritedKey category); [discriminate|].
    intro E. injection E as <-. reflexivity.
Qed.

Lemma authored_days (e : Estimate) :
  authored e = true ->
  exists s r, e = days s r /\ 1 <= s <= 730 /\ 7 <= r <= 180.
Proof.
  destruct e as [[| |s] [| |r]]; unfold authored; simpl; try discriminate.
  intro H. exists s, r. split; [reflexivity|]. lia.
Qed.

(** A category that is neither in the table nor an inherited property name
    gets the fallback pair. *)
Lemma getHeuristicEstimate_fallback (name category : string) :
  ownRule HEURISTIC_RULES category = None ->
  inheritedKey category = false ->
  getHeuristicEstimate name category = Some (days 30 30).
Proof.
  intros Hown Hinh. unfold getHeuristicEstimate, lookupRules.
  rewrite Hown, Hinh. reflexivity.
Qed.

Lemma getHeuristicEstimate_total (name category : string) :
  inheritedKey category = false ->
  exists e, getHeuristicEstimate name category = Some e.
Proof.
  intro Hinh. unfold getHeuristicEstimate, lookupRules. rewrite Hinh.
  destruct (ownRule HEURISTIC_RULES category) as [rules|].
  - destruct (firstKeyword _ _); eauto.
  - eauto.
Qed.

End HeuristicFacts.

(** * Facts about zones with transitions *)

Section ZonedFacts.

Variable zone : Z -> bool -> Z.
Variable Date_parse : string -> jsnum.

(** In a zone without transitions the zoned service is the service of the
    first part. *)
Lemma constant_zone_plusDays (c : Z) (d : jsnum) (v : jsval) :
  Zoned.plusDays (fun _ _ => c) d v = plusDays c d v.
Proof.
  unfold Zoned.plusDays, plusDays, Zoned.setDate, setDate, Zoned.getDate,
    getDate, Zoned.LocalTime, LocalTime, Zoned.UTC, UTC.
  reflexivity.
Qed.

Lemma constant_zone (c : Z) (net : FetchOutcome) (input : EstimateDatesInput) :
  Zoned.estimateDates (fun _ _ => c) Date_parse net input
  = estimateDates c Date_parse net input.
Proof.
  unfold Zoned.estimateDates, estimateDates, Zoned.cappedExpiration,
    cappedExpiration.
  destruct (acceptedEstimate net input) as [[estimate|] src]; [|reflexivity].
  rewrite !constant_zone_plusDays. reflexivity.
Qed.

Lemma zoned_setDate_getDate (t n : Z) :
  Zoned.setDate zone (Some t) (js_add (Zoned.getDate zone (Some t)) (JNum n))
  = TimeClip (Zoned.daysLater zone t n).
Proof.
  unfold Zoned.setDate, Zoned.getDate, js_add, ToNumber.
  rewrite MakeDay_shift, MakeDate_Day. reflexivity.
Qed.

Lemma zoned_plusDays_num (t n : Z) :
  Zoned.plusDays zone (Some t) (JNum n) = TimeClip (Zoned.daysLater zone t n).
Proof. apply zoned_setDate_getDate. Qed.

Lemma zoned_plusDays_null (t : Z) :
  Zoned.plusDays zone (Some t) JNull = TimeClip (Zoned.daysLater zone t 0).
Proof.
  unfold Zoned.plusDays.
  change (js_add (Zoned.getDate zone (Some t)) JNull)
    with (js_add (Zoned.getDate zone (Some t)) (JNum 0)).
  rewrite zoned_setDate_getDate. reflexivity.
Qed.

Lemma zoned_plusDays_undefined (d : jsnum) :
  Zoned.plusDays zone d JUndefined = None.
Proof. destruct d; reflexivity. Qed.

Lemma zoned_plusDays_Some (t : Z) (v : jsval) (u : Z) :
  Zoned.plusDays zone (Some t) v = Some u ->
  exists n, ToNumber v = Some n /\ u = Zoned.daysLater zone t n
            /\ - maxTime <= u <= maxTime.
Proof.
  destruct v as [| |n].
  - rewrite zoned_plusDays_undefined. discriminate.
  - rewrite zoned_plusDays_null. intro E. apply TimeClip_Some in E.
    exists 0. split; [reflexivity | lia].
  - rewrite zoned_plusDays_num. intro E. apply TimeClip_Some in E.
    exists n. split; [reflexivity | lia].
Qed.

(** Where the zone has, at the local time the date is set to, the offset it
    has at the instant the date is set from, the date moves by whole days. *)
Lemma daysLater_same_offset (t n : Z) :
  zone (Zoned.LocalTime zone t + n * msPerDay) false = zone t true ->
  Zoned.daysLater zone t n = t + n * msPerDay.
Proof.
  intro H. unfold Zoned.daysLater, Zoned.UTC. rewrite H.
  unfold Zoned.LocalTime. lia.
Qed.

Lemma daysLater_near (t n : Z) :
  Zoned.steady zone ->
  Z.abs (Zoned.daysLater zone t n - (t + n * msPerDay)) < msPerDay.
Proof.
  intro H. unfold Zoned.daysLater, Zoned.UTC, Zoned.LocalTime.
  specialize (H t (t + zone t true + n * msPerDay) true false). lia.
Qed.

Lemma daysLater_lt (t n m : Z) :
  Zoned.steady zone -> n < m ->
  Zoned.daysLater zone t n < Zoned.daysLater zone t m.
Proof.
  intros H Hnm. unfold Zoned.daysLater, Zoned.UTC, Zoned.LocalTime.
  specialize (H (t + zone t true + n * msPerDay)
                (t + zone t true + m * msPerDay) false false).
  unfold msPerDay in *. lia.
Qed.

(** The capped expiration is never after the date set 365 local days after
    the purchase, in any zone. *)
Lemma zoned_cappedExpiration_le_max (t : Z) (estimate : Estimate) (te tmax : Z) :
  Zoned.cappedExpiration zone (Some t) estimate = Some te ->
  Zoned.plusDays zone (Some t) (JNum 365) = Some tmax ->
  te <= tmax.
Proof.
  unfold Zoned.cappedExpiration. intros H Hmax. rewrite Hmax in H.
  destruct (Zoned.plusDays zone (Some t) (shelf_life estimate)) as [e|];
    [|discriminate].
  unfold js_gt in H. destruct (Z.ltb_spec tmax e); injection H as <-; lia.
Qed.

(** In a steady zone the capped expiration is the date set [min n 365]
    local days after the purchase, for the accepted shelf life [n]. *)
Lemma zoned_cappedExpiration_Some (t : Z) (estimate : Estimate) (te : Z) :
  Zoned.steady zone ->
  - maxTime <= t ->
  Zoned.cappedExpiration zone (Some t) estimate = Some te ->
  exists n, ToNumber (shelf_life estimate) = Some n
            /\ te = Zoned.daysLater zone t (Z.min n 365)
            /\ - maxTime <= te <= maxTime.
Proof.
  intros Hz Ht. unfold Zoned.cappedExpiration. rewrite zoned_plusDays_num.
  destruct (Zoned.plusDays zone (Some t) (shelf_life estimate)) as [e|] eqn:Ee;
    [|unfold js_gt; discriminate].
  apply zoned_plusDays_Some in Ee. destruct Ee as [n [Hn [He Hr]]].
  pose proof (daysLater_near t 365 Hz) as H365.
  destruct (Z.lt_trichotomy n 365) as [Hlt | [Heq | Hgt]].
  - pose proof (daysLater_lt t n 365 Hz Hlt) as Hlt'.
    unfold TimeClip, js_gt.
    destruct (Z.ltb_spec maxTime (Z.abs (Zoned.daysLater zone t 365))).
    + intro E. injection E as <-. exists n.
      replace (Z.min n 365) with n by lia. auto.
    + destruct (Z.ltb_spec (Zoned.daysLater zone t 365) e); [lia|].
      intro E. injection E as <-. exists n.
      replace (Z.min n 365) with n by lia. auto.
  - subst n. rewrite <- He. rewrite (TimeClip_in_range e) by exact Hr.
    unfold js_gt. rewrite Z.ltb_irrefl.
    intro E. injection E as <-. exists 365.
    replace (Z.min 365 365) with 365 by lia. auto.
  - pose proof (daysLater_lt t 365 n Hz Hgt) as Hlt'.
    rewrite (TimeClip_in_range (Zoned.daysLater zone t 365))
      by (unfold msPerDay, maxTime in *; lia).
    unfold js_gt.
    destruct (Z.ltb_spec (Zoned.daysLater zone t 365) e); [|lia].
    intro E. injection E as <-. exists n.
    replace (Z.min n 365) with 365 by lia.
    split; [exact Hn|]. split; [reflexivity|].
    unfold msPerDay, maxTime in *. lia.
Qed.

(** What a fulfilled call went through. *)
Lemma zoned_estimateDates_Fulfilled (net : FetchOutcome)
      (input : EstimateDatesInput) (r : EstimateDatesOutput) :
  Zoned.estimateDates zone Date_parse net input = Fulfilled r ->
  exists estimate t te,
    fst (acceptedEstimate net input) = Some estimate
    /\ Date_of_string Date_parse (purchasedAt input) = Some t
    /\ Zoned.cappedExpiration zone (Some t) estimate = Some te
    /\ r = {| estimatedExpirationAt := dateString te;
              estimatedRestockAt :=
                dateString
                  (match Zoned.plusDays zone (Some t) (restock estimate) with
                   | Some raw => Z.min te raw
                   | None => te
                   end);
              source := snd (acceptedEstimate net input) |}.
Proof.
  unfold Zoned.estimateDates.
  destruct (acceptedEstimate net input) as [[estimate|] src]; [|discriminate].
  destruct (Date_of_string Date_parse (purchasedAt input)) as [t|].
  - destruct (Zoned.cappedExpiration zone (Some t) estimate) as [te|] eqn:Ec.
    + rewrite reportedRestock_Some, !isoDate_valid. simpl.
      intro E. injection E as <-. exists estimate, t, te. auto.
    + rewrite isoDate_invalid. discriminate.
  - change (Zoned.cappedExpiration zone None estimate) with (@None Z).
    rewrite isoDate_invalid. discriminate.
Qed.

Lemma zoned_estimateDates_complete (net : FetchOutcome)
      (input : EstimateDatesInput) (estimate : Estimate) (t te : Z) :
  fst (acceptedEstimate net input) = Some estimate ->
  Date_of_string Date_parse (purchasedAt input) = Some t ->
  Zoned.cappedExpiration zone (Some t) estimate = Some te ->
  Zoned.estimateDates zone Date_parse net input
  = Fulfilled {| estimatedExpirationAt := dateString te;
                 estimatedRestockAt :=
                   dateString
                     (match Zoned.plusDays zone (Some t) (restock estimate) with
                      | Some raw => Z.min te raw
                      | None => te
                      end);
                 source := snd (acceptedEstimate net input) |}.
Proof.
  unfold Zoned.estimateDates.
  destruct (acceptedEstimate net input) as [e src]. simpl.
  intros -> -> Hc. rewrite Hc, reportedRestock_Some, !isoDate_valid.
  reflexivity.
Qed.

(** The printed date depends on the day number only. *)
Lemma civil_of_Day (t u : Z) : Day t = Day u -> civil t = civil u.
Proof.
  intro E.
  unfold civil, DateFromTime, MonthFromTime, DayWithinYear, InLeapYear,
    YearFromTime.
  rewrite E. reflexivity.
Qed.

Lemma dateString_of_Day (t u : Z) : Day t = Day u -> dateString t = dateString u.
Proof. intro E. unfold dateString. rewrite (civil_of_Day t u E). reflexivity. Qed.

End ZonedFacts.

Lemma usEastern_steady : Zoned.steady Zoned.usEastern.
Proof.
  intros t u a b. unfold Zoned.usEastern.
  repeat match goal with
         | |- context [if ?c then _ else _] => destruct c
         end; unfold msPerDay; lia.
Qed.

(** * Facts about the service on the heap *)

Section HeapFacts.

Lemma nth_error_fresh (h F : Stateful.Heap) (i : nat) :
  nth_error (h ++ F)%list (List.length h + i)%nat = nth_error F i.
Proof.
  rewrite nth_error_app2 by lia. f_equal. lia.
Qed.

Lemma nth_error_old (h F : Stateful.Heap) (a : Stateful.Ref) (o : Stateful.Obj) :
  nth_error h a = Some o -> nth_error (h ++ F)%list a = Some o.
Proof.
  intro H. rewrite nth_error_app1; [exact H|].
  apply nth_error_Some. rewrite H. discriminate.
Qed.

Lemma overwrite_fresh (h F : Stateful.Heap) (i : nat) (o : Stateful.Obj) :
  Stateful.overwrite (List.length h + i)%nat o (h ++ F)%list = (h ++ Stateful.overwrite i o F)%list.
Proof.
  induction h as [|x h IH]; simpl; [reflexivity|]. rewrite IH. reflexivity.
Qed.

Lemma bind_alloc {B : Type} (o : Stateful.Obj) (k : Stateful.Ref -> Stateful.Js B) (h F : Stateful.Heap) :
  Stateful.bind (Stateful.alloc o) k (h ++ F)%list
  = k (List.length h + List.length F)%nat (h ++ (F ++ [o]))%list.
Proof.
  unfold Stateful.bind, Stateful.alloc. rewrite length_app, <- app_assoc. reflexivity.
Qed.

Lemma bind_thisTimeValue {B : Type} (d : Stateful.Ref) (tv : jsnum) (k : jsnum -> Stateful.Js B)
      (g : Stateful.Heap) :
  nth_error g d = Some (Stateful.DateObj tv) ->
  Stateful.bind (Stateful.thisTimeValue d) k g = k tv g.
Proof. intro H. unfold Stateful.bind, Stateful.thisTimeValue. rewrite H. reflexivity. Qed.

Lemma bind_readPair {B : Type} (a : Stateful.Ref) (e : Estimate) (k : Estimate -> Stateful.Js B)
      (g : Stateful.Heap) :
  nth_error g a = Some (Stateful.PairObj e) ->
  Stateful.bind (Stateful.readPair (Some a)) k g = k e g.
Proof. intro H. unfold Stateful.bind, Stateful.readPair. rewrite H. reflexivity. Qed.

Variable zone : Z -> bool -> Z.
Variable Date_parse : string -> jsnum.

Lemma bind_Date_copy {B : Type} (d : Stateful.Ref) (tv : jsnum) (k : Stateful.Ref -> Stateful.Js B)
      (g : Stateful.Heap) :
  nth_error g d = Some (Stateful.DateObj tv) ->
  Stateful.bind (Stateful.Date_copy d) k g = Stateful.bind (Stateful.alloc (Stateful.DateObj tv)) k g.
Proof.
  intro H. unfold Stateful.Date_copy, Stateful.bind, Stateful.thisTimeValue. rewrite H. reflexivity.
Qed.

Lemma bind_getDate {B : Type} (d : Stateful.Ref) (tv : jsnum) (k : jsnum -> Stateful.Js B)
      (g : Stateful.Heap) :
  nth_error g d = Some (Stateful.DateObj tv) ->
  Stateful.bind (Stateful.getDate zone d) k g = k (Zoned.getDate zone tv) g.
Proof.
  intro H. unfold Stateful.getDate, Stateful.bind, Stateful.thisTimeValue. rewrite H. reflexivity.
Qed.

Lemma bind_setDate {B : Type} (d : Stateful.Ref) (tv date : jsnum) (k : unit -> Stateful.Js B)
      (g : Stateful.Heap) :
  nth_error g d = Some (Stateful.DateObj tv) ->
  Stateful.bind (Stateful.setDate zone d date) k g
  = k tt (Stateful.overwrite d (Stateful.DateObj (Zoned.setDate zone tv date)) g).
Proof.
  intro H. unfold Stateful.setDate, Stateful.bind, Stateful.thisTimeValue, Stateful.setDateValue. rewrite H.
  reflexivity.
Qed.

Lemma bind_setTime {B : Type} (d : Stateful.Ref) (tv time : jsnum) (k : unit -> Stateful.Js B)
      (g : Stateful.Heap) :
  nth_error g d = Some (Stateful.DateObj tv) ->
  Stateful.bind (Stateful.setTime d time) k g
  = k tt (Stateful.overwrite d (Stateful.DateObj (match time with
                                | Some t => TimeClip t
                                | None => None
                                end)) g).
Proof.
  intro H. unfold Stateful.setTime, Stateful.bind, Stateful.thisTimeValue, Stateful.setDateValue. rewrite H.
  reflexivity.
Qed.

Lemma bind_toISOString {B : Type} (d : Stateful.Ref) (tv : jsnum) (k : string -> Stateful.Js B)
      (g : Stateful.Heap) :
  nth_error g d = Some (Stateful.DateObj tv) ->
  Stateful.bind (Stateful.toISOString d) k g
  = match JsDate.toISOString tv with
    | Fulfilled iso => k iso g
    | Rejected e => (Throw e, g)
    end.
Proof.
  intro H. unfold Stateful.toISOString, Stateful.bind, Stateful.thisTimeValue. rewrite H.
  destruct (JsDate.toISOString tv); reflexivity.
Qed.

(** The value [setDate] leaves is a time value: clipping it again changes
    nothing. *)
Lemma zoned_setDate_clipped (d date : jsnum) (y : Z) :
  Zoned.setDate zone d date = Some y -> TimeClip y = Some y.
Proof.
  unfold Zoned.setDate. destruct d as [t0|]; [|discriminate].
  destruct date as [dt|]; [|discriminate].
  intro E. apply TimeClip_Some in E. destruct E as [-> Hr].
  apply TimeClip_in_range. exact Hr.
Qed.

Lemma bind_assoc {A B C : Type} (m : Stateful.Js A) (f : A -> Stateful.Js B) (k : B -> Stateful.Js C)
      (g : Stateful.Heap) :
  Stateful.bind (Stateful.bind m f) k g = Stateful.bind m (fun x => Stateful.bind (f x) k) g.
Proof. unfold Stateful.bind. destruct (m g) as [[a|e] h']; reflexivity. Qed.

Lemma bind_alloc_first {B : Type} (o : Stateful.Obj) (k : Stateful.Ref -> Stateful.Js B) (g : Stateful.Heap) :
  Stateful.bind (Stateful.alloc o) k g = k (List.length g + 0)%nat (g ++ [o])%list.
Proof. unfold Stateful.bind, Stateful.alloc. rewrite Nat.add_0_r. reflexivity. Qed.

(** Looks up an address in a heap of the shape [g ++ F]. *)
Ltac heap_lookup :=
  first [ rewrite nth_error_fresh; reflexivity
        | apply nth_error_old; eassumption ].

(** [calculateDates] computes what the zoned service computes from the
    time value of the purchase date and the pair it is given, and it writes
    to no object that existed before. *)
Lemma calculateDates_run (g : Stateful.Heap) (purchaseDate : Stateful.Ref) (p : jsnum)
      (estimate : option Stateful.Ref) (eopt : option Estimate) (src : string) :
  nth_error g purchaseDate = Some (Stateful.DateObj p) ->
  match estimate with
  | None => eopt = None
  | Some a => exists e, eopt = Some e /\ nth_error g a = Some (Stateful.PairObj e)
  end ->
  async (fst (Stateful.calculateDates zone purchaseDate estimate src g))
  = match eopt with
    | None => Rejected TypeError
    | Some e =>
        let expirationDate := Zoned.cappedExpiration zone p e in
        let restockDate := Zoned.plusDays zone p (restock e) in
        expirationAt <- isoDate expirationDate ;;
        restockAt <- isoDate (reportedRestock expirationDate restockDate) ;;
        Fulfilled {| estimatedExpirationAt := expirationAt;
                     estimatedRestockAt := restockAt;
                     source := src |}
    end
  /\ exists created,
      snd (Stateful.calculateDates zone purchaseDate estimate src g)
      = (g ++ created)%list.
Proof.
  intros Hpd Hest. unfold Stateful.calculateDates.
  rewrite (bind_Date_copy _ _ _ _ Hpd), bind_alloc_first.
  erewrite bind_getDate by heap_lookup.
  destruct estimate as [a|].
  2:{ subst eopt. split; [reflexivity | eexists; reflexivity]. }
  destruct Hest as [e [-> Ha]].
  erewrite bind_readPair by heap_lookup.
  erewrite bind_setDate by heap_lookup.
  rewrite overwrite_fresh. cbn [Stateful.overwrite].
  erewrite bind_Date_copy by heap_lookup.
  rewrite bind_alloc. cbn [List.length app].
  erewrite bind_getDate by heap_lookup.
  erewrite bind_readPair by heap_lookup.
  erewrite bind_setDate by heap_lookup.
  rewrite overwrite_fresh. cbn [Stateful.overwrite].
  erewrite bind_Date_copy by heap_lookup.
  rewrite bind_alloc. cbn [List.length app].
  erewrite bind_getDate by heap_lookup.
  erewrite bind_setDate by heap_lookup.
  rewrite overwrite_fresh. cbn [Stateful.overwrite].
  erewrite bind_thisTimeValue by heap_lookup.
  erewrite bind_thisTimeValue by heap_lookup.
  cbv zeta. unfold Zoned.cappedExpiration, Zoned.plusDays.
  set (x := Zoned.setDate zone p (js_add (Zoned.getDate zone p) (shelf_life e))).
  set (r := Zoned.setDate zone p (js_add (Zoned.getDate zone p) (restock e))).
  set (m := Zoned.setDate zone p (js_add (Zoned.getDate zone p) (JNum 365))).
  assert (forall y, m = Some y -> TimeClip y = Some y) as Hm
      by (intros y Hy; exact (zoned_setDate_clipped _ _ _ Hy)).
  clearbody x r m.
  set (x' := if js_gt x m then m else x).
  assert (forall (k : unit -> Stateful.Js EstimateDatesOutput),
             Stateful.bind (if js_gt x m
                   then Stateful.bind (Stateful.getTime (List.length g + 2)%nat)
                             (fun v => Stateful.setTime (List.length g + 0)%nat v)
                   else Stateful.ret tt) k
                  (g ++ [Stateful.DateObj x; Stateful.DateObj r; Stateful.DateObj m])%list
             = k tt (g ++ [Stateful.DateObj x'; Stateful.DateObj r; Stateful.DateObj m])%list) as Hcap.
  { intro k. subst x'. destruct (js_gt x m) eqn:Hgt; [|reflexivity].
    rewrite bind_assoc. unfold Stateful.getTime.
    erewrite bind_thisTimeValue by heap_lookup.
    erewrite bind_setTime by heap_lookup.
    rewrite overwrite_fresh. cbn [Stateful.overwrite].
    destruct m as [y|]; [rewrite (Hm y eq_refl); reflexivity|].
    destruct x; discriminate Hgt. }
  rewrite Hcap. clearbody x'. clear Hcap Hm.
  erewrite bind_toISOString by heap_lookup.
  destruct x' as [te|];
    [|split; [reflexivity | eexists; reflexivity]].
  cbn [JsDate.toISOString]. unfold Stateful.getTime.
  erewrite bind_thisTimeValue by heap_lookup.
  erewrite bind_thisTimeValue by heap_lookup.
  erewrite bind_thisTimeValue by heap_lookup.
  unfold isoDate, reportedRestock.
  destruct (js_strict_eq (Math_min (Some te) r) r) eqn:Heq;
    erewrite bind_toISOString by heap_lookup.
  - destruct r as [tr|]; [|discriminate Heq].
    cbn [JsDate.toISOString bindP]. split; [reflexivity | eexists; reflexivity].
  - cbn [JsDate.toISOString bindP]. split; [reflexivity | eexists; reflexivity].
Qed.

Lemma pairAt_nth_error (h : Stateful.Heap) (a : Stateful.Ref) (e : Estimate) :
  Stateful.pairAt h a = Some e -> nth_error h a = Some (Stateful.PairObj e).
Proof.
  unfold Stateful.pairAt. destruct (nth_error h a) as [[tv|e']|]; try discriminate.
  intro E. injection E as ->. reflexivity.
Qed.

(** The table of references, read through the heap of the loaded module,
    is the rule table. *)
Lemma moduleRules_at :
  map (fun kv => (fst kv, Stateful.rulesAt Stateful.moduleHeap (snd kv))) Stateful.moduleRules
  = map (fun kv => (fst kv, Some (snd kv))) HEURISTIC_RULES.
Proof. vm_compute. reflexivity. Qed.

Lemma ownRefs_ownRule (h : Stateful.Heap) (refs : Stateful.RuleTable)
      (table : list (string * CategoryRules)) (key : string) :
  map (fun kv => (fst kv, Stateful.rulesAt h (snd kv))) refs
  = map (fun kv => (fst kv, Some (snd kv))) table ->
  match Stateful.ownRefs refs key with
  | Some r => exists rules, ownRule table key = Some rules
                            /\ Stateful.rulesAt h r = Some rules
  | None => ownRule table key = None
  end.
Proof.
  revert table. induction refs as [|[k r] refs IH];
    intros [|[k' rules] table] E; simpl in *; try discriminate;
    [reflexivity|].
  injection E as Hk Hr E. subst k'.
  destruct (String.eqb k key); [exists rules; auto | apply IH; exact E].
Qed.

Lemma firstKeywordRef_firstKeyword (h : Stateful.Heap) (nameLower : string)
      (refs : list (string * Stateful.Ref)) (entries : list (string * Estimate)) :
  Stateful.keywordsAt h refs = Some entries ->
  match Stateful.firstKeywordRef nameLower refs with
  | Some a => exists rule, firstKeyword nameLower entries = Some rule
                           /\ Stateful.pairAt h a = Some rule
  | None => firstKeyword nameLower entries = None
  end.
Proof.
  revert entries. induction refs as [|[kw a] refs IH]; intros entries; simpl.
  - intro E. injection E as <-. reflexivity.
  - destruct (Stateful.pairAt h a) as [rule|] eqn:Hp; [|discriminate].
    destruct (Stateful.keywordsAt h refs) as [rules|]; [|discriminate].
    intro E. injection E as <-. simpl.
    destruct (includes nameLower kw); [exists rule; auto|].
    apply IH. reflexivity.
Qed.

(** The resolver on the heap returns a reference to the pair the resolver
    of the first part returns, and writes to nothing. *)
Lemma getHeuristicEstimate_run (name category : string) (more : Stateful.Heap) :
  exists est created,
    Stateful.getHeuristicEstimate Stateful.moduleRules name category
                                  (Stateful.moduleHeap ++ more)%list
    = (Normal est, ((Stateful.moduleHeap ++ more) ++ created)%list)
    /\ match est with
       | None => getHeuristicEstimate name category = None
       | Some a =>
           exists e, getHeuristicEstimate name category = Some e
                     /\ nth_error ((Stateful.moduleHeap ++ more) ++ created)%list a
                        = Some (Stateful.PairObj e)
       end.
Proof.
  unfold Stateful.getHeuristicEstimate, getHeuristicEstimate, lookupRules.
  pose proof (ownRefs_ownRule Stateful.moduleHeap Stateful.moduleRules HEURISTIC_RULES category
                moduleRules_at) as Hown.
  destruct (Stateful.ownRefs Stateful.moduleRules category) as [refs|].
  - destruct Hown as [rules [-> Hat]]. unfold Stateful.rulesAt in Hat.
    destruct (Stateful.pairAt Stateful.moduleHeap (Stateful.defaultRef refs)) as [d|] eqn:Hd;
      [|discriminate].
    destruct (Stateful.keywordsAt Stateful.moduleHeap (Stateful.keywordRefs refs)) as [kws|] eqn:Hk;
      [|discriminate].
    injection Hat as <-. cbn [keywords default].
    pose proof (firstKeywordRef_firstKeyword Stateful.moduleHeap (toLowerCase name)
                  _ _ Hk) as Hfirst.
    destruct (Stateful.firstKeywordRef (toLowerCase name) (Stateful.keywordRefs refs)) as [a|].
    + destruct Hfirst as [rule [-> Hp]].
      exists (Some a), []. rewrite app_nil_r. split; [reflexivity|].
      exists rule. split; [reflexivity|].
      apply nth_error_old, pairAt_nth_error. exact Hp.
    + rewrite Hfirst.
      exists (Some (Stateful.defaultRef refs)), []. rewrite app_nil_r.
      split; [reflexivity|].
      exists d. split; [reflexivity|].
      apply nth_error_old, pairAt_nth_error. exact Hd.
  - rewrite Hown. destruct (inheritedKey category).
    + exists None, []. rewrite app_nil_r. split; reflexivity.
    + exists (Some (List.length (Stateful.moduleHeap ++ more)%list)),
        [Stateful.PairObj (days 30 30)].
      split; [reflexivity|].
      exists (days 30 30). split; [reflexivity|].
      rewrite nth_error_app2 by lia. rewrite Nat.sub_diag. reflexivity.
Qed.

(** [estimateDates] on the heap of the loaded module, whatever else the
    heap holds: it settles as the zoned service does, and the heap it
    leaves is the heap it found, with new objects behind it. *)
Lemma estimateDates_run (net : FetchOutcome) (input : EstimateDatesInput)
      (more : Stateful.Heap) :
  async (fst (Stateful.estimateDates zone Date_parse Stateful.moduleRules
                                     net input (Stateful.moduleHeap ++ more)%list))
  = Zoned.estimateDates zone Date_parse net input
  /\ exists created,
      snd (Stateful.estimateDates zone Date_parse Stateful.moduleRules
                                  net input (Stateful.moduleHeap ++ more)%list)
      = ((Stateful.moduleHeap ++ more) ++ created)%list.
Proof.
  assert (exists c created,
             Stateful.estimateDates zone Date_parse Stateful.moduleRules
                                    net input (Stateful.moduleHeap ++ more)%list
             = (c, ((Stateful.moduleHeap ++ more) ++ created)%list)
             /\ async c = Zoned.estimateDates zone Date_parse net input)
    as [c [created [Hrun Hc]]];
    [| rewrite Hrun; split; [exact Hc | exists created; reflexivity] ].
  unfold Stateful.estimateDates, Stateful.Date_of, Zoned.estimateDates,
    acceptedEstimate, Stateful.getLLMEstimate, getLLMEstimate.
  set (g := (Stateful.moduleHeap ++ more)%list).
  set (p := Date_of_string Date_parse (purchasedAt input)).
  assert (nth_error (g ++ [Stateful.DateObj p])%list (List.length g)
          = Some (Stateful.DateObj p)) as Hp.
  { rewrite nth_error_app2 by lia. rewrite Nat.sub_diag. reflexivity. }
  destruct (getLLMEstimate_try net) as [e|err].
  - cbv beta iota delta [Stateful.bind Stateful.alloc Stateful.ret].
    destruct (calculateDates_run
                ((g ++ [Stateful.DateObj p]) ++ [Stateful.PairObj e])%list
                (List.length g) p
                (Some (List.length (g ++ [Stateful.DateObj p])%list))
                (Some e) "llm")
      as [Hres [created Hheap]].
    + apply nth_error_old. exact Hp.
    + exists e. split; [reflexivity|].
      rewrite nth_error_app2 by lia. rewrite Nat.sub_diag. reflexivity.
    + destruct (Stateful.calculateDates _ _ _ _ _) as [c h'].
      cbn [fst snd] in Hres, Hheap. subst h'.
      exists c, ([Stateful.DateObj p] ++ [Stateful.PairObj e] ++ created)%list.
      split; [rewrite !app_assoc; reflexivity | exact Hres].
  - cbv beta iota delta [Stateful.bind Stateful.alloc Stateful.ret].
    destruct (getHeuristicEstimate_run (name input) (category input)
                (more ++ [Stateful.DateObj p])%list) as [est [made [Hrun Hest]]].
    rewrite app_assoc in Hrun, Hest. fold g in Hrun, Hest.
    rewrite Hrun.
    destruct (calculateDates_run
                ((g ++ [Stateful.DateObj p]) ++ made)%list (List.length g) p est
                (getHeuristicEstimate (name input) (category input))
                "heuristic")
      as [Hres [created Hheap]].
    + apply nth_error_old. exact Hp.
    + destruct est as [a|]; [|exact Hest].
      destruct Hest as [e [He Ha]]. exists e. auto.
    + destruct (Stateful.calculateDates _ _ _ _ _) as [c h'].
      cbn [fst snd] in Hres, Hheap. subst h'.
      exists c, ([Stateful.DateObj p] ++ made ++ created)%list.
      split; [rewrite !app_assoc; reflexivity|].
      rewrite Hres.
      destruct (getHeuristicEstimate (name input) (category input));
        reflexivity.
Qed.

Lemma async_injective {A : Type} (c c' : Completion A) :
  async c = async c' -> c = c'.
Proof.
  destruct c, c'; simpl; intro E; try discriminate; injection E as ->;
    reflexivity.
Qed.

End HeapFacts.

(** * The properties of the specification *)

(** A call whose accepted pair holds two integer day counts, with the raw
    and the 365-day expiration inside the range of time values. *)
Lemma estimateDates_days (tza : Z) (parse : string -> jsnum)
      (net : FetchOutcome) (input : EstimateDatesInput) (t s r : Z) :
  fst (acceptedEstimate net input) = Some (days s r) ->
  Date_of_string parse (purchasedAt input) = Some t ->
  - maxTime <= t + s * msPerDay <= maxTime ->
  t + 365 * msPerDay <= maxTime ->
  estimateDates tza parse net input
  = Fulfilled
      {| estimatedExpirationAt := dateString (t + Z.min s 365 * msPerDay);
         estimatedRestockAt :=
           dateString
             (match TimeClip (t + r * msPerDay) with
              | Some raw => Z.min (t + Z.min s 365 * msPerDay) raw
              | None => t + Z.min s 365 * msPerDay
              end);
         source := snd (acceptedEstimate net input) |}.
Proof.
  intros Hacc Hparse Hs Hmax.
  pose proof (Date_of_string_valid _ _ _ Hparse) as Ht.
  rewrite (estimateDates_complete tza parse net input (days s r) t
             (t + Z.min s 365 * msPerDay) Hacc Hparse).
  - unfold days. cbn [restock]. rewrite plusDays_num. reflexivity.
  - unfold cappedExpiration, days. cbn [shelf_life]. rewrite !plusDays_num.
    rewrite (TimeClip_in_range (t + s * msPerDay)) by exact Hs.
    rewrite (TimeClip_in_range (t + 365 * msPerDay)) by (unfold msPerDay in *; lia).
    unfold js_gt.
    destruct (Z.ltb_spec (t + 365 * msPerDay) (t + s * msPerDay));
      f_equal; unfold msPerDay in *; lia.
Qed.

(** C1.  Whenever [estimateDates] returns, the date it reports as
    [estimatedRestockAt] is the earlier of the capped expiration instant and
    the raw restock instant (the capped expiration itself when the raw
    restock date is invalid), so it is never after [estimatedExpirationAt],
    as instants and as printed calendar dates.  For purchase date
    2024-01-01 and an accepted pair of 10 shelf-life days and 400 restock
    days, both dates are 2024-01-11. *)
Theorem restock_not_after_expiration :
  (forall tza parse net input r,
      estimateDates tza parse net input = Fulfilled r ->
      exists t estimate te tr,
        Date_of_string parse (purchasedAt input) = Some t
        /\ fst (acceptedEstimate net input) = Some estimate
        /\ cappedExpiration tza (Some t) estimate = Some te
        /\ tr = match plusDays tza (Some t) (restock estimate) with
                | Some rawRestock => Z.min te rawRestock
                | None => te
                end
        /\ estimatedExpirationAt r = dateString te
        /\ estimatedRestockAt r = dateString tr
        /\ tr <= te
        /\ civil_le (civil tr) (civil te))
  /\ (forall tza net name category src,
         acceptedEstimate net
           {| name := name; category := category; purchasedAt := "2024-01-01" |}
         = (Some (days 10 400), src) ->
         estimateDates tza Date_parse_iso net
           {| name := name; category := category; purchasedAt := "2024-01-01" |}
         = Fulfilled {| estimatedExpirationAt := "2024-01-11";
                        estimatedRestockAt := "2024-01-11";
                        source := src |}).
Proof.
  split.
  - intros tza parse net input r H.
    apply estimateDates_Fulfilled in H.
    destruct H as [estimate [t [te [Hacc [Hparse [Hcap ->]]]]]].
    exists t, estimate, te.
    eexists. repeat split; try eassumption; try reflexivity.
    + destruct (plusDays tza (Some t) (restock estimate)); lia.
    + apply civil_mono.
      destruct (plusDays tza (Some t) (restock estimate)); lia.
  - intros tza net name category src Hacc.
    rewrite (estimateDates_days tza Date_parse_iso net _ 1704067200000 10 400).
    + rewrite Hacc. vm_compute. reflexivity.
    + rewrite Hacc. reflexivity.
    + reflexivity.
    + vm_compute. split; discriminate.
    + vm_compute. discriminate.
Qed.

Lemma restock_not_after_expiration_witness :
  (exists t estimate te tr,
      Date_of_string Date_parse_iso "2024-01-01" = Some t
      /\ fst (acceptedEstimate FetchRejected
                {| name := "Whole Milk"; category := "Dairy";
                   purchasedAt := "2024-01-01" |}) = Some estimate
      /\ cappedExpiration 3600000 (Some t) estimate = Some te
      /\ tr = match plusDays 3600000 (Some t) (restock estimate) with
              | Some rawRestock => Z.min te rawRestock
              | None => te
              end
      /\ "2024-01-08" = dateString te
      /\ "2024-01-08" = dateString tr
      /\ tr <= te
      /\ civil_le (civil tr) (civil te))
  /\ estimateDates 0 Date_parse_iso
       (FetchResponse true (JsonValue (JNum 10) (JNum 400)))
       {| name := "oat milk"; category := "Dairy"; purchasedAt := "2024-01-01" |}
     = Fulfilled {| estimatedExpirationAt := "2024-01-11";
                    estimatedRestockAt := "2024-01-11";
                    source := "llm" |}.
Proof.
  split.
  - apply (proj1 restock_not_after_expiration 3600000 Date_parse_iso
             FetchRejected
             {| name := "Whole Milk"; category := "Dairy";
                purchasedAt := "2024-01-01" |}
             {| estimatedExpirationAt := "2024-01-08";
                estimatedRestockAt := "2024-01-08";
                source := "heuristic" |}).
    vm_compute. reflexivity.
  - apply (proj2 restock_not_after_expiration 0
             (FetchResponse true (JsonValue (JNum 10) (JNum 400)))
             "oat milk" "Dairy" "llm").
    reflexivity.
Defined.

(** C2, as stated, fails: the oracle's shelf-life count reaches the date
    arithmetic unvalidated, so an answer of -5 days for a purchase on
    2024-01-01 is reported as an expiration on 2023-12-27, and no instant
    printed as that date lies in the window that starts at the purchase
    date. *)
Lemma expiration_before_purchase :
  estimateDates 0 Date_parse_iso
    (FetchResponse true (JsonValue (JNum (-5)) (JNum 4)))
    {| name := "milk"; category := "Dairy"; purchasedAt := "2024-01-01" |}
  = Fulfilled {| estimatedExpirationAt := "2023-12-27";
                 estimatedRestockAt := "2023-12-27";
                 source := "llm" |}
  /\ ~ (exists t te,
           Date_of_string Date_parse_iso "2024-01-01" = Some t
           /\ dateString te = "2023-12-27"
           /\ t <= te <= t + 365 * msPerDay).
Proof.
  split; [vm_compute; reflexivity|].
  intros [t [te [Ht [Hs [Hlo Hhi]]]]].
  vm_compute in Ht. injection Ht as <-.
  pose proof (civil_mono _ _ Hlo) as H1.
  pose proof (civil_mono _ _ Hhi) as H2.
  assert (YearFromTime te = 2024) as Hy.
  { unfold civil_le, civil in H1, H2.
    change (YearFromTime 1704067200000) with 2024 in H1.
    change (YearFromTime (1704067200000 + 365 * msPerDay)) with 2024 in H2.
    lia. }
  unfold dateString, civil in Hs. rewrite Hy in Hs.
  change (yearString 2024) with "2024" in Hs.
  simpl in Hs. discriminate Hs.
Qed.

(** The cap counts local calendar days, not days of 24 hours.  On a host
    on US Eastern time, a purchase on 2024-11-02 at 23:30 UTC with a shelf
    life of 730 days is capped at the instant 365 days and one hour after
    the purchase, the clock having moved back in between, and that instant
    prints as 2025-11-03, the 366th day after 2024-11-02. *)
Lemma cap_counts_local_days :
  Zoned.estimateDates Zoned.usEastern Zoned.sampleParse FetchRejected
    {| name := "canned beans"; category := "Pantry";
       purchasedAt := "2024-11-02T23:30:00.000Z" |}
  = Fulfilled {| estimatedExpirationAt := "2025-11-03";
                 estimatedRestockAt := "2025-02-01";
                 source := "heuristic" |}
  /\ Zoned.cappedExpiration Zoned.usEastern (Some 1730590200000) (days 730 90)
     = Some (1730590200000 + 365 * msPerDay + 3600000)
  /\ dateString (1730590200000 + 365 * msPerDay) = "2025-11-02".
Proof. repeat split; vm_compute; reflexivity. Qed.

(** C2, amended.  Whenever [estimateDates] returns, the reported expiration
    is never after the date set 365 local calendar days after the purchase
    (the same local time of day, 365 days on).  In a zone whose offsets
    differ by less than a day this is less than 366 days after the purchase
    instant, and for a purchase instant at UTC midnight (a date-only
    purchase string) the printed expiration date is at most the purchase
    date plus 365 days.  The expiration is after the purchase instant when
    the accepted shelf-life count is at least 1, which is always so on the
    heuristic path.  In a zone without transitions the expiration is at
    most 365 days after the purchase instant and not before it when the
    shelf-life count is not negative. *)
Theorem expiration_within_cap :
  forall zone parse net input r,
    Zoned.estimateDates zone parse net input = Fulfilled r ->
    exists t estimate te,
      Date_of_string parse (purchasedAt input) = Some t
      /\ fst (acceptedEstimate net input) = Some estimate
      /\ Zoned.cappedExpiration zone (Some t) estimate = Some te
      /\ estimatedExpirationAt r = dateString te
      /\ (forall tmax,
             Zoned.plusDays zone (Some t) (JNum 365) = Some tmax -> te <= tmax)
      /\ (Zoned.steady zone ->
          te < t + 366 * msPerDay
          /\ (t mod msPerDay = 0 ->
              civil_le (civil te) (civil (t + 365 * msPerDay)))
          /\ (forall n, ToNumber (shelf_life estimate) = Some n -> 1 <= n ->
                        t < te /\ civil_le (civil t) (civil te))
          /\ (forall n, ToNumber (shelf_life estimate) = Some n -> n = 0 ->
                        te = Zoned.daysLater zone t 0)
          /\ (getLLMEstimate net = None ->
              t < te /\ civil_le (civil t) (civil te)))
      /\ ((forall u b, zone u b = zone 0 true) ->
          te <= t + 365 * msPerDay
          /\ civil_le (civil te) (civil (t + 365 * msPerDay))
          /\ (forall n, ToNumber (shelf_life estimate) = Some n -> 0 <= n ->
                        t <= te /\ civil_le (civil t) (civil te))).
Proof.
  intros zone parse net input r H.
  apply zoned_estimateDates_Fulfilled in H.
  destruct H as [estimate [t [te [Hacc [Hparse [Hcap ->]]]]]].
  pose proof (Date_of_string_valid _ _ _ Hparse) as Ht.
  exists t, estimate, te.
  split; [exact Hparse|]. split; [exact Hacc|]. split; [exact Hcap|].
  split; [reflexivity|].
  split; [intros tmax Hmax;
          exact (zoned_cappedExpiration_le_max zone t estimate te tmax Hcap Hmax)|].
  assert (forall n0, Zoned.steady zone ->
                     te = Zoned.daysLater zone t (Z.min n0 365) ->
                     te < t + 366 * msPerDay /\ (1 <= n0 -> t < te)) as Hnear.
  { intros n0 Hz Hte. pose proof (daysLater_near zone t (Z.min n0 365) Hz) as Hn.
    rewrite <- Hte in Hn. unfold msPerDay in *. lia. }
  split.
  - intro Hz.
    destruct (zoned_cappedExpiration_Some zone t estimate te Hz (proj1 Ht) Hcap)
      as [n0 [Hn0 [Hte Hr]]].
    destruct (Hnear n0 Hz Hte) as [Hup Hlow].
    split; [exact Hup|].
    split.
    { intro Hmid.
      assert (Day (t + 366 * msPerDay - 1) = Day (t + 365 * msPerDay)) as HD.
      { unfold Day, msPerDay in *. Z.to_euclidean_division_equations. lia. }
      rewrite <- (civil_of_Day _ _ HD). apply civil_mono. lia. }
    split.
    { intros n Hn Hpos. rewrite Hn0 in Hn. injection Hn as <-.
      split; [auto | apply civil_mono; specialize (Hlow Hpos); lia]. }
    split.
    { intros n Hn Hzero. subst n. rewrite Hn0 in Hn. injection Hn as Hn.
      subst n0. exact Hte. }
    intro Hnet. unfold acceptedEstimate in Hacc. rewrite Hnet in Hacc.
    simpl in Hacc.
    apply getHeuristicEstimate_authored, authored_days in Hacc.
    destruct Hacc as [s [r0 [-> [Hs _]]]]. simpl in Hn0. injection Hn0 as <-.
    assert (t < te) as Hlt by (apply Hlow; lia).
    split; [exact Hlt | apply civil_mono; lia].
  - intro Hconst.
    assert (Zoned.steady zone) as Hz.
    { intros a b x y. rewrite (Hconst a x), (Hconst b y). unfold msPerDay. lia. }
    destruct (zoned_cappedExpiration_Some zone t estimate te Hz (proj1 Ht) Hcap)
      as [n0 [Hn0 [Hte Hr]]].
    rewrite daysLater_same_offset in Hte
      by (rewrite (Hconst t true); apply Hconst).
    assert (te <= t + 365 * msPerDay) as Hup by (unfold msPerDay in *; lia).
    split; [exact Hup|]. split; [apply civil_mono; exact Hup|].
    intros n Hn Hpos. rewrite Hn0 in Hn. injection Hn as <-.
    assert (t <= te) as Hlow by (unfold msPerDay in *; lia).
    split; [exact Hlow | apply civil_mono; exact Hlow].
Qed.

Lemma expiration_within_cap_witness :
  exists t estimate te,
    Date_of_string Zoned.sampleParse "2024-11-02T23:30:00.000Z" = Some t
    /\ fst (acceptedEstimate FetchRejected
              {| name := "canned beans"; category := "Pantry";
                 purchasedAt := "2024-11-02T23:30:00.000Z" |}) = Some estimate
    /\ Zoned.cappedExpiration Zoned.usEastern (Some t) estimate = Some te
    /\ "2025-11-03" = dateString te
    /\ (forall tmax,
           Zoned.plusDays Zoned.usEastern (Some t) (JNum 365) = Some tmax ->
           te <= tmax)
    /\ (Zoned.steady Zoned.usEastern ->
        te < t + 366 * msPerDay
        /\ (t mod msPerDay = 0 ->
            civil_le (civil te) (civil (t + 365 * msPerDay)))
        /\ (forall n, ToNumber (shelf_life estimate) = Some n -> 1 <= n ->
                      t < te /\ civil_le (civil t) (civil te))
        /\ (forall n, ToNumber (shelf_life estimate) = Some n -> n = 0 ->
                      te = Zoned.daysLater Zoned.usEastern t 0)
        /\ (getLLMEstimate FetchRejected = None ->
            t < te /\ civil_le (civil t) (civil te)))
    /\ ((forall u b, Zoned.usEastern u b = Zoned.usEastern 0 true) ->
        te <= t + 365 * msPerDay
        /\ civil_le (civil te) (civil (t + 365 * msPerDay))
        /\ (forall n, ToNumber (shelf_life estimate) = Some n -> 0 <= n ->
                      t <= te /\ civil_le (civil t) (civil te))).
Proof.
  apply (expiration_within_cap Zoned.usEastern Zoned.sampleParse FetchRejected
           {| name := "canned beans"; category := "Pantry";
              purchasedAt := "2024-11-02T23:30:00.000Z" |}
           {| estimatedExpirationAt := "2025-11-03";
              estimatedRestockAt := "2025-02-01";
              source := "heuristic" |}).
  vm_compute. reflexivity.
Defined.

(** C3, as stated, fails on the tag: an accepted oracle answer is reported
    with the source string "llm", not "external". *)
Lemma source_is_llm_not_external :
  exists r,
    estimateDates 0 Date_parse_iso
      (FetchResponse true (JsonValue (JNum 7) (JNum 7)))
      {| name := "milk"; category := "Dairy"; purchasedAt := "2024-01-01" |}
    = Fulfilled r
    /\ getLLMEstimate (FetchResponse true (JsonValue (JNum 7) (JNum 7)))
       = Some (days 7 7)
    /\ source r <> "external".
Proof.
  eexists. split; [vm_compute; reflexivity|].
  split; [reflexivity | simpl; discriminate].
Qed.

(** C3, amended.  A result carries source "llm" exactly when the oracle call
    produced the accepted pair and source "heuristic" exactly when the
    oracle call failed and the heuristic pair was accepted; no result
    carries any other source. *)
Theorem source_reflects_path :
  forall tza parse net input r,
    estimateDates tza parse net input = Fulfilled r ->
    (forall estimate, getLLMEstimate net = Some estimate ->
                      source r = "llm"
                      /\ fst (acceptedEstimate net input) = Some estimate)
    /\ (getLLMEstimate net = None ->
        source r = "heuristic"
        /\ fst (acceptedEstimate net input)
           = getHeuristicEstimate (name input) (category input))
    /\ (source r = "llm" \/ source r = "heuristic").
Proof.
  intros tza parse net input r H.
  apply estimateDates_Fulfilled in H.
  destruct H as [estimate [t [te [Hacc [Hparse [Hcap ->]]]]]].
  unfold acceptedEstimate in *. simpl source.
  destruct (getLLMEstimate net) as [e|]; simpl.
  - split; [|split].
    + intros e' E. injection E as <-. auto.
    + discriminate.
    + left. reflexivity.
  - split; [|split].
    + discriminate.
    + auto.
    + right. reflexivity.
Qed.

Lemma source_reflects_path_witness :
  (forall estimate,
      getLLMEstimate (FetchResponse false NotJson) = Some estimate ->
      "heuristic" = "llm"
      /\ fst (acceptedEstimate (FetchResponse false NotJson)
                {| name := "Whole Milk"; category := "Dairy";
                   purchasedAt := "2024-01-01" |}) = Some estimate)
  /\ (getLLMEstimate (FetchResponse false NotJson) = None ->
      "heuristic" = "heuristic"
      /\ fst (acceptedEstimate (FetchResponse false NotJson)
                {| name := "Whole Milk"; category := "Dairy";
                   purchasedAt := "2024-01-01" |})
         = getHeuristicEstimate "Whole Milk" "Dairy")
  /\ ("heuristic" = "llm" \/ "heuristic" = "heuristic").
Proof.
  apply (source_reflects_path 0 Date_parse_iso (FetchResponse false NotJson)
           {| name := "Whole Milk"; category := "Dairy";
              purchasedAt := "2024-01-01" |}
           {| estimatedExpirationAt := "2024-01-08";
              estimatedRestockAt := "2024-01-08";
              source := "heuristic" |}).
  vm_compute. reflexivity.
Defined.

(** C4.  For a category of the rule table, the resolver returns the pair of
    the first keyword, in the order the table lists them, that is a
    substring of the lower-cased name, and the category's default pair when
    no keyword is.  Under Meat, "frozen ground beef" contains "beef",
    "ground" and "frozen", in table order, and resolves to the pair of
    "beef". *)
Theorem first_keyword_wins :
  forall name category rules,
    ownRule HEURISTIC_RULES category = Some rules ->
    (forall pre keyword rule post,
        keywords rules = (pre ++ (keyword, rule) :: post)%list ->
        (exists a b, toLowerCase name = a ++ keyword ++ b) ->
        (forall kw' rule', In (kw', rule') pre ->
                           ~ exists a b, toLowerCase name = a ++ kw' ++ b) ->
        getHeuristicEstimate name category = Some rule)
    /\ ((forall kw rule, In (kw, rule) (keywords rules) ->
                         ~ exists a b, toLowerCase name = a ++ kw ++ b) ->
        getHeuristicEstimate name category = Some (default rules))
    /\ (category = "Meat" ->
        filter (fun kv => includes (toLowerCase "frozen ground beef") (fst kv))
               (keywords rules)
        = [("beef", days 3 10); ("ground", days 1 7); ("frozen", days 90 30)]
        /\ getHeuristicEstimate "frozen ground beef" category
           = Some (days 3 10)).
Proof.
  intros name category rules Hown.
  assert (forall kw, (~ exists a b, toLowerCase name = a ++ kw ++ b) ->
                     includes (toLowerCase name) kw = false) as Hno.
  { intros kw Hn. destruct (includes (toLowerCase name) kw) eqn:Hi;
      [|reflexivity].
    exfalso. apply Hn. apply includes_true_iff. exact Hi. }
  unfold getHeuristicEstimate, lookupRules. rewrite Hown.
  split; [|split].
  - intros pre keyword rule post Hk Hsub Hpre.
    rewrite Hk, firstKeyword_first; [reflexivity | |].
    + intros kw' rule' Hin. apply Hno. apply (Hpre kw' rule'). exact Hin.
    + apply includes_true_iff. exact Hsub.
  - intro Hnone. rewrite firstKeyword_none; [reflexivity|].
    intros kw rule Hin. apply Hno. apply (Hnone kw rule). exact Hin.
  - intros ->. vm_compute in Hown. injection Hown as <-.
    split; vm_compute; reflexivity.
Qed.

Lemma first_keyword_wins_witness :
  getHeuristicEstimate "Frozen Ground Beef" "Meat" = Some (days 3 10)
  /\ getHeuristicEstimate "Turkey" "Meat" = Some (days 2 7)
  /\ getHeuristicEstimate "frozen ground beef" "Meat" = Some (days 3 10).
Proof.
  pose (meat := {| default := days 2 7;
                   keywords :=
                     [ ("chicken", days 2 7); ("beef", days 3 10);
                       ("pork", days 3 10); ("fish", days 1 7);
                       ("ground", days 1 7); ("frozen", days 90 30) ] |}).
  split; [|split].
  - refine (proj1 (first_keyword_wins "Frozen Ground Beef" "Meat" meat eq_refl)
                  [("chicken", days 2 7)] "beef" (days 3 10)
                  [ ("pork", days 3 10); ("fish", days 1 7);
                    ("ground", days 1 7); ("frozen", days 90 30) ]
                  eq_refl _ _).
    + exists "frozen ground ", "". reflexivity.
    + intros kw' rule' [Hin | []]. injection Hin as <- <-.
      intro Hsub. apply includes_true_iff in Hsub. vm_compute in Hsub.
      discriminate Hsub.
  - refine (proj1 (proj2 (first_keyword_wins "Turkey" "Meat" meat eq_refl)) _).
    intros kw rule Hin Hsub. apply includes_true_iff in Hsub.
    simpl in Hin.
    repeat (destruct Hin as [Hin | Hin];
            [injection Hin as <- <-; vm_compute in Hsub; discriminate Hsub|]).
    exact Hin.
  - exact (proj2 (proj2 (proj2 (first_keyword_wins "x" "Meat" meat eq_refl))
                    eq_refl)).
Defined.

(** The oracle failures that [getLLMEstimate] turns into [null]: a rejected
    fetch, a status outside 2xx, a body that is not JSON, a JSON [null]. *)
Lemma getLLMEstimate_None (net : FetchOutcome) :
  getLLMEstimate net = None <->
  net = FetchRejected
  \/ (exists body, net = FetchResponse false body)
  \/ net = FetchResponse true NotJson
  \/ net = FetchResponse true JsonNullValue.
Proof.
  split.
  - destruct net as [|[|] [| |a b]]; simpl; intro H;
      try discriminate; eauto 6.
  - intros [-> | [[body ->] | [-> | ->]]]; reflexivity.
Qed.

(** C5, at the failing input: a 2xx answer whose JSON body lacks both
    day-count fields is not treated as unavailable; it is accepted as the
    oracle's pair and the call is rejected with a RangeError, for every
    input, parser and time zone. *)
Theorem missing_fields_rejected :
  forall tza parse input,
    getLLMEstimate (FetchResponse true (JsonValue JUndefined JUndefined))
    = Some {| shelf_life := JUndefined; restock := JUndefined |}
    /\ estimateDates tza parse
         (FetchResponse true (JsonValue JUndefined JUndefined)) input
       = Rejected RangeError.
Proof.
  intros tza parse input. split; [reflexivity|].
  unfold estimateDates.
  destruct (Date_of_string parse (purchasedAt input)); reflexivity.
Qed.

(** C6, as stated, fails: an empty name is not rejected. *)
Lemma empty_name_accepted :
  name {| name := ""; category := "Dairy"; purchasedAt := "2024-01-01" |} = ""
  /\ estimateDates 0 Date_parse_iso FetchRejected
       {| name := ""; category := "Dairy"; purchasedAt := "2024-01-01" |}
     = Fulfilled {| estimatedExpirationAt := "2024-01-08";
                    estimatedRestockAt := "2024-01-08";
                    source := "heuristic" |}
  /\ ~ (exists e,
           estimateDates 0 Date_parse_iso FetchRejected
             {| name := ""; category := "Dairy"; purchasedAt := "2024-01-01" |}
           = Rejected e).
Proof.
  split; [reflexivity|].
  split; [vm_compute; reflexivity|].
  intros [e He]. vm_compute in He. discriminate He.
Qed.

(** C6, amended.  A purchase date that does not parse is surfaced as a
    rejected call.  A name is never a reason for rejection: with the oracle
    unavailable, a category that is not a property name inherited from
    [Object.prototype] and a purchase date at least 730 days before the end
    of the range of time values, the call is fulfilled from the heuristic
    pair for every name, the empty one included; with an integer shelf-life
    count from the oracle whose raw and 365-day expirations are inside the
    range of time values, it is fulfilled from the oracle's pair. *)
Theorem unparseable_date_rejected_valid_input_completes :
  (forall tza parse net input,
      Date_of_string parse (purchasedAt input) = None ->
      exists e, estimateDates tza parse net input = Rejected e)
  /\ (forall tza parse net input t,
         getLLMEstimate net = None ->
         inheritedKey (category input) = false ->
         Date_of_string parse (purchasedAt input) = Some t ->
         t + 730 * msPerDay <= maxTime ->
         exists r, estimateDates tza parse net input = Fulfilled r
                   /\ source r = "heuristic")
  /\ (forall tza parse net input t s restockDays,
         getLLMEstimate net
         = Some {| shelf_life := JNum s; restock := restockDays |} ->
         Date_of_string parse (purchasedAt input) = Some t ->
         - maxTime <= t + s * msPerDay <= maxTime ->
         t + 365 * msPerDay <= maxTime ->
         exists r, estimateDates tza parse net input = Fulfilled r
                   /\ source r = "llm").
Proof.
  split; [|split].
  - intros tza parse net input Hparse.
    unfold estimateDates. rewrite Hparse.
    destruct (acceptedEstimate net input) as [[estimate|] src].
    + rewrite cappedExpiration_invalid, isoDate_invalid. eexists. reflexivity.
    + eexists. reflexivity.
  - intros tza parse net input t Hnet Hinh Hparse Hend.
    pose proof (Date_of_string_valid _ _ _ Hparse) as Ht.
    destruct (getHeuristicEstimate_total (name input) (category input) Hinh)
      as [e He].
    pose proof (getHeuristicEstimate_authored _ _ _ He) as Ha.
    apply authored_days in Ha. destruct Ha as [s [r [-> [Hs Hr]]]].
    assert (acceptedEstimate net input = (Some (days s r), "heuristic")) as Hacc.
    { unfold acceptedEstimate. rewrite Hnet, He. reflexivity. }
    eexists. split.
    + apply (estimateDates_days tza parse net input t s r).
      * rewrite Hacc. reflexivity.
      * exact Hparse.
      * unfold msPerDay in *. lia.
      * unfold msPerDay in *. lia.
    + rewrite Hacc. reflexivity.
  - intros tza parse net input t s restockDays Hnet Hparse Hs Hmax.
    pose proof (Date_of_string_valid _ _ _ Hparse) as Ht.
    assert (acceptedEstimate net input
            = (Some {| shelf_life := JNum s; restock := restockDays |}, "llm"))
      as Hacc.
    { unfold acceptedEstimate. rewrite Hnet. reflexivity. }
    eexists. split.
    + apply (estimateDates_complete tza parse net input
               {| shelf_life := JNum s; restock := restockDays |} t
               (t + Z.min s 365 * msPerDay)).
      * rewrite Hacc. reflexivity.
      * exact Hparse.
      * unfold cappedExpiration. cbn [shelf_life]. rewrite !plusDays_num.
        rewrite (TimeClip_in_range (t + s * msPerDay)) by exact Hs.
        rewrite (TimeClip_in_range (t + 365 * msPerDay))
          by (unfold msPerDay in *; lia).
        unfold js_gt.
        destruct (Z.ltb_spec (t + 365 * msPerDay) (t + s * msPerDay));
          f_equal; unfold msPerDay in *; lia.
    + rewrite Hacc. reflexivity.
Qed.

Lemma unparseable_date_rejected_valid_input_completes_witness :
  (exists e,
      estimateDates 0 Date_parse_iso FetchRejected
        {| name := "milk"; category := "Dairy"; purchasedAt := "yesterday" |}
      = Rejected e)
  /\ (exists r,
         estimateDates 0 Date_parse_iso FetchRejected
           {| name := ""; category := "Dairy"; purchasedAt := "2024-01-01" |}
         = Fulfilled r /\ source r = "heuristic")
  /\ (exists r,
         estimateDates 0 Date_parse_iso
           (FetchResponse true (JsonValue (JNum 12) JNull))
           {| name := "milk"; category := "Dairy"; purchasedAt := "2024-01-01" |}
         = Fulfilled r /\ source r = "llm").
Proof.
  split; [|split].
  - apply (proj1 unparseable_date_rejected_valid_input_completes
             0 Date_parse_iso FetchRejected
             {| name := "milk"; category := "Dairy"; purchasedAt := "yesterday" |}).
    reflexivity.
  - apply (proj1 (proj2 unparseable_date_rejected_valid_input_completes)
             0 Date_parse_iso FetchRejected
             {| name := ""; category := "Dairy"; purchasedAt := "2024-01-01" |}
             1704067200000).
    + reflexivity.
    + reflexivity.
    + reflexivity.
    + vm_compute. discriminate.
  - apply (proj2 (proj2 unparseable_date_rejected_valid_input_completes)
             0 Date_parse_iso
             (FetchResponse true (JsonValue (JNum 12) JNull))
             {| name := "milk"; category := "Dairy"; purchasedAt := "2024-01-01" |}
             1704067200000 12 JNull).
    + reflexivity.
    + reflexivity.
    + vm_compute. split; discriminate.
    + vm_compute. discriminate.
Defined.

(** C7.  For purchase date 2024-01-01 and an accepted shelf-life count of
    1000 days, whichever path produced the pair and whatever its restock
    count is, the call is fulfilled with [estimatedExpirationAt] equal to
    2024-12-31: 365 days after 2024-01-01, 2024 being a leap year. *)
Theorem cap_in_leap_year_2024 :
  forall tza net name category estimate src,
    acceptedEstimate net
      {| name := name; category := category; purchasedAt := "2024-01-01" |}
    = (Some estimate, src) ->
    shelf_life estimate = JNum 1000 ->
    exists r,
      estimateDates tza Date_parse_iso net
        {| name := name; category := category; purchasedAt := "2024-01-01" |}
      = Fulfilled r
      /\ estimatedExpirationAt r = "2024-12-31"
      /\ source r = src.
Proof.
  intros tza net name category estimate src Hacc Hshelf.
  eexists. split.
  - apply (estimateDates_complete tza Date_parse_iso net _ estimate
             1704067200000 (1704067200000 + 365 * msPerDay)).
    + rewrite Hacc. reflexivity.
    + reflexivity.
    + unfold cappedExpiration. rewrite Hshelf, !plusDays_num. reflexivity.
  - rewrite Hacc. split; [vm_compute|]; reflexivity.
Qed.

Lemma cap_in_leap_year_2024_witness :
  exists r,
    estimateDates (-18000000) Date_parse_iso
      (FetchResponse true (JsonValue (JNum 1000) (JNum 30)))
      {| name := "honey"; category := "Pantry"; purchasedAt := "2024-01-01" |}
    = Fulfilled r
    /\ estimatedExpirationAt r = "2024-12-31"
    /\ source r = "llm".
Proof.
  apply (cap_in_leap_year_2024 (-18000000)
           (FetchResponse true (JsonValue (JNum 1000) (JNum 30)))
           "honey" "Pantry" (days 1000 30) "llm").
  - reflexivity.
  - reflexivity.
Defined.

(** C8, at the failing input: "constructor" is not a category of the rule
    table, yet [HEURISTIC_RULES["constructor"]] is the inherited
    [Object] function, so the fallback branch is not taken; the resolver
    returns [undefined] instead of the pair of 30 and 30 days, and
    [estimateDates] is rejected with a TypeError when it reads
    [estimate.shelf_life]. *)
Theorem inherited_category_misses_fallback :
  forall tza parse purchased,
    ownRule HEURISTIC_RULES "constructor" = None
    /\ getHeuristicEstimate "milk" "constructor" = None
    /\ estimateDates tza parse FetchRejected
         {| name := "milk"; category := "constructor"; purchasedAt := purchased |}
       = Rejected TypeError.
Proof.
  intros tza parse purchased. repeat split; reflexivity.
Qed.

(** C9.  With a failing oracle, two calls of [estimateDates] with the same
    input, made one after the other on the heap of the loaded module (the
    second call runs on the heap the first one left), complete identically,
    however each oracle call failed.  There is no hidden state: a call
    reads the pairs of the rule table by reference, but it writes only to
    the [Date] objects it created itself, so that every object that existed
    before the call is unchanged after it; and what the call settles with
    is a function of the input alone, built from the heuristic pair of the
    input's name and category. *)
Theorem failing_oracle_deterministic :
  forall zone parse net1 net2 input more,
    getLLMEstimate net1 = None ->
    getLLMEstimate net2 = None ->
    let heap := (Stateful.moduleHeap ++ more)%list in
    let first :=
      Stateful.estimateDates zone parse Stateful.moduleRules net1 input heap in
    let second :=
      Stateful.estimateDates zone parse Stateful.moduleRules net2 input
                             (snd first) in
    fst first = fst second
    /\ async (fst first) = Zoned.estimateDates zone parse net1 input
    /\ acceptedEstimate net1 input
       = (getHeuristicEstimate (name input) (category input), "heuristic")
    /\ (exists created, snd first = (heap ++ created)%list)
    /\ (exists created, snd second = (snd first ++ created)%list).
Proof.
  intros zone parse net1 net2 input more Hnet1 Hnet2. cbv zeta.
  destruct (estimateDates_run zone parse net1 input more) as [H1 [made1 Hh1]].
  rewrite Hh1.
  assert (((Stateful.moduleHeap ++ more) ++ made1)%list
          = (Stateful.moduleHeap ++ (more ++ made1))%list) as Hassoc
      by (rewrite app_assoc; reflexivity).
  destruct (estimateDates_run zone parse net2 input (more ++ made1)%list)
    as [H2 [made2 Hh2]].
  rewrite <- Hassoc in H2, Hh2.
  split; [|split; [exact H1 | split; [|split]]].
  - apply async_injective. rewrite H1, H2.
    unfold Zoned.estimateDates, acceptedEstimate. rewrite Hnet1, Hnet2.
    reflexivity.
  - unfold acceptedEstimate. rewrite Hnet1. reflexivity.
  - exists made1. reflexivity.
  - exists made2. exact Hh2.
Qed.

Lemma failing_oracle_deterministic_witness :
  let heap := (Stateful.moduleHeap ++ [])%list in
  let first :=
    Stateful.estimateDates Zoned.usEastern Date_parse_iso Stateful.moduleRules
      FetchRejected
      {| name := "Chicken Breast"; category := "Meat";
         purchasedAt := "2024-01-01" |} heap in
  let second :=
    Stateful.estimateDates Zoned.usEastern Date_parse_iso Stateful.moduleRules
      (FetchResponse false NotJson)
      {| name := "Chicken Breast"; category := "Meat";
         purchasedAt := "2024-01-01" |} (snd first) in
  fst first = fst second
  /\ async (fst first)
     = Zoned.estimateDates Zoned.usEastern Date_parse_iso FetchRejected
         {| name := "Chicken Breast"; category := "Meat";
            purchasedAt := "2024-01-01" |}
  /\ acceptedEstimate FetchRejected
       {| name := "Chicken Breast"; category := "Meat";
          purchasedAt := "2024-01-01" |}
     = (getHeuristicEstimate "Chicken Breast" "Meat", "heuristic")
  /\ (exists created, snd first = (heap ++ created)%list)
  /\ (exists created, snd second = (snd first ++ created)%list).
Proof.
  apply (failing_oracle_deterministic Zoned.usEastern Date_parse_iso
           FetchRejected (FetchResponse false NotJson)
           {| name := "Chicken Breast"; category := "Meat";
              purchasedAt := "2024-01-01" |} []).
  - reflexivity.
  - reflexivity.
Defined.

(** C10.  Every pair the heuristic resolver returns has an integer restock
    count of at least 7 days (and an integer shelf life of at least 1 day),
    so a call fulfilled on the heuristic path reports a restock date that is
    not before the purchase date. *)
Theorem heuristic_restock_not_before_purchase :
  (forall name category estimate,
      getHeuristicEstimate name category = Some estimate ->
      exists s r, estimate = days s r /\ 1 <= s /\ 7 <= r)
  /\ (forall tza parse net input r,
         getLLMEstimate net = None ->
         estimateDates tza parse net input = Fulfilled r ->
         exists t tr,
           Date_of_string parse (purchasedAt input) = Some t
           /\ estimatedRestockAt r = dateString tr
           /\ t <= tr
           /\ civil_le (civil t) (civil tr)).
Proof.
  split.
  - intros name category estimate H.
    apply getHeuristicEstimate_authored, authored_days in H.
    destruct H as [s [r [-> [Hs Hr]]]]. exists s, r. split; [reflexivity | lia].
  - intros tza parse net input r Hnet H.
    apply estimateDates_Fulfilled in H.
    destruct H as [estimate [t [te [Hacc [Hparse [Hcap ->]]]]]].
    pose proof (Date_of_string_valid _ _ _ Hparse) as Ht.
    unfold acceptedEstimate in Hacc. rewrite Hnet in Hacc. simpl in Hacc.
    apply getHeuristicEstimate_authored, authored_days in Hacc.
    destruct Hacc as [s [r0 [-> [Hs Hr]]]].
    destruct (cappedExpiration_Some tza t (days s r0) te Ht Hcap)
      as [n [Hn [Hte _]]].
    simpl in Hn. injection Hn as <-.
    unfold days. cbn [restock estimatedRestockAt]. rewrite plusDays_num.
    assert (t <= match TimeClip (t + r0 * msPerDay) with
                 | Some raw => Z.min te raw
                 | None => te
                 end) as Hle.
    { destruct (TimeClip (t + r0 * msPerDay)) as [raw|] eqn:Eraw.
      - apply TimeClip_Some in Eraw. unfold msPerDay in *. lia.
      - unfold msPerDay in *. lia. }
    eexists t, _. split; [exact Hparse|]. split; [reflexivity|].
    split; [exact Hle | apply civil_mono; exact Hle].
Qed.

Lemma heuristic_restock_not_before_purchase_witness :
  (exists s r, days 14 10 = days s r /\ 1 <= s /\ 7 <= r)
  /\ (exists t tr,
         Date_of_string Date_parse_iso "2024-01-01" = Some t
         /\ "2024-01-11" = dateString tr
         /\ t <= tr
         /\ civil_le (civil t) (civil tr)).
Proof.
  split.
  - apply (proj1 heuristic_restock_not_before_purchase "Greek Yogurt" "Dairy"
             (days 14 10)).
    reflexivity.
  - apply (proj2 heuristic_restock_not_before_purchase 0 Date_parse_iso
             (FetchResponse false NotJson)
             {| name := "Greek Yogurt"; category := "Dairy";
                purchasedAt := "2024-01-01" |}
             {| estimatedExpirationAt := "2024-01-15";
                estimatedRestockAt := "2024-01-11";
                source := "heuristic" |}).
    + reflexivity.
    + vm_compute. reflexivity.
Defined.

(** * Further properties of the code *)

(** ** Dates: printing, parsing and the host zone *)

Section DateRoundTrip.

Lemma digitValue_digitChar (x : Z) :
  0 <= x <= 9 -> digitValue (digitChar x) = Some x.
Proof.
  intro H.
  assert (x = 0 \/ x = 1 \/ x = 2 \/ x = 3 \/ x = 4 \/ x = 5 \/ x = 6
          \/ x = 7 \/ x = 8 \/ x = 9) as Hc by lia.
  repeat destruct Hc as [Hc | Hc]; subst x; reflexivity.
Qed.

Lemma pad2_chars (n : Z) :
  list_ascii_of_string (pad 2 n)
  = [digitChar ((n / 10) mod 10); digitChar (n mod 10)].
Proof. reflexivity. Qed.

Lemma pad4_chars (n : Z) :
  list_ascii_of_string (pad 4 n)
  = [digitChar ((n / 10 / 10 / 10) mod 10); digitChar ((n / 10 / 10) mod 10);
     digitChar ((n / 10) mod 10); digitChar (n mod 10)].
Proof. reflexivity. Qed.

Lemma list_ascii_of_string_app (a b : string) :
  list_ascii_of_string (a ++ b)
  = (list_ascii_of_string a ++ list_ascii_of_string b)%list.
Proof.
  induction a as [|c a IH]; simpl; [reflexivity|]. rewrite IH. reflexivity.
Qed.

Lemma digitsValue2 (n : Z) :
  0 <= n <= 99 ->
  digitsValue [digitChar ((n / 10) mod 10); digitChar (n mod 10)] 0 = Some n.
Proof.
  intro H. unfold digitsValue.
  rewrite !digitValue_digitChar by (Z.to_euclidean_division_equations; lia).
  f_equal. Z.to_euclidean_division_equations. lia.
Qed.

Lemma digitsValue4 (n : Z) :
  0 <= n <= 9999 ->
  digitsValue [digitChar ((n / 10 / 10 / 10) mod 10);
               digitChar ((n / 10 / 10) mod 10);
               digitChar ((n / 10) mod 10); digitChar (n mod 10)] 0 = Some n.
Proof.
  intro H. unfold digitsValue.
  rewrite !digitValue_digitChar by (Z.to_euclidean_division_equations; lia).
  f_equal. Z.to_euclidean_division_equations. lia.
Qed.

Lemma DayWithinYear_range (t : Z) :
  0 <= DayWithinYear t < 365 + InLeapYear t.
Proof.
  unfold DayWithinYear, InLeapYear, YearFromTime.
  pose proof (YearFromDay_spec (Day t)) as H.
  rewrite DayFromYear_succ in H.
  assert (DaysInYear (YearFromDay (Day t))
          = 365 + (if DaysInYear (YearFromDay (Day t)) =? 366 then 1 else 0))
    as E.
  { generalize (YearFromDay (Day t)). intro y. unfold DaysInYear.
    destruct (negb (y mod 4 =? 0)), (negb (y mod 100 =? 0)),
      (negb (y mod 400 =? 0)); reflexivity. }
  lia.
Qed.

Lemma InLeapYear_01 (t : Z) : InLeapYear t = 0 \/ InLeapYear t = 1.
Proof. unfold InLeapYear. destruct (_ =? _); auto. Qed.

Lemma DateFromTime_range (t : Z) : 1 <= DateFromTime t <= 31.
Proof.
  pose proof (DayWithinYear_range t) as Hd.
  pose proof (InLeapYear_01 t) as Hl.
  unfold DateFromTime, MonthFromTime.
  generalize dependent (DayWithinYear t). generalize dependent (InLeapYear t).
  intros l Hl d Hd.
  repeat match goal with
         | |- context [?a <? ?b] => destruct (Z.ltb_spec a b)
         end; cbv iota; lia.
Qed.

Lemma Day_range_of_year (t : Z) :
  0 <= YearFromTime t <= 9999 -> -719528 <= Day t < 2932897.
Proof.
  intro H. unfold YearFromTime in H.
  pose proof (YearFromDay_spec (Day t)) as Hs.
  pose proof (DayFromYear_mono 0 (YearFromDay (Day t)) ltac:(lia)) as H0.
  pose proof (DayFromYear_mono (YearFromDay (Day t) + 1) 10000 ltac:(lia)) as H1.
  change (DayFromYear 0) with (-719528) in H0.
  change (DayFromYear 10000) with 2932897 in H1.
  lia.
Qed.

(** The date-only string of an instant parses back to the UTC midnight of
    the instant's day. *)
Lemma Date_parse_iso_dateString (t : Z) :
  0 <= YearFromTime t <= 9999 ->
  Date_parse_iso (dateString t) = Some (Day t * msPerDay).
Proof.
  intro Hy.
  pose proof (MonthFromTime_range t) as Hm.
  pose proof (DateFromTime_range t) as Hd.
  pose proof (Day_range_of_year t Hy) as HD.
  unfold Date_parse_iso, dateString, civil, yearString.
  replace ((0 <=? YearFromTime t) && (YearFromTime t <=? 9999)) with true
    by (symmetry; apply andb_true_iff; split; apply Z.leb_le; lia).
  rewrite !list_ascii_of_string_app, pad4_chars, !pad2_chars.
  cbn [list_ascii_of_string app Ascii.eqb Bool.eqb andb].
  rewrite digitsValue4 by exact Hy.
  rewrite !digitsValue2 by lia.
  replace ((1 <=? MonthFromTime t + 1) && (MonthFromTime t + 1 <=? 12)
           && (1 <=? DateFromTime t) && (DateFromTime t <=? 31)) with true
    by (symmetry; rewrite !andb_true_iff; repeat split; apply Z.leb_le; lia).
  replace (MonthFromTime t + 1 - 1) with (MonthFromTime t) by lia.
  pose proof (MakeDay_shift t 0) as Hs. rewrite !Z.add_0_r in Hs. rewrite Hs.
  unfold MakeDate. rewrite Z.add_0_r.
  apply TimeClip_in_range. unfold maxTime, msPerDay. lia.
Qed.

Lemma Date_of_string_dateString (t : Z) :
  0 <= YearFromTime t <= 9999 ->
  Date_of_string Date_parse_iso (dateString t) = Some (Day t * msPerDay).
Proof.
  intro Hy. pose proof (Day_range_of_year t Hy) as HD.
  unfold Date_of_string. rewrite Date_parse_iso_dateString by exact Hy.
  apply TimeClip_in_range. unfold maxTime, msPerDay. lia.
Qed.

Lemma dateString_not_empty (t : Z) :
  0 <= YearFromTime t <= 9999 -> dateString t <> "".
Proof.
  intros Hy E. pose proof (Date_parse_iso_dateString t Hy) as H.
  rewrite E in H. discriminate H.
Qed.

Lemma plusDays_zone (tza tza' : Z) (d : jsnum) (v : jsval) :
  plusDays tza d v = plusDays tza' d v.
Proof.
  destruct d as [t|]; [|reflexivity].
  destruct v as [| |n].
  - rewrite !plusDays_undefined. reflexivity.
  - rewrite !plusDays_null. reflexivity.
  - rewrite !plusDays_num. reflexivity.
Qed.

End DateRoundTrip.

(** X1.  The printed date of an instant, read back by [new Date(...)] in its
    date-only ISO form, is the UTC midnight of that instant's day: printing
    a date and parsing it again forgets the time of day and nothing else.
    The receipt scanner relies on this when it hands
    [new Date().toISOString().split('T')[0]] to [estimateDates]. *)
Theorem iso_date_round_trip :
  forall t,
    0 <= YearFromTime t <= 9999 ->
    isoDate (Some t) = Fulfilled (dateString t)
    /\ Date_of_string Date_parse_iso (dateString t) = Some (Day t * msPerDay)
    /\ dateString (Day t * msPerDay) = dateString t.
Proof.
  intros t Hy.
  pose proof (Day_range_of_year t Hy) as HD.
  split; [apply isoDate_valid|]. split.
  - unfold Date_of_string. rewrite Date_parse_iso_dateString by exact Hy.
    apply TimeClip_in_range. unfold maxTime, msPerDay. lia.
  - assert (Day (Day t * msPerDay) = Day t) as E
        by (unfold Day; apply Z.div_mul; unfold msPerDay; lia).
    unfold dateString, civil, DateFromTime, MonthFromTime, DayWithinYear,
      InLeapYear, YearFromTime.
    rewrite E. reflexivity.
Qed.

Lemma iso_date_round_trip_witness :
  isoDate (Some 1718712345678) = Fulfilled "2024-06-18"
  /\ Date_of_string Date_parse_iso "2024-06-18" = Some (19892 * msPerDay)
  /\ dateString (19892 * msPerDay) = "2024-06-18".
Proof.
  apply (iso_date_round_trip 1718712345678). vm_compute. split; discriminate.
Defined.

Lemma heuristic_closed_form (tza : Z) (parse : string -> jsnum)
      (net : FetchOutcome) (input : EstimateDatesInput) (t s r : Z) :
  getLLMEstimate net = None ->
  getHeuristicEstimate (name input) (category input) = Some (days s r) ->
  Date_of_string parse (purchasedAt input) = Some t ->
  t + 730 * msPerDay <= maxTime ->
  estimateDates tza parse net input
  = Fulfilled
      {| estimatedExpirationAt := dateString (t + Z.min s 365 * msPerDay);
         estimatedRestockAt :=
           dateString (t + Z.min r (Z.min s 365) * msPerDay);
         source := "heuristic" |}.
Proof.
  intros Hnet Hh Hparse Hend.
  pose proof (Date_of_string_valid _ _ _ Hparse) as Ht.
  pose proof (getHeuristicEstimate_authored _ _ _ Hh) as Ha.
  apply authored_days in Ha. destruct Ha as [s' [r' [E [Hs Hr]]]].
  injection E as <- <-.
  assert (acceptedEstimate net input = (Some (days s r), "heuristic")) as Hacc.
  { unfold acceptedEstimate. rewrite Hnet, Hh. reflexivity. }
  rewrite (estimateDates_days tza parse net input t s r).
  - rewrite Hacc. cbn [snd].
    rewrite (TimeClip_in_range (t + r * msPerDay))
      by (unfold msPerDay, maxTime in *; lia).
    do 3 f_equal. unfold msPerDay. lia.
  - rewrite Hacc. reflexivity.
  - exact Hparse.
  - unfold msPerDay, maxTime in *. lia.
  - unfold msPerDay, maxTime in *. lia.
Qed.

(** With two integer day counts and a steady zone, the result is given by
    the dates set [min s 365] and [r] local days after the purchase. *)
Lemma zoned_estimateDates_days (zone : Z -> bool -> Z) (parse : string -> jsnum)
      (net : FetchOutcome) (input : EstimateDatesInput) (t s r : Z) :
  Zoned.steady zone ->
  fst (acceptedEstimate net input) = Some (days s r) ->
  Date_of_string parse (purchasedAt input) = Some t ->
  - maxTime <= Zoned.daysLater zone t s <= maxTime ->
  Zoned.daysLater zone t 365 <= maxTime ->
  Zoned.estimateDates zone parse net input
  = Fulfilled
      {| estimatedExpirationAt :=
           dateString (Zoned.daysLater zone t (Z.min s 365));
         estimatedRestockAt :=
           dateString
             (match TimeClip (Zoned.daysLater zone t r) with
              | Some raw => Z.min (Zoned.daysLater zone t (Z.min s 365)) raw
              | None => Zoned.daysLater zone t (Z.min s 365)
              end);
         source := snd (acceptedEstimate net input) |}.
Proof.
  intros Hz Hacc Hparse Hs Hmax.
  pose proof (Date_of_string_valid _ _ _ Hparse) as Ht.
  pose proof (daysLater_near zone t 365 Hz) as H365.
  rewrite (zoned_estimateDates_complete zone parse net input (days s r) t
             (Zoned.daysLater zone t (Z.min s 365)) Hacc Hparse).
  - unfold days. cbn [restock]. rewrite zoned_plusDays_num. reflexivity.
  - unfold Zoned.cappedExpiration, days. cbn [shelf_life].
    rewrite !zoned_plusDays_num.
    rewrite (TimeClip_in_range (Zoned.daysLater zone t s)) by exact Hs.
    rewrite (TimeClip_in_range (Zoned.daysLater zone t 365))
      by (unfold msPerDay, maxTime in *; lia).
    unfold js_gt.
    destruct (Z.lt_trichotomy s 365) as [Hlt | [Heq | Hgt]].
    + pose proof (daysLater_lt zone t s 365 Hz Hlt).
      destruct (Z.ltb_spec (Zoned.daysLater zone t 365)
                           (Zoned.daysLater zone t s)); [lia|].
      replace (Z.min s 365) with s by lia. reflexivity.
    + subst s. rewrite Z.ltb_irrefl. reflexivity.
    + pose proof (daysLater_lt zone t 365 s Hz Hgt).
      destruct (Z.ltb_spec (Zoned.daysLater zone t 365)
                           (Zoned.daysLater zone t s)); [|lia].
      replace (Z.min s 365) with 365 by lia. reflexivity.
Qed.

Lemma daysLater_min (zone : Z -> bool -> Z) (t n m : Z) :
  Zoned.steady zone ->
  Z.min (Zoned.daysLater zone t n) (Zoned.daysLater zone t m)
  = Zoned.daysLater zone t (Z.min m n).
Proof.
  intro Hz. destruct (Z.lt_trichotomy n m) as [Hlt | [Heq | Hgt]].
  - pose proof (daysLater_lt zone t n m Hz Hlt).
    replace (Z.min m n) with n by lia. lia.
  - subst m. rewrite !Z.min_id. reflexivity.
  - pose proof (daysLater_lt zone t m n Hz Hgt).
    replace (Z.min m n) with m by lia. lia.
Qed.

(** With the oracle unavailable, in a steady zone: the two dates are the
    dates set [min s 365] and [min r (min s 365)] local days after the
    purchase. *)
Lemma zoned_heuristic_closed_form (zone : Z -> bool -> Z)
      (parse : string -> jsnum) (net : FetchOutcome)
      (input : EstimateDatesInput) (t s r : Z) :
  Zoned.steady zone ->
  getLLMEstimate net = None ->
  getHeuristicEstimate (name input) (category input) = Some (days s r) ->
  Date_of_string parse (purchasedAt input) = Some t ->
  t + 731 * msPerDay <= maxTime ->
  Zoned.estimateDates zone parse net input
  = Fulfilled
      {| estimatedExpirationAt :=
           dateString (Zoned.daysLater zone t (Z.min s 365));
         estimatedRestockAt :=
           dateString (Zoned.daysLater zone t (Z.min r (Z.min s 365)));
         source := "heuristic" |}.
Proof.
  intros Hz Hnet Hh Hparse Hend.
  pose proof (Date_of_string_valid _ _ _ Hparse) as Ht.
  pose proof (getHeuristicEstimate_authored _ _ _ Hh) as Ha.
  apply authored_days in Ha. destruct Ha as [s' [r' [E [Hs Hr]]]].
  injection E as <- <-.
  assert (acceptedEstimate net input = (Some (days s r), "heuristic")) as Hacc.
  { unfold acceptedEstimate. rewrite Hnet, Hh. reflexivity. }
  pose proof (daysLater_near zone t s Hz) as Hns.
  pose proof (daysLater_near zone t r Hz) as Hnr.
  pose proof (daysLater_near zone t 365 Hz) as Hn365.
  rewrite (zoned_estimateDates_days zone parse net input t s r Hz).
  - rewrite Hacc. cbn [snd].
    rewrite (TimeClip_in_range (Zoned.daysLater zone t r))
      by (unfold msPerDay, maxTime in *; lia).
    rewrite daysLater_min by exact Hz. reflexivity.
  - rewrite Hacc. reflexivity.
  - exact Hparse.
  - unfold msPerDay, maxTime in *. lia.
  - unfold msPerDay, maxTime in *. lia.
Qed.

(** X2.  Two hosts whose zones have no offset transitions, and which read
    the purchase date as the same instant, return the same result: the day
    arithmetic goes through local time, but a fixed offset cancels out.
    A zone with transitions does not: for a frozen pizza bought on
    2024-01-01 a host on UTC reports the expiration 2024-03-31, and a host
    on US Eastern time, where the clock has moved forward by then,
    2024-03-30. *)
Theorem estimateDates_zone_independent :
  (forall c c' parse parse' net input,
      parse (purchasedAt input) = parse' (purchasedAt input) ->
      Zoned.estimateDates (fun _ _ => c) parse net input
      = Zoned.estimateDates (fun _ _ => c') parse' net input)
  /\ Zoned.estimateDates (fun _ _ => 0) Date_parse_iso FetchRejected
       {| name := "Frozen Pizza"; category := "Frozen";
          purchasedAt := "2024-01-01" |}
     = Fulfilled {| estimatedExpirationAt := "2024-03-31";
                    estimatedRestockAt := "2024-01-31";
                    source := "heuristic" |}
  /\ Zoned.estimateDates Zoned.usEastern Date_parse_iso FetchRejected
       {| name := "Frozen Pizza"; category := "Frozen";
          purchasedAt := "2024-01-01" |}
     = Fulfilled {| estimatedExpirationAt := "2024-03-30";
                    estimatedRestockAt := "2024-01-31";
                    source := "heuristic" |}.
Proof.
  split; [|split; vm_compute; reflexivity].
  intros c c' parse parse' net input Hparse.
  rewrite !constant_zone.
  unfold estimateDates, cappedExpiration, Date_of_string.
  rewrite Hparse.
  destruct (acceptedEstimate net input) as [[estimate|] src]; [|reflexivity].
  rewrite (plusDays_zone c c' _ (shelf_life estimate)).
  rewrite (plusDays_zone c c' _ (JNum 365)).
  rewrite (plusDays_zone c c' _ (restock estimate)).
  reflexivity.
Qed.

Lemma estimateDates_zone_independent_witness :
  Zoned.estimateDates (fun _ _ => 3600000) Zoned.sampleParse
    (FetchResponse true (JsonValue (JNum 10) (JNum 4)))
    {| name := "milk"; category := "Dairy";
       purchasedAt := "2024-11-02T23:30:00.000Z" |}
  = Zoned.estimateDates (fun _ _ => -18000000)
      (fun _ => Some 1730590200000)
      (FetchResponse true (JsonValue (JNum 10) (JNum 4)))
      {| name := "milk"; category := "Dairy";
         purchasedAt := "2024-11-02T23:30:00.000Z" |}.
Proof.
  apply (proj1 estimateDates_zone_independent 3600000 (-18000000)
           Zoned.sampleParse (fun _ => Some 1730590200000)
           (FetchResponse true (JsonValue (JNum 10) (JNum 4)))
           {| name := "milk"; category := "Dairy";
              purchasedAt := "2024-11-02T23:30:00.000Z" |}).
  reflexivity.
Defined.

(** X3.  With the oracle unavailable, in a zone whose offsets differ by
    less than a day, the result is a plain function of the rule table: for
    the pair of [s] shelf-life days and [r] restock days that the resolver
    returns, the expiration is the date set [min s 365] local calendar days
    after the purchase and the restock date the one set the smaller of [r]
    and [min s 365] local days after it.  That date is the purchase
    instant plus that many days where the zone has the same offset at both
    ends; for a purchase at UTC midnight it prints as the purchase date
    plus that many days, or one day less. *)
Theorem heuristic_result_closed_form :
  forall zone parse net input t s r,
    Zoned.steady zone ->
    getLLMEstimate net = None ->
    getHeuristicEstimate (name input) (category input) = Some (days s r) ->
    Date_of_string parse (purchasedAt input) = Some t ->
    t + 731 * msPerDay <= maxTime ->
    Zoned.estimateDates zone parse net input
    = Fulfilled
        {| estimatedExpirationAt :=
             dateString (Zoned.daysLater zone t (Z.min s 365));
           estimatedRestockAt :=
             dateString (Zoned.daysLater zone t (Z.min r (Z.min s 365)));
           source := "heuristic" |}
    /\ (forall n,
           zone (Zoned.LocalTime zone t + n * msPerDay) false = zone t true ->
           Zoned.daysLater zone t n = t + n * msPerDay)
    /\ (forall n,
           t mod msPerDay = 0 ->
           dateString (Zoned.daysLater zone t n)
           = dateString (t + n * msPerDay)
           \/ dateString (Zoned.daysLater zone t n)
              = dateString (t + (n - 1) * msPerDay)).
Proof.
  intros zone parse net input t s r Hz Hnet Hh Hparse Hend.
  split; [exact (zoned_heuristic_closed_form zone parse net input t s r
                   Hz Hnet Hh Hparse Hend)|].
  split; [intros n Hn; exact (daysLater_same_offset zone t n Hn)|].
  intros n Hmid. pose proof (daysLater_near zone t n Hz) as Hnear.
  destruct (Z.le_gt_cases (t + n * msPerDay) (Zoned.daysLater zone t n)).
  - left. apply dateString_of_Day. unfold Day, msPerDay in *.
    Z.to_euclidean_division_equations. lia.
  - right. apply dateString_of_Day. unfold Day, msPerDay in *.
    Z.to_euclidean_division_equations. lia.
Qed.

Lemma heuristic_result_closed_form_witness :
  Zoned.estimateDates Zoned.usEastern Date_parse_iso (FetchResponse false NotJson)
    {| name := "Frozen Pizza"; category := "Frozen";
       purchasedAt := "2024-01-01" |}
  = Fulfilled
      {| estimatedExpirationAt :=
           dateString (Zoned.daysLater Zoned.usEastern 1704067200000
                                       (Z.min 90 365));
         estimatedRestockAt :=
           dateString (Zoned.daysLater Zoned.usEastern 1704067200000
                                       (Z.min 30 (Z.min 90 365)));
         source := "heuristic" |}.
Proof.
  refine (proj1 (heuristic_result_closed_form Zoned.usEastern Date_parse_iso
                   (FetchResponse false NotJson)
                   {| name := "Frozen Pizza"; category := "Frozen";
                      purchasedAt := "2024-01-01" |}
                   1704067200000 90 30 usEastern_steady _ _ _ _)).
  - reflexivity.
  - reflexivity.
  - reflexivity.
  - vm_compute. discriminate.
Defined.

(** X4.  Whenever a call is fulfilled from a pair of integer day counts
    [s] and [r], in a zone whose offsets differ by less than a day: if the
    restock count is not below the capped shelf life, the two reported
    dates are the same string; if it is not above it, the restock date is
    the date set [r] local calendar days after the purchase (as long as
    that date exists). *)
Theorem restock_clamped_to_expiration :
  forall zone parse net input res s r,
    Zoned.steady zone ->
    Zoned.estimateDates zone parse net input = Fulfilled res ->
    fst (acceptedEstimate net input) = Some (days s r) ->
    (Z.min s 365 <= r -> estimatedRestockAt res = estimatedExpirationAt res)
    /\ (forall t,
           Date_of_string parse (purchasedAt input) = Some t ->
           r <= Z.min s 365 ->
           - maxTime <= Zoned.daysLater zone t r ->
           estimatedRestockAt res = dateString (Zoned.daysLater zone t r)).
Proof.
  intros zone parse net input res s r Hz H Hacc.
  apply zoned_estimateDates_Fulfilled in H.
  destruct H as [estimate [t [te [Hacc' [Hparse [Hcap ->]]]]]].
  rewrite Hacc in Hacc'. injection Hacc' as <-.
  pose proof (Date_of_string_valid _ _ _ Hparse) as Ht.
  destruct (zoned_cappedExpiration_Some zone t (days s r) te Hz (proj1 Ht) Hcap)
    as [n [Hn [Hte Hr]]].
  simpl in Hn. injection Hn as <-.
  unfold days. cbn [restock estimatedRestockAt estimatedExpirationAt].
  rewrite zoned_plusDays_num.
  split.
  - intro Hle.
    destruct (TimeClip (Zoned.daysLater zone t r)) as [raw|] eqn:Eraw;
      [|reflexivity].
    apply TimeClip_Some in Eraw. destruct Eraw as [-> _].
    rewrite Hte, daysLater_min by exact Hz.
    replace (Z.min r (Z.min s 365)) with (Z.min s 365) by lia. reflexivity.
  - intros t' Ht' Hle Hlow. rewrite Hparse in Ht'. injection Ht' as <-.
    assert (Zoned.daysLater zone t r <= te) as Hrt.
    { rewrite Hte. pose proof (daysLater_min zone t (Z.min s 365) r Hz) as Hm.
      replace (Z.min r (Z.min s 365)) with r in Hm by lia. lia. }
    rewrite (TimeClip_in_range (Zoned.daysLater zone t r)) by lia.
    f_equal. lia.
Qed.

Lemma restock_clamped_to_expiration_witness :
  "2024-01-04" = "2024-01-04"
  /\ "2024-03-19" = dateString (Zoned.daysLater Zoned.usEastern 1709251200000 19).
Proof.
  split.
  - refine (proj1 (restock_clamped_to_expiration Zoned.usEastern Date_parse_iso
                     FetchRejected
                     {| name := "Beef Stew"; category := "Meat";
                        purchasedAt := "2024-01-01" |}
                     {| estimatedExpirationAt := "2024-01-04";
                        estimatedRestockAt := "2024-01-04";
                        source := "heuristic" |} 3 10 usEastern_steady _ _) _).
    + vm_compute. reflexivity.
    + reflexivity.
    + vm_compute. discriminate.
  - refine (proj2 (restock_clamped_to_expiration Zoned.usEastern Date_parse_iso
                     (FetchResponse true (JsonValue (JNum 25) (JNum 19)))
                     {| name := "Eggs"; category := "Dairy";
                        purchasedAt := "2024-03-01" |}
                     {| estimatedExpirationAt := "2024-03-25";
                        estimatedRestockAt := "2024-03-19";
                        source := "llm" |} 25 19 usEastern_steady _ _)
                  1709251200000 _ _ _).
    + vm_compute. reflexivity.
    + reflexivity.
    + reflexivity.
    + vm_compute. discriminate.
    + vm_compute. discriminate.
Defined.

(** X5.  No keyword of the rule table is shadowed by an earlier keyword of
    its category: an item named exactly like a keyword gets that keyword's
    own pair. *)
Theorem every_keyword_is_live :
  forall category rules keyword rule,
    ownRule HEURISTIC_RULES category = Some rules ->
    In (keyword, rule) (keywords rules) ->
    getHeuristicEstimate keyword category = Some rule.
Proof.
  intros category rules keyword rule Hown Hin.
  pose proof (ownRule_In _ _ _ Hown) as Ht.
  unfold HEURISTIC_RULES in Ht. simpl in Ht.
  repeat (destruct Ht as [Ht | Ht];
          [injection Ht as <- <-; simpl in Hin;
           repeat (destruct Hin as [Hin | Hin];
                   [injection Hin as <- <-; vm_compute; reflexivity|]);
           contradiction|]).
  contradiction.
Qed.

Lemma every_keyword_is_live_witness :
  getHeuristicEstimate "ice cream" "Frozen" = Some (days 60 30).
Proof.
  apply (every_keyword_is_live "Frozen"
           {| default := days 90 30;
              keywords :=
                [ ("ice cream", days 60 30); ("vegetables", days 180 60);
                  ("fruit", days 180 60); ("pizza", days 90 30) ] |}
           "ice cream" (days 60 30)).
  - reflexivity.
  - left. reflexivity.
Defined.


(** ** The service on the heap *)

(** X28.  Whatever the oracle answers, [estimateDates] run on the heap of
    the loaded module (and whatever other objects the heap holds) settles
    as the zoned function of its input does, and it leaves every object
    that existed before the call as it was: the pairs of the rule table,
    which the heuristic path reads by reference, are never written to, and
    [setDate] and [setTime] only reach [Date] objects that the call created
    itself. *)
Theorem estimateDates_writes_only_its_own_objects :
  forall zone parse net input more,
    let heap := (Stateful.moduleHeap ++ more)%list in
    let run :=
      Stateful.estimateDates zone parse Stateful.moduleRules net input heap in
    async (fst run) = Zoned.estimateDates zone parse net input
    /\ (exists created, snd run = (heap ++ created)%list)
    /\ (forall a o, nth_error heap a = Some o -> nth_error (snd run) a = Some o).
Proof.
  intros zone parse net input more. cbv zeta.
  destruct (estimateDates_run zone parse net input more) as [Hres [created Hheap]].
  split; [exact Hres|]. split; [exists created; exact Hheap|].
  intros a o Ha. rewrite Hheap. apply nth_error_old. exact Ha.
Qed.


(** ** The guarantees of the service in zones with transitions *)

(** X29.  In every host zone, whatever its transitions, a fulfilled call
    reports a restock date that is not after the expiration date, as
    instants and as printed dates.  In a zone whose offsets differ by less
    than a day, a call fulfilled on the heuristic path reports a restock
    date after the purchase instant. *)
Theorem restock_bounds_in_every_zone :
  forall zone parse net input r,
    Zoned.estimateDates zone parse net input = Fulfilled r ->
    exists t te tr,
      Date_of_string parse (purchasedAt input) = Some t
      /\ estimatedExpirationAt r = dateString te
      /\ estimatedRestockAt r = dateString tr
      /\ tr <= te
      /\ civil_le (civil tr) (civil te)
      /\ (Zoned.steady zone -> getLLMEstimate net = None ->
          t < tr /\ civil_le (civil t) (civil tr)).
Proof.
  intros zone parse net input r H.
  apply zoned_estimateDates_Fulfilled in H.
  destruct H as [estimate [t [te [Hacc [Hparse [Hcap ->]]]]]].
  pose proof (Date_of_string_valid _ _ _ Hparse) as Ht.
  exists t, te. eexists.
  split; [exact Hparse|]. split; [reflexivity|]. split; [reflexivity|].
  assert (match Zoned.plusDays zone (Some t) (restock estimate) with
          | Some raw => Z.min te raw
          | None => te
          end <= te) as Hle
      by (destruct (Zoned.plusDays zone (Some t) (restock estimate)); lia).
  split; [exact Hle|]. split; [apply civil_mono; exact Hle|].
  intros Hz Hnet. unfold acceptedEstimate in Hacc. rewrite Hnet in Hacc.
  simpl in Hacc.
  apply getHeuristicEstimate_authored, authored_days in Hacc.
  destruct Hacc as [s [r0 [-> [Hs Hr]]]].
  destruct (zoned_cappedExpiration_Some zone t (days s r0) te Hz (proj1 Ht) Hcap)
    as [n [Hn [Hte _]]].
  simpl in Hn. injection Hn as <-.
  pose proof (daysLater_near zone t (Z.min s 365) Hz) as Hnear.
  pose proof (daysLater_near zone t r0 Hz) as Hnear'.
  unfold days. cbn [restock]. rewrite zoned_plusDays_num.
  assert (t < match TimeClip (Zoned.daysLater zone t r0) with
              | Some raw => Z.min te raw
              | None => te
              end) as Hlt.
  { destruct (TimeClip (Zoned.daysLater zone t r0)) as [raw|] eqn:Eraw.
    - apply TimeClip_Some in Eraw. unfold msPerDay in *. lia.
    - unfold msPerDay in *. lia. }
  split; [exact Hlt | apply civil_mono; lia].
Qed.

Lemma restock_bounds_in_every_zone_witness :
  exists t te tr,
    Date_of_string Date_parse_iso "2024-03-01" = Some t
    /\ "2024-03-14" = dateString te
    /\ "2024-03-10" = dateString tr
    /\ tr <= te
    /\ civil_le (civil tr) (civil te)
    /\ (Zoned.steady Zoned.usEastern ->
        getLLMEstimate FetchRejected = None ->
        t < tr /\ civil_le (civil t) (civil tr)).
Proof.
  apply (restock_bounds_in_every_zone Zoned.usEastern Date_parse_iso
           FetchRejected
           {| name := "Greek Yogurt"; category := "Dairy";
              purchasedAt := "2024-03-01" |}
           {| estimatedExpirationAt := "2024-03-14";
              estimatedRestockAt := "2024-03-10";
              source := "heuristic" |}).
  vm_compute. reflexivity.
Defined.

(** X30.  In every host zone, a purchase date that does not parse is
    surfaced as a rejected call.  In a zone whose offsets differ by less
    than a day, with the oracle unavailable, a category that is not an
    inherited property name and a purchase date at least 731 days before
    the end of the range of time values, the call is fulfilled from the
    heuristic pair, whatever the name.  For purchase date 2024-01-01 and
    an accepted shelf life of 1000 days, in such a zone with the same
    offset on both days, the expiration is 2024-12-31. *)
Theorem service_completes_in_every_steady_zone :
  (forall zone parse net input,
      Date_of_string parse (purchasedAt input) = None ->
      exists e, Zoned.estimateDates zone parse net input = Rejected e)
  /\ (forall zone parse net input t,
         Zoned.steady zone ->
         getLLMEstimate net = None ->
         inheritedKey (category input) = false ->
         Date_of_string parse (purchasedAt input) = Some t ->
         t + 731 * msPerDay <= maxTime ->
         exists r, Zoned.estimateDates zone parse net input = Fulfilled r
                   /\ source r = "heuristic")
  /\ (forall zone net name category estimate src,
         Zoned.steady zone ->
         zone (Zoned.LocalTime zone 1704067200000 + 365 * msPerDay) false
         = zone 1704067200000 true ->
         acceptedEstimate net
           {| name := name; category := category; purchasedAt := "2024-01-01" |}
         = (Some estimate, src) ->
         shelf_life estimate = JNum 1000 ->
         exists r,
           Zoned.estimateDates zone Date_parse_iso net
             {| name := name; category := category; purchasedAt := "2024-01-01" |}
           = Fulfilled r
           /\ estimatedExpirationAt r = "2024-12-31"
           /\ source r = src).
Proof.
  split; [|split].
  - intros zone parse net input Hparse.
    unfold Zoned.estimateDates. rewrite Hparse.
    destruct (acceptedEstimate net input) as [[estimate|] src].
    + change (Zoned.cappedExpiration zone None estimate) with (@None Z).
      rewrite isoDate_invalid. eexists. reflexivity.
    + eexists. reflexivity.
  - intros zone parse net input t Hz Hnet Hinh Hparse Hend.
    destruct (getHeuristicEstimate_total (name input) (category input) Hinh)
      as [e He].
    pose proof (getHeuristicEstimate_authored _ _ _ He) as Ha.
    apply authored_days in Ha. destruct Ha as [s [r [-> _]]].
    eexists. split.
    + exact (zoned_heuristic_closed_form zone parse net input t s r
               Hz Hnet He Hparse Hend).
    + reflexivity.
  - intros zone net name category estimate src Hz Hsame Hacc Hshelf.
    pose proof (daysLater_same_offset zone 1704067200000 365 Hsame) as H365.
    pose proof (daysLater_near zone 1704067200000 1000 Hz) as H1000.
    pose proof (daysLater_lt zone 1704067200000 365 1000 Hz ltac:(lia)) as Hlt.
    eexists. split.
    + apply (zoned_estimateDates_complete zone Date_parse_iso net _ estimate
               1704067200000 (1704067200000 + 365 * msPerDay)).
      * rewrite Hacc. reflexivity.
      * reflexivity.
      * unfold Zoned.cappedExpiration. rewrite Hshelf, !zoned_plusDays_num.
        rewrite H365 in *.
        rewrite (TimeClip_in_range (Zoned.daysLater zone 1704067200000 1000))
          by (unfold msPerDay, maxTime in *; lia).
        rewrite (TimeClip_in_range (1704067200000 + 365 * msPerDay))
          by (unfold msPerDay, maxTime; lia).
        unfold js_gt.
        destruct (Z.ltb_spec (1704067200000 + 365 * msPerDay)
                             (Zoned.daysLater zone 1704067200000 1000));
          [reflexivity | lia].
    + rewrite Hacc. split; [vm_compute|]; reflexivity.
Qed.

Lemma service_completes_in_every_steady_zone_witness :
  (exists e,
      Zoned.estimateDates Zoned.usEastern Date_parse_iso FetchRejected
        {| name := "milk"; category := "Dairy"; purchasedAt := "yesterday" |}
      = Rejected e)
  /\ (exists r,
         Zoned.estimateDates Zoned.usEastern Date_parse_iso FetchRejected
           {| name := ""; category := "Dairy"; purchasedAt := "2024-03-01" |}
         = Fulfilled r /\ source r = "heuristic")
  /\ (exists r,
         Zoned.estimateDates Zoned.usEastern Date_parse_iso
           (FetchResponse true (JsonValue (JNum 1000) (JNum 30)))
           {| name := "honey"; category := "Pantry"; purchasedAt := "2024-01-01" |}
         = Fulfilled r
         /\ estimatedExpirationAt r = "2024-12-31"
         /\ source r = "llm").
Proof.
  split; [|split].
  - apply (proj1 service_completes_in_every_steady_zone
             Zoned.usEastern Date_parse_iso FetchRejected
             {| name := "milk"; category := "Dairy"; purchasedAt := "yesterday" |}).
    reflexivity.
  - apply (proj1 (proj2 service_completes_in_every_steady_zone)
             Zoned.usEastern Date_parse_iso FetchRejected
             {| name := ""; category := "Dairy"; purchasedAt := "2024-03-01" |}
             1709251200000).
    + exact usEastern_steady.
    + reflexivity.
    + reflexivity.
    + reflexivity.
    + vm_compute. discriminate.
  - apply (proj2 (proj2 service_completes_in_every_steady_zone)
             Zoned.usEastern
             (FetchResponse true (JsonValue (JNum 1000) (JNum 30)))
             "honey" "Pantry" (days 1000 30) "llm").
    + exact usEastern_steady.
    + reflexivity.
    + reflexivity.
    + reflexivity.
Defined.


(** ** Form input: trimming, zip codes and [parseInt] *)

Section InputFacts.

Lemma trimStart_empty_iff (s : string) :
  trimStart s = "" <-> forallb isWhiteSpace (list_ascii_of_string s) = true.
Proof.
  induction s as [|c s IH]; simpl; [tauto|].
  destruct (isWhiteSpace c); simpl; [exact IH|].
  split; discriminate.
Qed.

Lemma trimStart_head (s : string) (c : ascii) (r : string) :
  trimStart s = String c r -> isWhiteSpace c = false.
Proof.
  induction s as [|x s IH]; simpl; [discriminate|].
  destruct (isWhiteSpace x) eqn:Hx; [exact IH|].
  intro E. injection E as <- _. exact Hx.
Qed.

Lemma trimEnd_head (c : ascii) (r : string) :
  isWhiteSpace c = false -> trimEnd (String c r) <> "".
Proof.
  intro H. simpl. rewrite H. destruct (trimEnd r); discriminate.
Qed.

(** [s.trim()] is empty exactly when [s] consists of white space. *)
Lemma trim_empty_iff (s : string) :
  trim s = "" <-> forallb isWhiteSpace (list_ascii_of_string s) = true.
Proof.
  rewrite <- trimStart_empty_iff. unfold trim.
  destruct (trimStart s) as [|c r] eqn:E; [simpl; tauto|].
  pose proof (trimEnd_head c r (trimStart_head s c r E)) as Hne.
  split; [intro H; contradiction | discriminate].
Qed.

Lemma length_list_ascii (s : string) :
  List.length (list_ascii_of_string s) = String.length s.
Proof. induction s as [|c s IH]; simpl; [reflexivity | rewrite IH; reflexivity]. Qed.

(** The zip code pattern accepts exactly the strings of five digits. *)
Lemma isFiveDigitZip_iff (s : string) :
  isFiveDigitZip s = true <->
  String.length s = 5%nat /\ forallb isDigit (list_ascii_of_string s) = true.
Proof.
  unfold isFiveDigitZip. rewrite <- length_list_ascii.
  destruct (list_ascii_of_string s) as [|a [|b [|c [|d [|e [|f l]]]]]];
    simpl; try (split; [discriminate | intros [H _]; discriminate]).
  rewrite andb_true_r, <- !andb_assoc. tauto.
Qed.

Lemma isDigit_not_white (c : ascii) : isDigit c = true -> isWhiteSpace c = false.
Proof.
  unfold isDigit, isWhiteSpace. intro H.
  apply andb_true_iff in H. destruct H as [H1 H2].
  apply Nat.leb_le in H1. apply Nat.leb_le in H2.
  apply orb_false_iff. split.
  - apply andb_false_iff. right. apply Nat.leb_gt. lia.
  - apply Nat.eqb_neq. lia.
Qed.

End InputFacts.

Section ParseInt.

Lemma leadingDigits_stop (rest : string) (acc : Z) :
  startsWithoutDigit rest -> leadingDigits rest true acc = Some acc.
Proof.
  destruct rest as [|c rest]; simpl; [reflexivity|].
  intro H. rewrite H. reflexivity.
Qed.

Lemma leadingDigits_printed (d : Decimal.uint) (rest : string) (a : nat) :
  startsWithoutDigit rest ->
  leadingDigits (NilEmpty.string_of_uint d ++ rest) true (Z.of_nat a)
  = Some (Z.of_nat (Nat.of_uint_acc d a)).
Proof.
  intro Hrest. revert a.
  induction d as [|d IH|d IH|d IH|d IH|d IH|d IH|d IH|d IH|d IH|d IH];
    intro a;
    [ simpl; apply leadingDigits_stop; exact Hrest | .. ];
    cbn [NilEmpty.string_of_uint append leadingDigits Nat.of_uint_acc];
    rewrite Nat.tail_mul_spec;
    match goal with
    | |- context [isDigit ?c] => change (isDigit c) with true
    end; cbv iota;
    match goal with
    | |- leadingDigits _ true ?z = Some (Z.of_nat (Nat.of_uint_acc d ?b)) =>
        replace z with (Z.of_nat b); [apply IH|]
    end;
    match goal with
    | |- context [nat_of_ascii ?c] =>
        let v := eval compute in (nat_of_ascii c) in
        change (nat_of_ascii c) with v
    end; lia.
Qed.

Lemma printed_head (n : nat) :
  exists c s, NilZero.string_of_uint (Nat.to_uint n) = String c s
              /\ isDigit c = true /\ c <> "-"%char /\ c <> "+"%char
              /\ leadingDigits (String c s) false 0
                 = leadingDigits (String c s) true 0.
Proof.
  unfold NilZero.string_of_uint.
  destruct (Nat.to_uint n) as [|d|d|d|d|d|d|d|d|d|d];
    cbn [NilEmpty.string_of_uint];
    eexists; eexists; (split; [reflexivity|]);
    repeat split; try reflexivity; discriminate.
Qed.

End ParseInt.

(** X27.  [parseInt(s, 10)] reads the whole number a string starts with and
    ignores what follows it: a radius typed as "5.9" or "10 miles" is
    taken as 5 or 10, and one typed as "0.5" as 0, which the search
    handler then refuses.  This is stated for numbers up to 2^53, which
    the engine's doubles hold exactly. *)
Theorem parseInt_reads_the_leading_number :
  forall (n : nat) (rest : string),
    Z.of_nat n <= maxExactInteger ->
    startsWithoutDigit rest ->
    parseInt10 (NilZero.string_of_uint (Nat.to_uint n) ++ rest)
    = Some (Z.of_nat n)
    /\ parseInt10 ("-" ++ NilZero.string_of_uint (Nat.to_uint n) ++ rest)
       = Some (- Z.of_nat n).
Proof.
  intros n rest _ Hrest.
  assert (leadingDigits (NilZero.string_of_uint (Nat.to_uint n) ++ rest) false 0
          = Some (Z.of_nat n)) as Hdigits.
  { rewrite <- (DecimalNat.Unsigned.of_to n) at 2. unfold Nat.of_uint.
    unfold NilZero.string_of_uint.
    destruct (Nat.to_uint n) as [|d|d|d|d|d|d|d|d|d|d] eqn:Hd;
      [ simpl; rewrite leadingDigits_stop by exact Hrest; reflexivity | .. ];
      rewrite <- (leadingDigits_printed _ rest 0 Hrest); reflexivity. }
  destruct (printed_head n) as [c [s [Hs [Hc [Hminus [Hplus _]]]]]].
  split.
  - unfold parseInt10. rewrite Hs in *. cbn [append trimStart].
    rewrite (isDigit_not_white c Hc).
    destruct c as [[] [] [] [] [] [] [] []];
      try discriminate Hc; try (exfalso; apply Hminus; reflexivity);
      try (exfalso; apply Hplus; reflexivity);
      exact Hdigits.
  - unfold parseInt10. cbn [append trimStart].
    change (isWhiteSpace "-") with false. cbv iota.
    rewrite Hdigits. reflexivity.
Qed.

Lemma parseInt_reads_the_leading_number_witness :
  parseInt10 "5.9" = Some 5 /\ parseInt10 "-5.9" = Some (-5).
Proof.
  apply (parseInt_reads_the_leading_number 5 ".9").
  - vm_compute. discriminate.
  - reflexivity.
Defined.

(** ** The deal search page *)

Module DealSearchFacts.

Import DealSearchPage.

Section Deals.

Variable JsNumber : Type.

#[local] Abbreviation Deal := (DealResult JsNumber).

Lemma Map_has_seen (m : list (string * Deal)) (key : string) :
  Map_has m key = seenRetailer (map fst m) key.
Proof.
  unfold Map_has, seenRetailer.
  induction m as [|[k v] m IH]; simpl; [reflexivity|]. rewrite IH. reflexivity.
Qed.

Lemma Map_set_absent (m : list (string * Deal)) (key : string) (value : Deal) :
  Map_has m key = false -> Map_set m key value = (m ++ [(key, value)])%list.
Proof.
  unfold Map_has.
  induction m as [|[k v] m IH]; simpl; intro H; [reflexivity|].
  apply orb_false_elim in H. destruct H as [Hk Hm].
  rewrite Hk, IH by exact Hm. reflexivity.
Qed.

Lemma fold_firstPerRetailer (data : list Deal) (m : list (string * Deal)) :
  Map_values
    (fold_left
       (fun m deal =>
          if negb (Map_has m (retailer deal))
          then Map_set m (retailer deal) deal else m)
       data m)
  = (Map_values m ++ firstPerRetailer (map fst m) data)%list.
Proof.
  revert m. induction data as [|d data IH]; intro m; simpl.
  - rewrite app_nil_r. reflexivity.
  - rewrite <- Map_has_seen.
    destruct (Map_has m (retailer d)) eqn:Hhas; simpl.
    + apply IH.
    + rewrite Map_set_absent by exact Hhas. rewrite IH.
      unfold Map_values. rewrite !map_app. simpl.
      rewrite <- app_assoc. reflexivity.
Qed.

Lemma closestByRetailer_first (data : list Deal) :
  Map_values (closestByRetailer data) = firstPerRetailer [] data.
Proof.
  unfold closestByRetailer. rewrite fold_firstPerRetailer. reflexivity.
Qed.

Lemma seenRetailer_app (seen : list string) (k key : string) :
  seenRetailer (seen ++ [k]) key = seenRetailer seen key || String.eqb k key.
Proof.
  unfold seenRetailer. rewrite existsb_app. simpl. rewrite orb_false_r.
  reflexivity.
Qed.

Lemma firstPerRetailer_In (seen : list string) (data : list Deal) (d : Deal) :
  In d (firstPerRetailer seen data) <->
  seenRetailer seen (retailer d) = false
  /\ exists pre post,
      data = (pre ++ d :: post)%list
      /\ forall d', In d' pre -> retailer d' <> retailer d.
Proof.
  revert seen. induction data as [|x data IH]; intro seen; simpl.
  - split; [contradiction|]. intros [_ [pre [post [E _]]]].
    destruct pre; discriminate.
  - destruct (seenRetailer seen (retailer x)) eqn:Hx.
    + rewrite IH. split.
      * intros [Hs [pre [post [E Hpre]]]]. split; [exact Hs|].
        exists (x :: pre), post. split; [simpl; congruence|].
        intros d' [<- | Hin]; [congruence | apply Hpre; exact Hin].
      * intros [Hs [pre [post [E Hpre]]]]. split; [exact Hs|].
        destruct pre as [|y pre]; simpl in E; injection E as E1 E2.
        -- subst x. congruence.
        -- exists pre, post. split; [exact E2|].
           intros d' Hin. apply Hpre. right. exact Hin.
    + simpl. rewrite IH, seenRetailer_app. split.
      * intros [<- | [Hs [pre [post [E Hpre]]]]].
        -- split; [exact Hx|]. exists [], data. split; [reflexivity|].
           intros d' [].
        -- apply orb_false_elim in Hs. destruct Hs as [Hs Hne].
           split; [exact Hs|]. exists (x :: pre), post.
           split; [simpl; congruence|].
           intros d' [<- | Hin]; [|apply Hpre; exact Hin].
           intro Heq. rewrite Heq, String.eqb_refl in Hne. discriminate.
      * intros [Hs [pre [post [E Hpre]]]].
        destruct pre as [|y pre]; simpl in E; injection E as E1 E2.
        -- left. exact E1.
        -- right. subst y. split.
           ++ rewrite Hs. simpl.
              destruct (String.eqb_spec (retailer x) (retailer d)) as [Heq|];
                [|reflexivity].
              exfalso. apply (Hpre x); [left; reflexivity | exact Heq].
           ++ exists pre, post. split; [exact E2|].
              intros d' Hin. apply Hpre. right. exact Hin.
Qed.

Lemma firstPerRetailer_NoDup (seen : list string) (data : list Deal) :
  NoDup (map retailer (firstPerRetailer seen data)).
Proof.
  revert seen. induction data as [|x data IH]; intro seen; simpl.
  - constructor.
  - destruct (seenRetailer seen (retailer x)); [apply IH|].
    simpl. constructor; [|apply IH].
    intro Hin. apply in_map_iff in Hin. destruct Hin as [d [Hr Hd]].
    apply firstPerRetailer_In in Hd. destruct Hd as [Hs _].
    rewrite seenRetailer_app, Hr, String.eqb_refl, orb_true_r in Hs.
    discriminate.
Qed.

Lemma firstPerRetailer_covers (seen : list string) (data : list Deal) (d : Deal) :
  In d data ->
  seenRetailer seen (retailer d) = false ->
  exists d', In d' (firstPerRetailer seen data) /\ retailer d' = retailer d.
Proof.
  revert seen. induction data as [|x data IH]; intros seen Hin Hs; simpl.
  - contradiction.
  - destruct (seenRetailer seen (retailer x)) eqn:Hx.
    + destruct Hin as [<- | Hin]; [congruence|]. apply IH; assumption.
    + destruct (String.eqb_spec (retailer x) (retailer d)) as [Heq | Hne].
      * exists x. split; [left; reflexivity | exact Heq].
      * destruct Hin as [<- | Hin]; [congruence|].
        destruct (IH (seen ++ [retailer x])%list Hin) as [d' [Hd' Hr]].
        -- rewrite seenRetailer_app, Hs. simpl.
           apply String.eqb_neq. exact Hne.
        -- exists d'. split; [right; exact Hd' | exact Hr].
Qed.

Lemma firstPerRetailer_distinct (seen : list string) (data : list Deal) :
  NoDup (map retailer data) ->
  (forall d, In d data -> seenRetailer seen (retailer d) = false) ->
  firstPerRetailer seen data = data.
Proof.
  revert seen. induction data as [|x data IH]; intros seen Hnd Hs; simpl.
  - reflexivity.
  - rewrite (Hs x) by (left; reflexivity). f_equal.
    simpl in Hnd. inversion Hnd as [|r rs Hnotin Hnd']. subst.
    apply IH; [exact Hnd'|].
    intros d Hd. rewrite seenRetailer_app, (Hs d) by (right; exact Hd). simpl.
    apply String.eqb_neq. intro Heq. apply Hnotin. rewrite Heq.
    apply in_map. exact Hd.
Qed.

Lemma firstPerRetailer_sorted (le : Deal -> Deal -> Prop) (seen : list string)
      (data : list Deal) :
  StronglySorted le data -> StronglySorted le (firstPerRetailer seen data).
Proof.
  revert seen. induction data as [|x data IH]; intros seen Hs; simpl.
  - constructor.
  - inversion Hs as [|y ys Hs' Hall]. subst.
    destruct (seenRetailer seen (retailer x)); [apply IH; exact Hs'|].
    constructor; [apply IH; exact Hs'|].
    rewrite Forall_forall in *. intros d Hd. apply Hall.
    apply firstPerRetailer_In in Hd. destruct Hd as [_ [pre [post [E _]]]].
    rewrite E. apply in_elt.
Qed.

(** X6.  [processResults] shows one deal per retailer: no two results
    share a retailer, every result is one of the deals received, and every
    retailer among the deals received has a result. *)
Theorem one_deal_per_retailer :
  forall (data : list Deal) (st : PageState JsNumber),
    NoDup (map retailer (results (processResults data st)))
    /\ (forall d, In d (results (processResults data st)) -> In d data)
    /\ (forall d, In d data ->
                  exists d', In d' (results (processResults data st))
                             /\ retailer d' = retailer d).
Proof.
  intros data st. unfold processResults. cbn [results setResults].
  rewrite closestByRetailer_first. split; [apply firstPerRetailer_NoDup|].
  split.
  - intros d Hd. apply firstPerRetailer_In in Hd.
    destruct Hd as [_ [pre [post [-> _]]]]. apply in_elt.
  - intros d Hd. apply firstPerRetailer_covers; [exact Hd | reflexivity].
Qed.

(** X7.  The deal kept for a retailer is the first deal of that retailer in
    the order received: a deal is shown exactly when no deal in front of it
    has its retailer. *)
Theorem kept_deal_is_first_of_retailer :
  forall (data : list Deal) (st : PageState JsNumber) (d : Deal),
    In d (results (processResults data st)) <->
    exists pre post,
      data = (pre ++ d :: post)%list
      /\ forall d', In d' pre -> retailer d' <> retailer d.
Proof.
  intros data st d. unfold processResults. cbn [results setResults].
  rewrite closestByRetailer_first, firstPerRetailer_In.
  split; [intros [_ H]; exact H | intro H; split; [reflexivity | exact H]].
Qed.

(** X8.  When the deals arrive sorted by some transitive order (the remote
    procedures sort by price or by distance), the results are still sorted
    by it, and the deal shown for a retailer is a least one among the deals
    of that retailer. *)
Theorem sorted_deals_keep_the_least :
  forall (le : Deal -> Deal -> Prop) (data : list Deal) (st : PageState JsNumber),
    (forall a b c, le a b -> le b c -> le a c) ->
    Sorted le data ->
    StronglySorted le (results (processResults data st))
    /\ forall d d',
        In d (results (processResults data st)) ->
        In d' data -> retailer d' = retailer d ->
        d' = d \/ le d d'.
Proof.
  intros le data st Htrans Hsorted.
  apply Sorted_StronglySorted in Hsorted; [|exact Htrans].
  unfold processResults. cbn [results setResults].
  rewrite closestByRetailer_first.
  split; [apply firstPerRetailer_sorted; exact Hsorted|].
  intros d d' Hd Hd' Hr.
  apply firstPerRetailer_In in Hd. destruct Hd as [_ [pre [post [E Hpre]]]].
  subst data. apply in_app_or in Hd'. destruct Hd' as [Hin | [Heq | Hin]].
  - exfalso. apply (Hpre d' Hin Hr).
  - left. symmetry. exact Heq.
  - right. clear Hpre. induction pre as [|x pre IH]; simpl in Hsorted.
    + inversion Hsorted as [|y ys _ Hall]. subst.
      rewrite Forall_forall in Hall. apply Hall. exact Hin.
    + inversion Hsorted as [|y ys Hs' _]. subst. apply IH. exact Hs'.
Qed.

(** X9.  Processing is idempotent, and it leaves a list of deals from
    pairwise different retailers as it is. *)
Theorem processResults_idempotent :
  forall (data : list Deal) (st st' : PageState JsNumber),
    results (processResults (results (processResults data st)) st')
    = results (processResults data st)
    /\ (NoDup (map retailer data) -> results (processResults data st) = data).
Proof.
  intros data st st'. unfold processResults. cbn [results setResults].
  rewrite !closestByRetailer_first. split.
  - apply firstPerRetailer_distinct; [apply firstPerRetailer_NoDup|].
    intros d _. reflexivity.
  - intro Hnd. apply firstPerRetailer_distinct; [exact Hnd|].
    intros d _. reflexivity.
Qed.

End Deals.

Lemma one_deal_per_retailer_witness :
  In (sampleDeal 1 "Kroger")
     [sampleDeal 1 "Kroger"; sampleDeal 2 "Aldi"; sampleDeal 3 "Kroger"].
Proof.
  apply (proj1 (proj2 (one_deal_per_retailer Z
                         [sampleDeal 1 "Kroger"; sampleDeal 2 "Aldi";
                          sampleDeal 3 "Kroger"] sampleState))
           (sampleDeal 1 "Kroger")).
  left. reflexivity.
Defined.

Lemma kept_deal_is_first_of_retailer_witness :
  In (sampleDeal 2 "Aldi")
     (results (processResults
                 [sampleDeal 1 "Kroger"; sampleDeal 2 "Aldi";
                  sampleDeal 3 "Kroger"] sampleState)).
Proof.
  apply (proj2 (kept_deal_is_first_of_retailer Z
                  [sampleDeal 1 "Kroger"; sampleDeal 2 "Aldi";
                   sampleDeal 3 "Kroger"] sampleState (sampleDeal 2 "Aldi"))).
  exists [sampleDeal 1 "Kroger"], [sampleDeal 3 "Kroger"].
  split; [reflexivity|].
  intros d' [<- | []]. discriminate.
Defined.

Lemma sorted_deals_keep_the_least_witness :
  StronglySorted (fun a b => id a <= id b)
    (results (processResults
                [sampleDeal 1 "Kroger"; sampleDeal 2 "Aldi";
                 sampleDeal 3 "Kroger"] sampleState))
  /\ forall d d',
      In d (results (processResults
                       [sampleDeal 1 "Kroger"; sampleDeal 2 "Aldi";
                        sampleDeal 3 "Kroger"] sampleState)) ->
      In d' [sampleDeal 1 "Kroger"; sampleDeal 2 "Aldi"; sampleDeal 3 "Kroger"] ->
      retailer d' = retailer d ->
      d' = d \/ id d <= id d'.
Proof.
  apply (sorted_deals_keep_the_least Z (fun a b => id a <= id b)
           [sampleDeal 1 "Kroger"; sampleDeal 2 "Aldi"; sampleDeal 3 "Kroger"]
           sampleState).
  - intros a b c Hab Hbc. lia.
  - repeat constructor; simpl; lia.
Defined.

Lemma processResults_idempotent_witness :
  results (processResults [sampleDeal 1 "Kroger"; sampleDeal 2 "Aldi"]
                          sampleState)
  = [sampleDeal 1 "Kroger"; sampleDeal 2 "Aldi"].
Proof.
  apply (proj2 (processResults_idempotent Z
                  [sampleDeal 1 "Kroger"; sampleDeal 2 "Aldi"]
                  sampleState sampleState)).
  repeat constructor; simpl; intuition discriminate.
Defined.

End DealSearchFacts.


(** ** The search handler *)

Module SearchHandlerFacts.

Import DealSearchPage.

Section Handler.

Variable JsNumber : Type.
Variable milesToMeters : Z -> Z.
Variable rpc : RpcCall -> RpcOutcome JsNumber.

#[local] Abbreviation State := (PageState JsNumber).

Lemma messageOr_not_empty (err : JsThrown) (fallback : string) :
  fallback <> "" -> messageOr err fallback <> "".
Proof.
  intro H. unfold messageOr. destruct (message err) as [m|]; [|exact H].
  destruct (String.eqb_spec m ""); assumption.
Qed.

Lemma processResults_NoDup (data : list (DealResult JsNumber)) (st : State) :
  NoDup (map retailer (results (processResults data st))).
Proof.
  unfold processResults. cbn [results setResults].
  rewrite DealSearchFacts.closestByRetailer_first.
  apply DealSearchFacts.firstPerRetailer_NoDup.
Qed.

Lemma processResults_In (data : list (DealResult JsNumber)) (st : State)
      (d : DealResult JsNumber) :
  In d (results (processResults data st)) -> In d data.
Proof.
  unfold processResults. cbn [results setResults].
  rewrite DealSearchFacts.closestByRetailer_first. intro Hd.
  apply DealSearchFacts.firstPerRetailer_In in Hd.
  destruct Hd as [_ [pre [post [-> _]]]]. apply in_elt.
Qed.

(** Splits a goal about [handleSearch] into the paths of the handler. *)
Ltac search_paths st :=
  unfold handleSearch;
  destruct (String.eqb_spec (trim (searchTerm st)) "") as [Hblank | Hblank];
  [| destruct (isFiveDigitZip (zipcode st)) eqn:Hzip; cbn [negb];
     [ destruct (parseInt10 (radius st)) as [n|] eqn:Hradius;
       [ destruct (Z.leb_spec n 0) as [Hn | Hn];
         [| destruct (rpc (find_deals_in_zip (zipcode st) (searchTerm st) 100))
              as [err1 | [[|d1 more1]|] [e1|]] eqn:Hrpc1;
            try destruct (rpc (find_deals_near_zip (zipcode st) (searchTerm st)
                                                   (milesToMeters n) 100))
              as [err2 | [[|d2 more2]|] [e2|]] eqn:Hrpc2 ]
       |]
     |] ].

(** X10.  The handler checks the form before it calls anything.  A blank
    item name ends the search with its message and without a remote call.
    For an item name and a radius typed in ASCII: a zip code that is not
    five digits, then a radius that does not start with a positive whole
    number each end the search with their own message and without a remote
    call; otherwise the first call is the exact-zip search, with the item
    name as typed (untrimmed). *)
Theorem search_validates_before_calling :
  forall st : State,
    let blank :=
      forallb isWhiteSpace (list_ascii_of_string (searchTerm st)) = true in
    let zipOk :=
      String.length (zipcode st) = 5%nat
      /\ forallb isDigit (list_ascii_of_string (zipcode st)) = true in
    let radiusOk := exists n, parseInt10 (radius st) = Some n /\ 0 < n in
    let st' := fst (handleSearch milesToMeters rpc st) in
    let calls := snd (handleSearch milesToMeters rpc st) in
    (blank -> error st' = Some "Please enter an item name." /\ calls = [])
    /\ (isAscii (searchTerm st) = true ->
        isAscii (radius st) = true ->
        (~ blank -> ~ zipOk ->
         error st' = Some "Please enter a valid 5-digit zip code."
         /\ calls = [])
        /\ (~ blank -> zipOk -> ~ radiusOk ->
            error st' = Some "Please enter a search radius greater than 0."
            /\ calls = [])
        /\ (~ blank -> zipOk -> radiusOk ->
            exists rest,
              calls = find_deals_in_zip (zipcode st) (searchTerm st) 100 :: rest)).
Proof.
  intros st blank zipOk radiusOk st' calls.
  subst blank zipOk radiusOk st' calls.
  rewrite <- trim_empty_iff, <- isFiveDigitZip_iff.
  split; [|intros _ _; split; [|split]].
  - intro Hb. unfold handleSearch. rewrite Hb. simpl. auto.
  - intros Hb Hz. unfold handleSearch.
    destruct (String.eqb_spec (trim (searchTerm st)) "") as [Hb' | Hb'];
      [contradiction|].
    destruct (isFiveDigitZip (zipcode st)); [exfalso; auto|]. simpl. auto.
  - intros Hb Hz Hr. unfold handleSearch.
    destruct (String.eqb_spec (trim (searchTerm st)) "") as [Hb' | Hb'];
      [contradiction|].
    rewrite Hz. cbn [negb].
    destruct (parseInt10 (radius st)) as [n|]; [|simpl; auto].
    destruct (Z.leb_spec n 0) as [Hle | Hlt]; [simpl; auto|].
    exfalso. apply Hr. exists n. split; [reflexivity | assumption].
  - intros Hb Hz [n [Hr Hn]]. unfold handleSearch.
    destruct (String.eqb_spec (trim (searchTerm st)) "") as [Hb' | Hb'];
      [contradiction|].
    rewrite Hz, Hr. cbn [negb].
    destruct (Z.leb_spec n 0) as [Hle | Hlt]; [lia|].
    destruct (rpc (find_deals_in_zip (zipcode st) (searchTerm st) 100))
      as [err1 | [[|d1 more1]|] [e1|]];
      try destruct (rpc (find_deals_near_zip (zipcode st) (searchTerm st)
                                             (milesToMeters n) 100))
        as [err2 | [[|d2 more2]|] [e2|]];
      eexists; reflexivity.
Qed.

(** X11.  However a search ends, the page is no longer loading, the form
    fields are untouched, at most two remote calls were made, the results
    hold no two deals of one retailer, and an error message, if there is
    one, is not empty and comes with an empty result list. *)
Theorem search_final_state :
  forall st : State,
    let st' := fst (handleSearch milesToMeters rpc st) in
    let calls := snd (handleSearch milesToMeters rpc st) in
    loading st' = false
    /\ searchTerm st' = searchTerm st
    /\ zipcode st' = zipcode st
    /\ radius st' = radius st
    /\ (List.length calls <= 2)%nat
    /\ NoDup (map retailer (results st'))
    /\ (forall msg, error st' = Some msg -> msg <> "" /\ results st' = []).
Proof.
  intro st. cbv zeta.
  search_paths st; cbn [fst snd];
    unfold searchFailed;
    cbn [loading searchTerm zipcode radius results error
         setLoading setError setResults List.length];
    (split; [reflexivity|]); (split; [reflexivity|]);
    (split; [reflexivity|]); (split; [reflexivity|]);
    (split; [lia|]);
    (split; [first [apply processResults_NoDup | constructor]|]);
    intros msg E;
    try (unfold processResults in E;
         cbn [error setResults setError setLoading] in E);
    try discriminate E;
    injection E as <-;
    (split; [|reflexivity]);
    first [ discriminate | apply messageOr_not_empty; discriminate ].
Qed.

(** X12.  For an item name and a radius typed in ASCII that pass the
    checks, the exact-zip search has priority: deals found in the user's
    zip code are shown and the radius search is not made; the radius search
    is made, with the parsed radius converted to meters, exactly when the
    exact search returns no deal and no error, and then its deals (if any)
    are the ones shown. *)
Theorem exact_zip_has_priority :
  forall (st : State) (n : Z),
    isAscii (searchTerm st) = true ->
    isAscii (radius st) = true ->
    trim (searchTerm st) <> "" ->
    isFiveDigitZip (zipcode st) = true ->
    parseInt10 (radius st) = Some n ->
    0 < n ->
    let call1 := find_deals_in_zip (zipcode st) (searchTerm st) 100 in
    let call2 :=
      find_deals_near_zip (zipcode st) (searchTerm st) (milesToMeters n) 100 in
    let st' := fst (handleSearch milesToMeters rpc st) in
    let calls := snd (handleSearch milesToMeters rpc st) in
    (forall d more,
        rpc call1 = RpcReturns (Some (d :: more)) None ->
        calls = [call1]
        /\ results st' = results (processResults (d :: more) st)
        /\ error st' = None)
    /\ (forall exact,
           rpc call1 = RpcReturns exact None ->
           exact = None \/ exact = Some [] ->
           calls = [call1; call2]
           /\ (forall near,
                  rpc call2 = RpcReturns (Some near) None ->
                  results st' = results (processResults near st)
                  /\ error st' = None)
           /\ (rpc call2 = RpcReturns None None ->
               results st' = [] /\ error st' = None)).
Proof.
  intros st n _ _ Hb Hz Hr Hn. cbv zeta. unfold handleSearch.
  destruct (String.eqb_spec (trim (searchTerm st)) "") as [Hb' | Hb'];
      [contradiction|].
  rewrite Hz, Hr. cbn [negb].
  destruct (Z.leb_spec n 0) as [Hle | Hlt]; [lia|].
  split.
  - intros d more ->. cbn. auto.
  - intros exact -> Hex.
    assert (forall near,
               match near with
               | Some (deal :: more) =>
                   results (processResults (deal :: more) st)
               | _ => []
               end
               = match near with
                 | Some l => results (processResults l st)
                 | None => @nil (DealResult JsNumber)
                 end) as Hsame.
    { intros [[|x l]|]; reflexivity. }
    destruct Hex as [-> | ->];
      (destruct (rpc (find_deals_near_zip (zipcode st) (searchTerm st)
                                          (milesToMeters n) 100))
         as [err2 | [[|d2 more2]|] [e2|]];
       cbn [fst snd]; (split; [reflexivity|]);
       (split; [intros near E | intro E]);
       try discriminate E; try (injection E as <-); cbn; auto).
Qed.

(** X13.  Every deal shown was returned by the last remote call made, and
    that call reported no error: results of the two searches are never
    mixed. *)
Theorem results_come_from_last_call :
  forall (st : State) (d : DealResult JsNumber),
    In d (results (fst (handleSearch milesToMeters rpc st))) ->
    exists earlier call data,
      snd (handleSearch milesToMeters rpc st) = (earlier ++ [call])%list
      /\ rpc call = RpcReturns (Some data) None
      /\ In d data.
Proof.
  intros st d.
  search_paths st; cbn [fst snd];
    unfold searchFailed;
    cbn [results setLoading setError setResults];
    try (intros []; fail);
    intro Hd; apply processResults_In in Hd;
    first
      [ exists [], (find_deals_in_zip (zipcode st) (searchTerm st) 100);
        eexists; split; [reflexivity | split; [eassumption | exact Hd]]
      | exists [find_deals_in_zip (zipcode st) (searchTerm st) 100],
          (find_deals_near_zip (zipcode st) (searchTerm st)
                               (milesToMeters n) 100);
        eexists; split; [reflexivity | split; [eassumption | exact Hd]] ].
Qed.

End Handler.

Lemma search_validates_before_calling_witness :
  exists rest,
    snd (handleSearch sampleMeters sampleRpc sampleState)
    = find_deals_in_zip "22903" "milk" 100 :: rest.
Proof.
  apply (proj2 (proj2 (proj2 (search_validates_before_calling
                                Z sampleMeters sampleRpc sampleState)
                              eq_refl eq_refl))).
  - intro H. discriminate H.
  - split; reflexivity.
  - exists 10. split; [reflexivity | lia].
Defined.

Lemma search_final_state_witness :
  "Please enter a valid 5-digit zip code." <> ""
  /\ results
       (fst (handleSearch sampleMeters sampleRpc
               {| searchTerm := "milk"; zipcode := "2290"; radius := "10";
                  results := []; loading := false; error := None |}))
     = [].
Proof.
  apply (proj2 (proj2 (proj2 (proj2 (proj2 (proj2
           (search_final_state Z sampleMeters sampleRpc
              {| searchTerm := "milk"; zipcode := "2290"; radius := "10";
                 results := []; loading := false; error := None |}))))))
           "Please enter a valid 5-digit zip code.").
  reflexivity.
Defined.

Lemma exact_zip_has_priority_witness :
  snd (handleSearch sampleMeters sampleRpc sampleState)
  = [ find_deals_in_zip "22903" "milk" 100;
      find_deals_near_zip "22903" "milk" 16093 100 ].
Proof.
  refine (proj1 (proj2 (exact_zip_has_priority Z sampleMeters sampleRpc
                          sampleState 10 _ _ _ _ _ _)
                       (Some []) _ _)).
  - reflexivity.
  - reflexivity.
  - discriminate.
  - reflexivity.
  - reflexivity.
  - lia.
  - reflexivity.
  - right. reflexivity.
Defined.

Lemma results_come_from_last_call_witness :
  exists earlier call data,
    snd (handleSearch sampleMeters sampleRpc sampleState)
    = (earlier ++ [call])%list
    /\ sampleRpc call = RpcReturns (Some data) None
    /\ In {| id := 1; product_name := "milk"; product_price := 1;
             retailer := "Kroger"; zip_code := "22902";
             distance_m := Some 3200 |} data.
Proof.
  apply (results_come_from_last_call Z sampleMeters sampleRpc sampleState).
  left. reflexivity.
Defined.

End SearchHandlerFacts.


(** ** The home page *)

Module HomeFacts.

Import HomePage.

Lemma includes_empty (s : string) : includes s "" = true.
Proof. destruct s; reflexivity. Qed.

Lemma lowerChar_idempotent (c : ascii) : lowerChar (lowerChar c) = lowerChar c.
Proof.
  destruct c as [[] [] [] [] [] [] [] []]; reflexivity.
Qed.

Lemma toLowerCase_idempotent (s : string) :
  toLowerCase (toLowerCase s) = toLowerCase s.
Proof.
  induction s as [|c s IH]; simpl; [reflexivity|].
  rewrite lowerChar_idempotent, IH. reflexivity.
Qed.

(** X14.  With an empty search box and the category "All" every item is
    listed, and the listing does not depend on the case of the letters
    typed in the search box. *)
Theorem filter_shows_all_and_ignores_case :
  forall items searchTerm selectedCategory,
    filteredItems items "" "All" = items
    /\ filteredItems items (toLowerCase searchTerm) selectedCategory
       = filteredItems items searchTerm selectedCategory.
Proof.
  intros items searchTerm selectedCategory. split.
  - unfold filteredItems.
    transitivity (filter (fun _ : Item => true) items).
    + apply filter_ext. intro item. simpl toLowerCase.
      rewrite includes_empty. reflexivity.
    + induction items as [|i items IH]; simpl; [reflexivity|].
      rewrite IH. reflexivity.
  - unfold filteredItems. rewrite toLowerCase_idempotent. reflexivity.
Qed.

Lemma ownGroup_app (groups : Groups) (key c : string) (g : list Item) :
  ownGroup groups key = None ->
  ownGroup (groups ++ [(key, g)])%list c
  = if String.eqb key c then Some g else ownGroup groups c.
Proof.
  induction groups as [|[k x] groups IH]; simpl; intro H; [reflexivity|].
  destruct (String.eqb_spec k key) as [->|Hk]; [discriminate|].
  destruct (String.eqb_spec k c) as [->|Hc].
  - destruct (String.eqb_spec key c) as [->|]; [contradiction | reflexivity].
  - apply IH. exact H.
Qed.

Lemma ownGroup_pushGroup (groups : Groups) (key c : string) (item : Item) :
  ownGroup (pushGroup groups key item) c
  = if String.eqb key c
    then match ownGroup groups key with
         | Some g => Some (g ++ [item])%list
         | None => None
         end
    else ownGroup groups c.
Proof.
  induction groups as [|[k x] groups IH]; simpl.
  - destruct (String.eqb key c); reflexivity.
  - destruct (String.eqb_spec k key) as [->|Hk]; simpl.
    + destruct (String.eqb_spec key c) as [->|Hc]; [reflexivity|].
      reflexivity.
    + destruct (String.eqb_spec k c) as [->|Hc].
      * destruct (String.eqb_spec key c) as [->|]; [contradiction|reflexivity].
      * exact IH.
Qed.

Lemma keys_pushGroup (groups : Groups) (key : string) (item : Item) :
  map fst (pushGroup groups key item) = map fst groups.
Proof.
  induction groups as [|[k x] groups IH]; simpl; [reflexivity|].
  destruct (String.eqb k key); simpl; [reflexivity | rewrite IH; reflexivity].
Qed.

Lemma ownGroup_None_keys (groups : Groups) (key : string) :
  ownGroup groups key = None <-> ~ In key (map fst groups).
Proof.
  induction groups as [|[k x] groups IH]; simpl; [tauto|].
  destruct (String.eqb_spec k key) as [->|Hk].
  - split; [discriminate | intro H; exfalso; apply H; left; reflexivity].
  - rewrite IH. tauto.
Qed.

Lemma reduceGroups_spec (items : list Item) (groups : Groups) :
  (forall item, In item items -> inheritedKey (category item) = false) ->
  NoDup (map fst groups) ->
  exists groups',
    reduceGroups items groups = Normal groups'
    /\ NoDup (map fst groups')
    /\ forall c,
        ownGroup groups' c
        = joined (ownGroup groups c)
                 (filter (fun i => String.eqb (category i) c) items).
Proof.
  revert groups. induction items as [|item items IH]; intros groups Hinh Hnd;
    simpl.
  - exists groups. split; [reflexivity|]. split; [exact Hnd|].
    intro c. destruct (ownGroup groups c); simpl;
      [rewrite app_nil_r|]; reflexivity.
  - unfold groupInto.
    destruct (ownGroup groups (category item)) as [g|] eqn:Hown.
    + destruct (IH (pushGroup groups (category item) item)) as [g' [Hr [Hn Hg]]].
      * intros i Hi. apply Hinh. right. exact Hi.
      * rewrite keys_pushGroup. exact Hnd.
      * exists g'. split; [exact Hr|]. split; [exact Hn|].
        intro c. rewrite Hg, ownGroup_pushGroup, Hown.
        destruct (String.eqb_spec (category item) c) as [<-|Hc].
        -- rewrite Hown. simpl. rewrite <- app_assoc. reflexivity.
        -- reflexivity.
    + rewrite (Hinh item) by (left; reflexivity).
      destruct (IH (groups ++ [(category item, [item])])%list)
        as [g' [Hr [Hn Hg]]].
      * intros i Hi. apply Hinh. right. exact Hi.
      * rewrite map_app. simpl. apply NoDup_app; [exact Hnd | |].
        -- constructor; [intros [] | constructor].
        -- intros a Ha [<- | []]. apply ownGroup_None_keys in Hown.
           contradiction.
      * exists g'. split; [exact Hr|]. split; [exact Hn|].
        intro c. rewrite Hg, ownGroup_app by exact Hown.
        destruct (String.eqb_spec (category item) c) as [<-|Hc].
        -- rewrite Hown. reflexivity.
        -- reflexivity.
Qed.

Lemma reduceGroups_throws (items : list Item) (groups : Groups) :
  (exists item, In item items /\ inheritedKey (category item) = true) ->
  (forall k, In k (map fst groups) -> inheritedKey k = false) ->
  reduceGroups items groups = Throw TypeError.
Proof.
  revert groups. induction items as [|item items IH]; intros groups Hex Hkeys;
    simpl.
  - destruct Hex as [i [[] _]].
  - unfold groupInto.
    destruct (ownGroup groups (category item)) as [g|] eqn:Hown.
    + apply IH.
      * destruct Hex as [i [[<- | Hin] Hi]]; [|exists i; auto].
        exfalso.
        assert (In (category item) (map fst groups)) as Hk.
        { destruct (in_dec string_dec (category item) (map fst groups))
            as [Hk | Hk]; [exact Hk|].
          apply ownGroup_None_keys in Hk. congruence. }
        rewrite (Hkeys _ Hk) in Hi. discriminate.
      * rewrite keys_pushGroup. exact Hkeys.
    + destruct (inheritedKey (category item)) eqn:Hinh; [reflexivity|].
      apply IH.
      * destruct Hex as [i [[<- | Hin] Hi]]; [congruence | exists i; auto].
      * intros k Hk. rewrite map_app in Hk. apply in_app_or in Hk.
        destruct Hk as [Hk | [<- | []]]; [apply Hkeys; exact Hk | exact Hinh].
Qed.

Lemma sizes_pushGroup (groups : Groups) (key : string) (item : Item) (g : list Item) :
  ownGroup groups key = Some g ->
  list_sum (map (fun kv => List.length (snd kv)) (pushGroup groups key item))
  = S (list_sum (map (fun kv => List.length (snd kv)) groups)).
Proof.
  revert g. induction groups as [|[k x] groups IH]; simpl; intros g H;
    [discriminate|].
  destruct (String.eqb_spec k key) as [->|Hk]; simpl.
  - rewrite length_app. simpl. lia.
  - rewrite (IH g H). lia.
Qed.

Lemma reduceGroups_sizes (items : list Item) (groups groups' : Groups) :
  reduceGroups items groups = Normal groups' ->
  list_sum (map (fun kv => List.length (snd kv)) groups')
  = (list_sum (map (fun kv => List.length (snd kv)) groups)
     + List.length items)%nat
  /\ (groups' = [] -> items = [] /\ groups = []).
Proof.
  revert groups. induction items as [|item items IH]; intros groups; simpl.
  - intro E. injection E as <-. split; [lia | auto].
  - unfold groupInto.
    destruct (ownGroup groups (category item)) as [g|] eqn:Hown.
    + intro E. apply IH in E. destruct E as [E1 E2].
      rewrite (sizes_pushGroup _ _ _ g Hown) in E1. split; [lia|].
      intro Hnil. destruct (E2 Hnil) as [_ Hp].
      destruct groups as [|[k x] groups]; [discriminate|].
      simpl in Hp. destruct (String.eqb k (category item)); discriminate.
    + destruct (inheritedKey (category item)); [discriminate|].
      intro E. apply IH in E. destruct E as [E1 E2].
      rewrite map_app, list_sum_app in E1. simpl in E1. split; [lia|].
      intro Hnil. destruct (E2 Hnil) as [_ Hp].
      destruct groups; discriminate.
Qed.

(** X15.  When no listed item has a category that names a property
    inherited from [Object.prototype], grouping succeeds: the groups have
    pairwise different categories, none is empty, and the group of a
    category holds exactly the listed items of that category, in the order
    listed. *)
Theorem groups_partition_by_category :
  forall filtered,
    (forall item, In item filtered -> inheritedKey (category item) = false) ->
    exists groups,
      groupedItems filtered = Normal groups
      /\ NoDup (map fst groups)
      /\ forall c,
          ownGroup groups c
          = match filter (fun i => String.eqb (category i) c) filtered with
            | [] => None
            | g => Some g
            end.
Proof.
  intros filtered Hinh.
  destruct (reduceGroups_spec filtered [] Hinh) as [groups [Hr [Hn Hg]]];
    [constructor|].
  exists groups. split; [exact Hr|]. split; [exact Hn|].
  intro c. rewrite Hg. simpl.
  destruct (filter _ filtered); reflexivity.
Qed.

Lemma groups_partition_by_category_witness :
  exists groups,
    groupedItems samplePantry = Normal groups
    /\ NoDup (map fst groups)
    /\ forall c,
        ownGroup groups c
        = match filter (fun i => String.eqb (category i) c) samplePantry with
          | [] => None
          | g => Some g
          end.
Proof.
  apply (groups_partition_by_category samplePantry).
  intros item [<- | [<- | [<- | []]]]; reflexivity.
Defined.

(** X16.  Grouping throws exactly when a listed item has a category named
    like an inherited property ("constructor", "toString", ...): the page
    then fails to render; the thrown error is a TypeError. *)
Theorem grouping_throws_on_inherited_category :
  forall filtered,
    (exists item, In item filtered /\ inheritedKey (category item) = true)
    <-> groupedItems filtered = Throw TypeError.
Proof.
  intro filtered. split.
  - intro Hex. apply reduceGroups_throws; [exact Hex | intros k []].
  - intro Hthrow.
    destruct (existsb (fun i => inheritedKey (category i)) filtered) eqn:Hex.
    + apply existsb_exists in Hex. exact Hex.
    + exfalso.
      destruct (reduceGroups_spec filtered []) as [groups [Hr _]].
      * intros item Hin.
        destruct (inheritedKey (category item)) eqn:Hi; [|reflexivity].
        assert (existsb (fun i => inheritedKey (category i)) filtered = true)
          as Ht by (apply existsb_exists; exists item; auto).
        congruence.
      * constructor.
      * unfold groupedItems in Hthrow. congruence.
Qed.

Lemma grouping_throws_on_inherited_category_witness :
  groupedItems [ sampleItem "1" "Whole Milk" "Dairy" None;
                 sampleItem "2" "Mystery" "constructor" None ]
  = Throw TypeError.
Proof.
  apply (proj1 (grouping_throws_on_inherited_category
                  [ sampleItem "1" "Whole Milk" "Dairy" None;
                    sampleItem "2" "Mystery" "constructor" None ])).
  exists (sampleItem "2" "Mystery" "constructor" None).
  split; [right; left; reflexivity | reflexivity].
Defined.

(** X17.  The counts in the group headers add up to the number of listed
    items, and there is no group at all (the page shows its "No items yet"
    card) exactly when no item is listed, which also happens when the
    search or the category filter hides every item of a pantry that is not
    empty. *)
Theorem group_counts_add_up :
  forall filtered groups,
    groupedItems filtered = Normal groups ->
    list_sum (map (fun kv => List.length (snd kv)) groups)
    = List.length filtered
    /\ (List.length groups = 0%nat <-> filtered = []).
Proof.
  intros filtered groups H. unfold groupedItems in H.
  pose proof (reduceGroups_sizes _ _ _ H) as [Hsum Hnil]. simpl in Hsum.
  split; [exact Hsum|]. split.
  - intro Hlen. destruct groups; [|discriminate]. apply Hnil. reflexivity.
  - intros ->. simpl in H. injection H as <-. reflexivity.
Qed.

Lemma group_counts_add_up_witness :
  list_sum (map (fun kv => List.length (snd kv))
                [ ("Dairy", [ sampleItem "1" "Whole Milk" "Dairy" (Some "2024-06-21");
                              sampleItem "3" "Greek Yogurt" "Dairy" (Some "2024-07-02") ]);
                  ("Pantry", [ sampleItem "2" "Brown Rice" "Pantry" (Some "2025-06-18") ]) ])
  = List.length samplePantry
  /\ (List.length
        [ ("Dairy", [ sampleItem "1" "Whole Milk" "Dairy" (Some "2024-06-21");
                      sampleItem "3" "Greek Yogurt" "Dairy" (Some "2024-07-02") ]);
          ("Pantry", [ sampleItem "2" "Brown Rice" "Pantry" (Some "2025-06-18") ]) ]
      = 0%nat <-> samplePantry = []).
Proof.
  apply (group_counts_add_up samplePantry). reflexivity.
Defined.

(** X18.  The red dot counts calendar days: for an item whose stored
    expiration is the date-only string of an instant [t] (as [estimateDates]
    produces it), the dot is shown exactly when that date is at most three
    days after today's UTC date, whatever the time of day.  An item whose
    stored expiration does not parse never shows the dot. *)
Theorem expiring_soon_counts_calendar_days :
  forall now item,
    (forall t,
        estimated_expiration_at item = Some (dateString t) ->
        0 <= YearFromTime t <= 9999 ->
        - maxTime <= now + 3 * 24 * 60 * 60 * 1000 <= maxTime ->
        expiringSoon Date_parse_iso now item = (Day t <=? Day now + 3))
    /\ (forall parse s,
           estimated_expiration_at item = Some s ->
           Date_of_string parse s = None ->
           expiringSoon parse now item = false).
Proof.
  intros now item. split.
  - intros t Hexp Hy Hnow. unfold expiringSoon. rewrite Hexp.
    destruct (String.eqb_spec (dateString t) "") as [E | _];
      [exfalso; apply (dateString_not_empty t Hy E)|].
    rewrite Date_of_string_dateString by exact Hy.
    rewrite TimeClip_in_range by exact Hnow.
    unfold js_le, Day, msPerDay.
    destruct (Z.leb_spec (t / 86400000 * 86400000)
                         (now + 3 * 24 * 60 * 60 * 1000));
      destruct (Z.leb_spec (t / 86400000) (now / 86400000 + 3));
      try reflexivity; exfalso;
      Z.to_euclidean_division_equations; lia.
  - intros parse s Hexp Hparse. unfold expiringSoon. rewrite Hexp, Hparse.
    destruct (String.eqb s ""); reflexivity.
Qed.

Lemma expiring_soon_counts_calendar_days_witness :
  expiringSoon Date_parse_iso 1718712345678
    (sampleItem "1" "Whole Milk" "Dairy" (Some (dateString 1718928000000)))
  = (Day 1718928000000 <=? Day 1718712345678 + 3)
  /\ expiringSoon Date_parse_iso 1718712345678
       (sampleItem "9" "Old Jar" "Pantry" (Some "soon"))
     = false.
Proof.
  split.
  - apply (proj1 (expiring_soon_counts_calendar_days 1718712345678
                    (sampleItem "1" "Whole Milk" "Dairy"
                                (Some (dateString 1718928000000))))
             1718928000000).
    + reflexivity.
    + vm_compute. split; discriminate.
    + vm_compute. split; discriminate.
  - apply (proj2 (expiring_soon_counts_calendar_days 1718712345678
                    (sampleItem "9" "Old Jar" "Pantry" (Some "soon")))
             Date_parse_iso "soon").
    + reflexivity.
    + reflexivity.
Defined.

End HomeFacts.


(** ** The receipt scanning page *)

Module ScanReceiptFacts.

Import ScanReceiptPage.

Lemma mapIndexed_length {A B : Type} (f : A -> nat -> B) (l : list A) (i : nat) :
  List.length (mapIndexed f l i) = List.length l.
Proof.
  revert i. induction l as [|x l IH]; intro i; simpl; [reflexivity|].
  rewrite IH. reflexivity.
Qed.

Lemma mapIndexed_nth {A B : Type} (f : A -> nat -> B) (l : list A) (i j : nat) :
  nth_error (mapIndexed f l i) j
  = option_map (fun x => f x (i + j)%nat) (nth_error l j).
Proof.
  revert i j. induction l as [|x l IH]; intros i j; destruct j; simpl;
    try reflexivity.
  - rewrite Nat.add_0_r. reflexivity.
  - rewrite IH. replace (S i + j)%nat with (i + S j)%nat by lia. reflexivity.
Qed.

Lemma mapIndexed_ext {A B : Type} (f g : A -> nat -> B) (l : list A) (i : nat) :
  (forall x j, (i <= j)%nat -> f x j = g x j) ->
  mapIndexed f l i = mapIndexed g l i.
Proof.
  revert i. induction l as [|x l IH]; intros i H; simpl; [reflexivity|].
  rewrite (H x i) by lia. f_equal. apply IH. intros y j Hj. apply H. lia.
Qed.

Lemma mapIndexed_id {A : Type} (f : A -> nat -> A) (l : list A) (i : nat) :
  (forall x j, (i <= j < i + List.length l)%nat -> f x j = x) ->
  mapIndexed f l i = l.
Proof.
  revert i. induction l as [|x l IH]; intros i H; simpl; [reflexivity|].
  rewrite (H x i) by (simpl; lia). f_equal. apply IH.
  intros y j Hj. apply H. simpl. lia.
Qed.

Lemma mapIndexed_compose {A : Type} (f g : A -> nat -> A) (l : list A) (i : nat) :
  mapIndexed f (mapIndexed g l i) i = mapIndexed (fun x j => f (g x j) j) l i.
Proof.
  revert i. induction l as [|x l IH]; intro i; simpl; [reflexivity|].
  rewrite IH. reflexivity.
Qed.

Lemma mapIndexed_map {A B C : Type} (h : B -> C) (f : A -> nat -> B)
      (l : list A) (i : nat) :
  map h (mapIndexed f l i) = mapIndexed (fun x j => h (f x j)) l i.
Proof.
  revert i. induction l as [|x l IH]; intro i; simpl; [reflexivity|].
  rewrite IH. reflexivity.
Qed.

Lemma mapIndexed_const {A B : Type} (h : A -> B) (l : list A) (i : nat) :
  mapIndexed (fun x _ => h x) l i = map h l.
Proof.
  revert i. induction l as [|x l IH]; intro i; simpl; [reflexivity|].
  rewrite IH. reflexivity.
Qed.

(** X19.  Toggling the confirmation of an item flips the check mark of the
    item at that position and changes nothing else; toggling twice restores
    the state, and an index past the end of the list changes nothing. *)
Theorem toggle_flips_one_item :
  forall index st,
    toggleItemConfirmation index (toggleItemConfirmation index st) = st
    /\ ((List.length (extractedItems st) <= index)%nat ->
        toggleItemConfirmation index st = st)
    /\ (forall j,
           nth_error (extractedItems (toggleItemConfirmation index st)) j
           = if Nat.eqb j index
             then option_map flipped (nth_error (extractedItems st) j)
             else nth_error (extractedItems st) j)
    /\ image (toggleItemConfirmation index st) = image st
    /\ isProcessing (toggleItemConfirmation index st) = isProcessing st
    /\ isConfirming (toggleItemConfirmation index st) = isConfirming st.
Proof.
  intros index st. unfold toggleItemConfirmation.
  split; [|split; [|split; [|auto]]].
  - destruct st as [img proc items conf].
    unfold setExtractedItems. cbn [extractedItems image isProcessing isConfirming].
    f_equal. rewrite mapIndexed_compose. apply mapIndexed_id.
    intros [n c p q b] j _. destruct (Nat.eqb j index); [|reflexivity].
    cbn. rewrite negb_involutive. reflexivity.
  - intro Hlen. destruct st as [img proc items conf].
    unfold setExtractedItems. cbn [extractedItems image isProcessing isConfirming] in *.
    f_equal. apply mapIndexed_id. intros x j Hj.
    destruct (Nat.eqb_spec j index); [lia | reflexivity].
  - intro j. cbn [extractedItems setExtractedItems]. rewrite mapIndexed_nth.
    cbn [Nat.add].
    destruct (nth_error (extractedItems st) j) as [item|];
      destruct (Nat.eqb j index); reflexivity.
Qed.

Lemma toggle_flips_one_item_witness : toggleItemConfirmation 7 sampleScan = sampleScan.
Proof.
  apply (proj1 (proj2 (toggle_flips_one_item 7 sampleScan))).
  simpl. lia.
Defined.

(** X20.  Renaming an item changes the name at that position only: all
    check marks, categories, prices and quantities stay, so the number of
    items about to be added is the same. *)
Theorem rename_keeps_everything_else :
  forall index newName st,
    let items := extractedItems st in
    let items' := extractedItems (updateItemName index newName st) in
    map confirmed items' = map confirmed items
    /\ map category items' = map category items
    /\ map price items' = map price items
    /\ map quantity items' = map quantity items
    /\ List.length (filter confirmed items') = List.length (filter confirmed items)
    /\ (forall j,
           nth_error (map name items') j
           = if Nat.eqb j index
             then option_map (fun _ => newName) (nth_error items j)
             else nth_error (map name items) j).
Proof.
  intros index newName st. cbv zeta. unfold updateItemName.
  cbn [extractedItems setExtractedItems].
  assert (forall (B : Type) (h : ReceiptItem -> B),
             (forall item, h (renamed newName item) = h item) ->
             map h (mapIndexed
                      (fun item i =>
                         if Nat.eqb i index
                         then {| name := newName; category := category item;
                                 price := price item; quantity := quantity item;
                                 confirmed := confirmed item |}
                         else item) (extractedItems st) 0)
             = map h (extractedItems st)) as Hkeep.
  { intros B h Hh. rewrite mapIndexed_map, <- (mapIndexed_const h _ 0%nat).
    apply mapIndexed_ext. intros x j _. destruct (Nat.eqb j index);
      [apply (Hh x) | reflexivity]. }
  split; [apply Hkeep; reflexivity|].
  split; [apply Hkeep; reflexivity|].
  split; [apply Hkeep; reflexivity|].
  split; [apply Hkeep; reflexivity|].
  split.
  - assert (forall l l' : list ReceiptItem,
               map confirmed l' = map confirmed l ->
               List.length (filter confirmed l') = List.length (filter confirmed l))
      as Hcount.
    { induction l as [|x l IH]; intros [|y l'] E; simpl in *;
        try discriminate; [reflexivity|].
      injection E as E1 E2. rewrite E1.
      destruct (confirmed x); simpl; rewrite (IH l' E2); reflexivity. }
    apply Hcount. apply Hkeep. reflexivity.
  - intro j. rewrite !nth_error_map, mapIndexed_nth. cbn [Nat.add].
    destruct (nth_error (extractedItems st) j) as [item|];
      destruct (Nat.eqb j index); reflexivity.
Qed.

Lemma Promise_all_fulfilled {A B : Type} (P : A -> B -> Prop)
      (f : A -> nat -> Promise B) (l : list A) (k : nat) :
  (forall i item, nth_error l i = Some item ->
                  exists v, f item (k + i)%nat = Fulfilled v /\ P item v) ->
  exists vs,
    Promise_all (mapIndexed f l k) = Fulfilled vs
    /\ List.length vs = List.length l
    /\ forall i item, nth_error l i = Some item ->
                      exists v, nth_error vs i = Some v /\ P item v.
Proof.
  revert k. induction l as [|x l IH]; intros k H; simpl.
  - exists []. split; [reflexivity|]. split; [reflexivity|].
    intros [|i] item E; discriminate E.
  - destruct (H 0%nat x eq_refl) as [v [Hv HP]].
    rewrite Nat.add_0_r in Hv. rewrite Hv.
    destruct (IH (S k)) as [vs [Hvs [Hlen Hnth]]].
    + intros i item E. destruct (H (S i) item E) as [w [Hw HPw]].
      exists w. split; [|exact HPw].
      replace (S k + i)%nat with (k + S i)%nat by lia. exact Hw.
    + rewrite Hvs. exists (v :: vs). split; [reflexivity|].
      split; [simpl; rewrite Hlen; reflexivity|].
      intros [|i] item E; simpl in *.
      * injection E as <-. exists v. auto.
      * apply Hnth. exact E.
Qed.

Lemma Promise_all_inv {A B : Type} (f : A -> nat -> Promise B) (l : list A)
      (k : nat) (vs : list B) :
  Promise_all (mapIndexed f l k) = Fulfilled vs ->
  List.length vs = List.length l
  /\ forall i item, nth_error l i = Some item ->
                    exists v, nth_error vs i = Some v
                              /\ f item (k + i)%nat = Fulfilled v.
Proof.
  revert k vs. induction l as [|x l IH]; intros k vs; simpl.
  - intro E. injection E as <-. split; [reflexivity|].
    intros [|i] item E; discriminate E.
  - destruct (f x k) as [v|e] eqn:Hv; [|discriminate].
    destruct (Promise_all (mapIndexed f l (S k))) as [ws|e] eqn:Hws;
      [|discriminate].
    intro E. injection E as <-. destruct (IH (S k) ws Hws) as [Hlen Hnth].
    split; [simpl; rewrite Hlen; reflexivity|].
    intros [|i] item E; simpl in *.
    + injection E as <-. exists v. rewrite Nat.add_0_r. auto.
    + destruct (Hnth i item E) as [w [Hw Hf]]. exists w. split; [exact Hw|].
      replace (k + S i)%nat with (S k + i)%nat by lia. exact Hf.
Qed.

Lemma Promise_all_rejected {A B : Type} (f : A -> nat -> Promise B)
      (l : list A) (k : nat) (i : nat) (item : A) (e : JsError) :
  nth_error l i = Some item ->
  f item (k + i)%nat = Rejected e ->
  exists e', Promise_all (mapIndexed f l k) = Rejected e'.
Proof.
  revert k i. induction l as [|x l IH]; intros k i Hnth Hf.
  - destruct i; discriminate Hnth.
  - simpl. destruct i as [|i]; simpl in Hnth.
    + injection Hnth as ->. rewrite Nat.add_0_r in Hf. rewrite Hf.
      eexists. reflexivity.
    + destruct (f x k); [|eexists; reflexivity].
      destruct (IH (S k) i Hnth) as [e' He'].
      * replace (S k + i)%nat with (k + S i)%nat by lia. exact Hf.
      * rewrite He'. eexists. reflexivity.
Qed.

Lemma withEstimates_Fulfilled
      (estimateDatesFor : nat -> EstimateDatesInput -> Promise EstimateDatesOutput)
      (today : string) (item : ReceiptItem) (i : nat) (v : ItemWithEstimates) :
  withEstimates estimateDatesFor today item i = Fulfilled v <->
  exists r,
    estimateDatesFor i
      (Build_EstimateDatesInput (name item) (category item) today)
    = Fulfilled r
    /\ v = {| item_name := name item;
              item_category := category item;
              purchased_at := today;
              estimated_expiration_at := estimatedExpirationAt r;
              estimated_restock_at := estimatedRestockAt r;
              estimate_source := source r |}.
Proof.
  unfold withEstimates.
  destruct (estimateDatesFor _ _) as [r|e]; simpl.
  - split.
    + intro E. injection E as <-. exists r. auto.
    + intros [r' [E ->]]. injection E as <-. reflexivity.
  - split; [discriminate | intros [r' [E _]]; discriminate].
Qed.

(** When the module loads, the clock is valid and every estimate is
    fulfilled, [onSuccess] is called once, with one record per confirmed
    item, whatever [estimateDates] the import provides. *)
Lemma confirmItemsWith_fulfilled
      (estimateDatesFor : nat -> EstimateDatesInput -> Promise EstimateDatesOutput)
      (now : Z) (onSuccessThrows : list ItemWithEstimates -> bool)
      (st : ScanState) (P : ReceiptItem -> ItemWithEstimates -> Prop) :
  filter confirmed (extractedItems st) <> [] ->
  - maxTime <= now <= maxTime ->
  (forall i item,
      nth_error (filter confirmed (extractedItems st)) i = Some item ->
      exists r,
        estimateDatesFor i
          (Build_EstimateDatesInput (name item) (category item) (dateString now))
        = Fulfilled r
        /\ P item {| item_name := name item;
                     item_category := category item;
                     purchased_at := dateString now;
                     estimated_expiration_at := estimatedExpirationAt r;
                     estimated_restock_at := estimatedRestockAt r;
                     estimate_source := source r |}) ->
  exists payload,
    snd (confirmItemsWith estimateDatesFor true now onSuccessThrows st)
    = [payload]
    /\ List.length payload
       = List.length (filter confirmed (extractedItems st))
    /\ forall i item,
        nth_error (filter confirmed (extractedItems st)) i = Some item ->
        exists v, nth_error payload i = Some v /\ P item v.
Proof.
  intros Hne Hnow Hall. unfold confirmItemsWith.
  destruct (Nat.eqb_spec (List.length (filter confirmed (extractedItems st))) 0)
    as [Hnone | _].
  { exfalso. apply Hne.
    destruct (filter confirmed (extractedItems st)); [reflexivity|discriminate]. }
  cbn [negb]. rewrite TimeClip_in_range by exact Hnow. rewrite isoDate_valid.
  destruct (Promise_all_fulfilled P
              (withEstimates estimateDatesFor (dateString now))
              (filter confirmed (extractedItems st)) 0)
    as [vs [Hvs [Hlen Hnth]]].
  - intros i item Hitem. destruct (Hall i item Hitem) as [r [Hr HP]].
    eexists. split; [|exact HP].
    apply withEstimates_Fulfilled. exists r. split; [exact Hr | reflexivity].
  - rewrite Hvs. exists vs.
    split; [destruct (onSuccessThrows vs); reflexivity|].
    split; [exact Hlen | exact Hnth].
Qed.

Section Confirm.

Variable LocalTZA : Z.
Variable Date_parse : string -> jsnum.
Variable moduleLoads : bool.
Variable now : Z.
Variable net : nat -> FetchOutcome.
Variable onSuccessThrows : list ItemWithEstimates -> bool.

#[local] Abbreviation confirm :=
  (handleConfirmItems LocalTZA Date_parse moduleLoads now net onSuccessThrows).

#[local] Abbreviation estimateFor item i :=
  (estimateDates LocalTZA Date_parse (net i)
     (Build_EstimateDatesInput (name item) (category item) (dateString now))).

(** X21.  Adding the confirmed items calls [onSuccess] at most once.  When
    it is not called, exactly one toast is shown, a destructive one.  When
    it is called, the toast "Items added!" was shown before the call and
    the destructive "Error" toast follows it exactly when the callback
    throws, the call standing inside the [try] block.  The callback
    receives one record per confirmed item, in the order of the list, with
    the item's name and category, today's UTC date as purchase date, and
    the dates and source that [estimateDates] returned for that item;
    unconfirmed items are not sent. *)
Theorem confirm_sends_one_record_per_confirmed_item :
  forall st,
    let confirmedItems := filter confirmed (extractedItems st) in
    (snd (confirm st) = [] ->
     exists toast,
       fst (confirm st) = [toast] /\ variant toast = Some "destructive")
    /\ (forall payload,
           In payload (snd (confirm st)) ->
           snd (confirm st) = [payload]
           /\ fst (confirm st)
              = addedToast (List.length confirmedItems)
                  :: (if onSuccessThrows payload then [failureToast] else [])
           /\ List.length payload = List.length confirmedItems
           /\ forall i item,
               nth_error confirmedItems i = Some item ->
               exists r,
                 estimateFor item i = Fulfilled r
                 /\ nth_error payload i
                    = Some {| item_name := name item;
                              item_category := category item;
                              purchased_at := dateString now;
                              estimated_expiration_at := estimatedExpirationAt r;
                              estimated_restock_at := estimatedRestockAt r;
                              estimate_source := source r |}).
Proof.
  intro st. cbv zeta. unfold handleConfirmItems, confirmItemsWith, confirmFailed.
  destruct (Nat.eqb_spec (List.length (filter confirmed (extractedItems st))) 0)
    as [Hnone | Hsome].
  { split; [intros _; eexists; split; reflexivity | intros p []]. }
  destruct moduleLoads; cbn [negb];
    [| split; [intros _; eexists; split; reflexivity | intros p []] ].
  unfold TimeClip. destruct (maxTime <? Z.abs now);
    [rewrite isoDate_invalid;
     split; [intros _; eexists; split; reflexivity | intros p []] |].
  rewrite isoDate_valid.
  destruct (Promise_all _) as [payload|e] eqn:Hall;
    [| split; [intros _; eexists; split; reflexivity | intros p []] ].
  assert (forall toasts : list Toast,
             snd (toasts, [payload]) = [] -> False) as Hcalled
      by (intros toasts E; discriminate E).
  split.
  - intro E. exfalso. destruct (onSuccessThrows payload);
      exact (Hcalled _ E).
  - intros p Hin.
    assert (p = payload) as ->.
    { destruct (onSuccessThrows payload); destruct Hin as [<- | []];
        reflexivity. }
    split; [destruct (onSuccessThrows payload); reflexivity|].
    split; [destruct (onSuccessThrows payload); reflexivity|].
    apply Promise_all_inv in Hall. destruct Hall as [Hlen Hnth].
    split; [exact Hlen|].
    intros i item Hitem. destruct (Hnth i item Hitem) as [v [Hv Hf]].
    apply withEstimates_Fulfilled in Hf. destruct Hf as [r [Hr ->]].
    exists r. split; [exact Hr | exact Hv].
Qed.

(** X22.  The batch is all or nothing: [onSuccess] is called exactly when
    at least one item is confirmed, the estimation module loads, the clock
    is a valid date and the estimate of every confirmed item is fulfilled.
    One rejected estimate keeps every item from being added. *)
Theorem confirm_is_all_or_nothing :
  forall st,
    let confirmedItems := filter confirmed (extractedItems st) in
    snd (confirm st) <> [] <->
    confirmedItems <> []
    /\ moduleLoads = true
    /\ - maxTime <= now <= maxTime
    /\ forall i item,
        nth_error confirmedItems i = Some item ->
        exists r, estimateFor item i = Fulfilled r.
Proof.
  intro st. cbv zeta. unfold handleConfirmItems, confirmItemsWith, confirmFailed.
  destruct (Nat.eqb_spec (List.length (filter confirmed (extractedItems st))) 0)
    as [Hnone | Hsome].
  { split; [intro H; exfalso; apply H; reflexivity|].
    intros [Hne _]. exfalso. apply Hne.
    destruct (filter confirmed (extractedItems st)); [reflexivity|discriminate]. }
  assert (filter confirmed (extractedItems st) <> []) as Hne.
  { intro E. rewrite E in Hsome. apply Hsome. reflexivity. }
  destruct moduleLoads; cbn [negb];
    [| split; [intro H; exfalso; apply H; reflexivity
              | intros [_ [Hm _]]; discriminate] ].
  unfold TimeClip. destruct (Z.ltb_spec maxTime (Z.abs now)) as [Hout | Hin].
  { rewrite isoDate_invalid. simpl.
    split; [intro H; exfalso; apply H; reflexivity | intros [_ [_ [Hr _]]];
            unfold maxTime in *; lia]. }
  rewrite isoDate_valid.
  destruct (Promise_all _) as [payload|e] eqn:Hall.
  - split; [|intros _; destruct (onSuccessThrows payload); discriminate].
    intros _.
    split; [exact Hne|]. split; [reflexivity|].
    split; [unfold maxTime in *; lia|].
    apply Promise_all_inv in Hall. destruct Hall as [_ Hnth].
    intros i item Hitem. destruct (Hnth i item Hitem) as [v [_ Hf]].
    apply withEstimates_Fulfilled in Hf. destruct Hf as [r [Hr _]].
    exists r. exact Hr.
  - split; [intro H; exfalso; apply H; reflexivity|].
    intros [_ [_ [_ Hall']]]. exfalso.
    destruct (Promise_all_fulfilled (fun _ _ => True)
                (withEstimates
                   (fun i => estimateDates LocalTZA Date_parse (net i))
                   (dateString now))
                (filter confirmed (extractedItems st)) 0)
      as [vs [Hvs _]].
    + intros i item Hitem. destruct (Hall' i item Hitem) as [r Hr].
      eexists. split; [|exact I].
      apply withEstimates_Fulfilled. exists r. split; [exact Hr | reflexivity].
    + rewrite Hvs in Hall. discriminate.
Qed.

End Confirm.

Lemma confirm_sends_one_record_per_confirmed_item_witness :
  snd (handleConfirmItems 0 Date_parse_iso true sampleNow
         (fun _ => FetchRejected) (fun _ => true) sampleScan) = [samplePayload]
  /\ fst (handleConfirmItems 0 Date_parse_iso true sampleNow
            (fun _ => FetchRejected) (fun _ => true) sampleScan)
     = [addedToast 2; failureToast]
  /\ List.length samplePayload
     = List.length (filter confirmed (extractedItems sampleScan)).
Proof.
  pose proof (proj2 (confirm_sends_one_record_per_confirmed_item
                       0 Date_parse_iso true sampleNow
                       (fun _ => FetchRejected) (fun _ => true) sampleScan)
                    samplePayload) as H.
  destruct H as [H1 [H2 [H3 _]]]; [vm_compute; left; reflexivity|].
  split; [exact H1 | split; [exact H2 | exact H3]].
Defined.

Lemma confirm_is_all_or_nothing_witness :
  filter confirmed (extractedItems sampleScan) <> []
  /\ true = true
  /\ - maxTime <= sampleNow <= maxTime
  /\ forall i item,
      nth_error (filter confirmed (extractedItems sampleScan)) i = Some item ->
      exists r,
        estimateDates 0 Date_parse_iso FetchRejected
          (Build_EstimateDatesInput (name item) (category item)
                                    (dateString sampleNow))
        = Fulfilled r.
Proof.
  apply (proj1 (confirm_is_all_or_nothing 0 Date_parse_iso true sampleNow
                  (fun _ => FetchRejected) (fun _ => false) sampleScan)).
  vm_compute. discriminate.
Defined.

Section EndToEnd.

Variable now : Z.
Variable net : nat -> FetchOutcome.
Variable onSuccessThrows : list ItemWithEstimates -> bool.

Lemma clock_in_range :
  0 <= YearFromTime now <= 9999 -> - maxTime <= now <= maxTime.
Proof.
  intro Hy. pose proof (Day_range_of_year now Hy) as HD.
  unfold Day, msPerDay, maxTime in *.
  Z.to_euclidean_division_equations. lia.
Qed.

Lemma confirm_heuristic_records (LocalTZA : Z) :
  forall st,
    filter confirmed (extractedItems st) <> [] ->
    (forall i, getLLMEstimate (net i) = None) ->
    (forall item, In item (filter confirmed (extractedItems st)) ->
                  inheritedKey (category item) = false) ->
    0 <= YearFromTime now <= 9999 ->
    exists payload,
      snd (handleConfirmItems LocalTZA Date_parse_iso true now net
                              onSuccessThrows st)
      = [payload]
      /\ List.length payload
         = List.length (filter confirmed (extractedItems st))
      /\ forall i item,
          nth_error (filter confirmed (extractedItems st)) i = Some item ->
          exists s r,
            getHeuristicEstimate (name item) (category item) = Some (days s r)
            /\ nth_error payload i
               = Some {| item_name := name item;
                         item_category := category item;
                         purchased_at := dateString now;
                         estimated_expiration_at :=
                           dateString ((Day now + Z.min s 365) * msPerDay);
                         estimated_restock_at :=
                           dateString
                             ((Day now + Z.min r (Z.min s 365)) * msPerDay);
                         estimate_source := "heuristic" |}.
Proof.
  intros st Hne Hnet Hcat Hy.
  pose proof (Day_range_of_year now Hy) as HD.
  destruct (confirmItemsWith_fulfilled
              (fun i => estimateDates LocalTZA Date_parse_iso (net i))
              now onSuccessThrows st
              (fun item v =>
                 exists s r,
                   getHeuristicEstimate (name item) (category item)
                   = Some (days s r)
                   /\ v = {| item_name := name item;
                             item_category := category item;
                             purchased_at := dateString now;
                             estimated_expiration_at :=
                               dateString ((Day now + Z.min s 365) * msPerDay);
                             estimated_restock_at :=
                               dateString
                                 ((Day now + Z.min r (Z.min s 365)) * msPerDay);
                             estimate_source := "heuristic" |})
              Hne (clock_in_range Hy))
    as [payload [Hp [Hlen Hnth]]].
  - intros i item Hitem.
    assert (In item (filter confirmed (extractedItems st))) as Hin
        by (apply (nth_error_In _ _ Hitem)).
    destruct (getHeuristicEstimate_total (name item) (category item)
                (Hcat item Hin)) as [e He].
    pose proof (getHeuristicEstimate_authored _ _ _ He) as Ha.
    apply authored_days in Ha. destruct Ha as [s [r [-> _]]].
    eexists. split.
    + apply (heuristic_closed_form LocalTZA Date_parse_iso (net i)
               (Build_EstimateDatesInput (name item) (category item)
                                         (dateString now))
               (Day now * msPerDay) s r).
      * apply Hnet.
      * exact He.
      * apply Date_of_string_dateString. exact Hy.
      * unfold msPerDay, maxTime. lia.
    + exists s, r. split; [exact He|].
      cbn [estimatedExpirationAt estimatedRestockAt source].
      replace (Day now * msPerDay + Z.min s 365 * msPerDay)
        with ((Day now + Z.min s 365) * msPerDay) by lia.
      replace (Day now * msPerDay + Z.min r (Z.min s 365) * msPerDay)
        with ((Day now + Z.min r (Z.min s 365)) * msPerDay) by lia.
      reflexivity.
  - exists payload. split; [exact Hp|]. split; [exact Hlen|].
    intros i item Hitem. destruct (Hnth i item Hitem) as [v [Hv [s [r [He ->]]]]].
    exists s, r. split; [exact He | exact Hv].
Qed.

(** X23.  With the oracle unreachable, the module loaded, a clock in the
    years 0 to 9999 and a host zone whose offsets differ by less than a
    day, confirming items whose categories are not inherited property
    names always succeeds, and every record sent is the rule table's
    answer counted in local calendar days from today's UTC midnight:
    expiration at the date set [min s 365] local days after it and restock
    at the date set the smaller of [r] and [min s 365] local days after
    it, for the pair [(s, r)] the resolver gives the item. *)
Theorem confirm_with_heuristics :
  forall zone st,
    Zoned.steady zone ->
    filter confirmed (extractedItems st) <> [] ->
    (forall i, getLLMEstimate (net i) = None) ->
    (forall item, In item (filter confirmed (extractedItems st)) ->
                  inheritedKey (category item) = false) ->
    0 <= YearFromTime now <= 9999 ->
    exists payload,
      snd (handleConfirmItemsZoned zone Date_parse_iso true now net
                                   onSuccessThrows st)
      = [payload]
      /\ List.length payload
         = List.length (filter confirmed (extractedItems st))
      /\ forall i item,
          nth_error (filter confirmed (extractedItems st)) i = Some item ->
          exists s r,
            getHeuristicEstimate (name item) (category item) = Some (days s r)
            /\ nth_error payload i
               = Some {| item_name := name item;
                         item_category := category item;
                         purchased_at := dateString now;
                         estimated_expiration_at :=
                           dateString
                             (Zoned.daysLater zone (Day now * msPerDay)
                                              (Z.min s 365));
                         estimated_restock_at :=
                           dateString
                             (Zoned.daysLater zone (Day now * msPerDay)
                                              (Z.min r (Z.min s 365)));
                         estimate_source := "heuristic" |}.
Proof.
  intros zone st Hz Hne Hnet Hcat Hy.
  pose proof (Day_range_of_year now Hy) as HD.
  destruct (confirmItemsWith_fulfilled
              (fun i => Zoned.estimateDates zone Date_parse_iso (net i))
              now onSuccessThrows st
              (fun item v =>
                 exists s r,
                   getHeuristicEstimate (name item) (category item)
                   = Some (days s r)
                   /\ v = {| item_name := name item;
                             item_category := category item;
                             purchased_at := dateString now;
                             estimated_expiration_at :=
                               dateString
                                 (Zoned.daysLater zone (Day now * msPerDay)
                                                  (Z.min s 365));
                             estimated_restock_at :=
                               dateString
                                 (Zoned.daysLater zone (Day now * msPerDay)
                                                  (Z.min r (Z.min s 365)));
                             estimate_source := "heuristic" |})
              Hne (clock_in_range Hy))
    as [payload [Hp [Hlen Hnth]]].
  - intros i item Hitem.
    assert (In item (filter confirmed (extractedItems st))) as Hin
        by (apply (nth_error_In _ _ Hitem)).
    destruct (getHeuristicEstimate_total (name item) (category item)
                (Hcat item Hin)) as [e He].
    pose proof (getHeuristicEstimate_authored _ _ _ He) as Ha.
    apply authored_days in Ha. destruct Ha as [s [r [-> _]]].
    eexists. split.
    + apply (zoned_heuristic_closed_form zone Date_parse_iso (net i)
               (Build_EstimateDatesInput (name item) (category item)
                                         (dateString now))
               (Day now * msPerDay) s r Hz).
      * apply Hnet.
      * exact He.
      * apply Date_of_string_dateString. exact Hy.
      * unfold msPerDay, maxTime. lia.
    + exists s, r. split; [exact He | reflexivity].
  - exists payload. split; [exact Hp|]. split; [exact Hlen|].
    intros i item Hitem. destruct (Hnth i item Hitem) as [v [Hv [s [r [He ->]]]]].
    exists s, r. split; [exact He | exact Hv].
Qed.

End EndToEnd.

Lemma confirm_with_heuristics_witness :
  exists payload,
    snd (handleConfirmItemsZoned Zoned.usEastern Date_parse_iso true sampleNow
           (fun _ => FetchResponse false NotJson) (fun _ => false) sampleScan)
    = [payload]
    /\ List.length payload
       = List.length (filter confirmed (extractedItems sampleScan))
    /\ forall i item,
        nth_error (filter confirmed (extractedItems sampleScan)) i = Some item ->
        exists s r,
          getHeuristicEstimate (name item) (category item) = Some (days s r)
          /\ nth_error payload i
             = Some {| item_name := name item;
                       item_category := category item;
                       purchased_at := dateString sampleNow;
                       estimated_expiration_at :=
                         dateString
                           (Zoned.daysLater Zoned.usEastern
                              (Day sampleNow * msPerDay) (Z.min s 365));
                       estimated_restock_at :=
                         dateString
                           (Zoned.daysLater Zoned.usEastern
                              (Day sampleNow * msPerDay)
                              (Z.min r (Z.min s 365)));
                       estimate_source := "heuristic" |}.
Proof.
  apply (confirm_with_heuristics sampleNow
           (fun _ => FetchResponse false NotJson) (fun _ => false)
           Zoned.usEastern sampleScan).
  - exact usEastern_steady.
  - vm_compute. discriminate.
  - intro i. reflexivity.
  - intros item Hin. vm_compute in Hin.
    destruct Hin as [<- | [<- | []]]; reflexivity.
  - vm_compute. split; discriminate.
Defined.

(** X24.  A scan ends with the page no longer processing and the image
    untouched.  When the function answers with a list of items, the page
    holds exactly those items, in order, each with the name, category,
    price and quantity it came with and all of them confirmed, and goes on
    to the review step, so that confirming right away adds every scanned
    item; an answer with an empty list still counts as a successful scan
    of 0 items.  Any other answer leaves the item list and the step as
    they were and shows one error toast. *)
Theorem scan_outcome :
  forall invoke st,
    let st' := fst (processReceiptImage invoke st) in
    let toasts := snd (processReceiptImage invoke st) in
    isProcessing st' = false
    /\ image st' = image st
    /\ (forall dataItems,
           invoke = InvokeReturns (Some (Some dataItems)) None ->
           extractedItems st'
           = map (fun item =>
                    {| name := ScanReceiptFunction.name item;
                       category := ScanReceiptFunction.category item;
                       price := ScanReceiptFunction.price item;
                       quantity := ScanReceiptFunction.quantity item;
                       confirmed := true |})
                 dataItems
           /\ filter confirmed (extractedItems st') = extractedItems st'
           /\ isConfirming st' = true
           /\ toasts
              = [ {| title := "Receipt scanned!";
                     description :=
                       "Found " ++ lengthString (List.length dataItems)
                         ++ " items. Review and confirm below.";
                     variant := None |} ])
    /\ ((forall dataItems, invoke <> InvokeReturns (Some (Some dataItems)) None) ->
        extractedItems st' = extractedItems st
        /\ isConfirming st' = isConfirming st
        /\ exists message,
            toasts = [ {| title := "Scanning failed";
                          description := message;
                          variant := Some "destructive" |} ]).
Proof.
  intros invoke st. cbv zeta.
  split; [destruct invoke as [t | [[l|]|] [e|]]; reflexivity|].
  split; [destruct invoke as [t | [[l|]|] [e|]]; reflexivity|].
  split.
  - intros dataItems ->. cbn.
    rewrite length_map.
    repeat split; try reflexivity.
    induction dataItems as [|x l IH]; simpl; [reflexivity|].
    rewrite IH. reflexivity.
  - intro Hfail.
    destruct invoke as [t | [[l|]|] [e|]]; cbn;
      try (split; [reflexivity|]; split; [reflexivity|];
           eexists; reflexivity).
    exfalso. apply (Hfail l). reflexivity.
Qed.

Lemma scan_outcome_witness :
  extractedItems
    (fst (processReceiptImage
            (InvokeReturns (Some (Some ScanReceiptFunction.simpleMock)) None)
            sampleScan))
  = [ {| name := "Apples"; category := "Produce"; price := Some "3.29";
         quantity := Some "3 lb"; confirmed := true |};
      {| name := "Greek Yogurt"; category := "Dairy"; price := Some "5.49";
         quantity := Some "32 oz"; confirmed := true |};
      {| name := "Ground Turkey"; category := "Meat"; price := Some "6.99";
         quantity := Some "1 lb"; confirmed := true |} ].
Proof.
  apply (proj1 (proj1 (proj2 (proj2 (scan_outcome
           (InvokeReturns (Some (Some ScanReceiptFunction.simpleMock)) None)
           sampleScan)))
           ScanReceiptFunction.simpleMock eq_refl)).
Defined.

End ScanReceiptFacts.


(** ** The receipt scanning function and the whole scanning flow *)

Module ScanFunctionFacts.

Import ScanReceiptFunction.

(** X25.  Every response of the function carries the three CORS headers
    and one of the statuses 200, 400, 405 and 500.  Only the preflight
    answer has no body.  A method other than OPTIONS and POST is answered
    with 405 without the body or the API key being looked at.  Items are
    returned only to a POST whose body has a non-empty [image], always with
    status 200, and they are one of the two fixed lists. *)
Theorem serve_responses :
  forall method request key,
    let r := serve method request key in
    incl corsHeaders (headers r)
    /\ (status r = 200 \/ status r = 400 \/ status r = 405 \/ status r = 500)
    /\ (body r = NoBody <-> method = "OPTIONS")
    /\ (method <> "OPTIONS" -> method <> "POST" ->
        r = {| body := ErrorBody "Method not allowed"; status := 405;
               headers := jsonHeaders |})
    /\ (forall items,
           body r = ItemsBody items ->
           method = "POST"
           /\ status r = 200
           /\ (exists image, request = BodyImage (Some image) /\ image <> "")
           /\ (items = mockItems \/ items = simpleMock)).
Proof.
  intros method request key. cbv zeta.
  assert (incl corsHeaders jsonHeaders) as Hjson
      by (unfold jsonHeaders; apply incl_appl, incl_refl).
  unfold serve.
  destruct (String.eqb_spec method "OPTIONS") as [Hopt | Hopt].
  { cbn [body status headers].
    split; [apply incl_refl|]. split; [left; reflexivity|].
    split; [split; intros _; [exact Hopt | reflexivity]|].
    split; [intro H; contradiction|].
    intros items E. discriminate E. }
  destruct (String.eqb_spec method "POST") as [Hpost | Hpost]; cbn [negb].
  - destruct request as [thrown | [image|]]; cbn [falsy].
    + cbn [body status headers].
      split; [exact Hjson|]. split; [right; right; right; reflexivity|].
      split; [split; [discriminate | intro; contradiction]|].
      split; [intros _ H; contradiction|].
      intros items E. discriminate E.
    + destruct (String.eqb_spec image "") as [Himg | Himg].
      * cbn [body status headers].
        split; [exact Hjson|]. split; [right; left; reflexivity|].
        split; [split; [discriminate | intro; contradiction]|].
        split; [intros _ H; contradiction|].
        intros items E. discriminate E.
      * destruct (falsy key); cbn [body status headers];
          (split; [exact Hjson|]);
          (split; [left; reflexivity|]);
          (split; [split; [discriminate | intro; contradiction]|]);
          (split; [intros _ H; contradiction|]);
          intros items E; injection E as <-;
          (split; [exact Hpost|]); (split; [reflexivity|]);
          (split; [exists image; split; [reflexivity | exact Himg]|]); auto.
    + cbn [body status headers].
      split; [exact Hjson|]. split; [right; left; reflexivity|].
      split; [split; [discriminate | intro; contradiction]|].
      split; [intros _ H; contradiction|].
      intros items E. discriminate E.
  - cbn [body status headers].
    split; [exact Hjson|]. split; [right; right; left; reflexivity|].
    split; [split; [discriminate | intro; contradiction]|].
    split; [intros _ _; reflexivity|].
    intros items E. discriminate E.
Qed.

Lemma serve_responses_witness :
  serve "DELETE" (BodyThrows None) (Some "sk-key")
  = {| body := ErrorBody "Method not allowed"; status := 405;
       headers := jsonHeaders |}.
Proof.
  apply (proj1 (proj2 (proj2 (proj2 (serve_responses "DELETE" (BodyThrows None)
                                        (Some "sk-key")))))).
  - discriminate.
  - discriminate.
Defined.

Section Flow.

Import ScanReceiptPage.

Variable LocalTZA : Z.
Variable now : Z.
Variable net : nat -> FetchOutcome.
Variable onSuccessThrows : list ItemWithEstimates -> bool.

(** X26.  The whole flow with the oracle unreachable: whatever non-empty
    image is posted and whether or not the API key is set, the items the
    function returns all have categories of the rule table, and scanning
    followed at once by confirming hands every one of them to
    [onSuccess], in order, with a heuristic estimate. *)
Theorem scan_then_confirm_adds_every_item :
  forall key image st,
    image <> "" ->
    (forall i, getLLMEstimate (net i) = None) ->
    0 <= YearFromTime now <= 9999 ->
    exists items,
      body (serve "POST" (BodyImage (Some image)) key) = ItemsBody items
      /\ (forall item, In item items ->
                       exists rules,
                         ownRule HEURISTIC_RULES
                                 (ScanReceiptFunction.category item)
                         = Some rules)
      /\ exists payload,
          snd (handleConfirmItems LocalTZA Date_parse_iso true now net
                 onSuccessThrows
                 (fst (processReceiptImage
                         (InvokeReturns (Some (Some items)) None) st)))
          = [payload]
          /\ map item_name payload = map ScanReceiptFunction.name items
          /\ Forall (fun p => estimate_source p = "heuristic") payload.
Proof.
  intros key image st Himg Hnet Hy.
  assert (exists items,
             body (serve "POST" (BodyImage (Some image)) key) = ItemsBody items
             /\ (items = mockItems \/ items = simpleMock)) as [items [Hbody Hitems]].
  { unfold serve. cbn [String.eqb Ascii.eqb Bool.eqb negb falsy].
    destruct (String.eqb_spec image ""); [contradiction|].
    destruct (falsy key); eexists; split; try reflexivity; auto. }
  exists items. split; [exact Hbody|]. split.
  { intros item Hin.
    destruct Hitems as [-> | ->]; simpl in Hin;
      repeat (destruct Hin as [<- | Hin]; [eexists; reflexivity|]);
      contradiction. }
  set (st' := fst (processReceiptImage (InvokeReturns (Some (Some items)) None) st)).
  assert (filter confirmed (extractedItems st') = extractedItems st'
          /\ map name (extractedItems st') = map ScanReceiptFunction.name items
          /\ map category (extractedItems st')
             = map ScanReceiptFunction.category items) as [Hall [Hnames Hcats]].
  { subst st'. cbn. rewrite !map_map. cbn. repeat split; try reflexivity.
    clear. induction items as [|x l IH]; simpl; [reflexivity|].
    rewrite IH. reflexivity. }
  destruct (ScanReceiptFacts.confirm_heuristic_records now net onSuccessThrows
              LocalTZA st')
    as [payload [Hp [Hlen Hrec]]].
  - rewrite Hall. intro E.
    assert (map name (extractedItems st') = []) as E' by (rewrite E; reflexivity).
    rewrite Hnames in E'. destruct Hitems as [-> | ->]; discriminate E'.
  - exact Hnet.
  - rewrite Hall. intros item Hin.
    assert (In (category item) (map ScanReceiptFunction.category items)) as Hc.
    { rewrite <- Hcats. apply in_map. exact Hin. }
    destruct Hitems as [-> | ->]; simpl in Hc;
      repeat (destruct Hc as [<- | Hc]; [reflexivity|]); contradiction.
  - exact Hy.
  - exists payload. split; [exact Hp|]. rewrite Hall in Hlen, Hrec.
    rewrite <- Hnames. split.
    + apply nth_error_ext. intro i. rewrite !nth_error_map.
      destruct (nth_error (extractedItems st') i) as [item|] eqn:Hi.
      * destruct (Hrec i item Hi) as [s [r [_ Hv]]]. rewrite Hv.
        reflexivity.
      * apply nth_error_None in Hi. rewrite <- Hlen in Hi.
        apply nth_error_None in Hi. rewrite Hi. reflexivity.
    + apply Forall_forall. intros p Hin.
      apply In_nth_error in Hin. destruct Hin as [i Hi].
      destruct (nth_error (extractedItems st') i) as [item|] eqn:Hitem.
      * destruct (Hrec i item Hitem) as [s [r [_ Hv]]].
        rewrite Hv in Hi. injection Hi as <-. reflexivity.
      * apply nth_error_None in Hitem. rewrite <- Hlen in Hitem.
        apply nth_error_None in Hitem. congruence.
Qed.

End Flow.

Lemma scan_then_confirm_adds_every_item_witness :
  exists items,
    body (serve "POST" (BodyImage (Some "data:image/png;base64,AAAA")) None)
    = ItemsBody items
    /\ (forall item, In item items ->
                     exists rules,
                       ownRule HEURISTIC_RULES
                               (ScanReceiptFunction.category item)
                       = Some rules)
    /\ exists payload,
        snd (ScanReceiptPage.handleConfirmItems 0 Date_parse_iso true
               ScanReceiptPage.sampleNow (fun _ => FetchRejected)
               (fun _ => false)
               (fst (ScanReceiptPage.processReceiptImage
                       (ScanReceiptPage.InvokeReturns (Some (Some items)) None)
                       ScanReceiptPage.sampleScan)))
        = [payload]
        /\ map ScanReceiptPage.item_name payload
           = map ScanReceiptFunction.name items
        /\ Forall (fun p => ScanReceiptPage.estimate_source p = "heuristic")
                  payload.
Proof.
  apply (scan_then_confirm_adds_every_item 0 ScanReceiptPage.sampleNow
           (fun _ => FetchRejected) (fun _ => false) None
           "data:image/png;base64,AAAA"
           ScanReceiptPage.sampleScan).
  - discriminate.
  - intro i. reflexivity.
  - vm_compute. split; discriminate.
Defined.

End ScanFunctionFacts.
